(** * Incremental documentation sync: a shallow embedding of the sync scripts

    The repository holds six Bun scripts named [sync-docs.ts], one per
    documentation source.  Five of them keep a manifest of content hashes
    (claude-api, claude-code, openai-codex, gemini-cli, openai-api); the
    sixth (gemini-dev) converts HTML pages to markdown.  Each script is
    embedded below in a module of its own, over a common model of the
    JavaScript runtime fragments they use: strings, parsed JSON values,
    the file system, the network, the console and promise rejection. *)

From Stdlib Require Import ZArith String Ascii List Bool Lia.
From stdpp Require Import base option list gmap sets strings pretty.

Set Warnings "-register-all".
Local Open Scope Z_scope.
Local Open Scope nat_scope.

(** ** JavaScript strings

    A character of a Rocq string stands for one UTF-16 code unit; the
    scripts only test prefixes, substrings, lengths and equality, all of
    which are code-unit-wise. *)

Module Js.

Definition nl : string := String "010"%char EmptyString.
Definition dq : string := String "034"%char EmptyString.

(** [content.startsWith(p)] *)
Definition startsWith (p s : string) : bool := String.prefix p s.

(** [content.includes(p)] *)
Fixpoint includes (p s : string) : bool :=
  String.prefix p s ||
  match s with
  | EmptyString => false
  | String _ s' => includes p s'
  end.

(** [s.substring(0, n)] *)
Definition substring0 (n : nat) (s : string) : string := String.substring 0 n s.

(** [s.split(c)[0]]: the text before the first occurrence of [c]. *)
Fixpoint before (c : ascii) (s : string) : string :=
  match s with
  | EmptyString => EmptyString
  | String a s' => if Ascii.eqb a c then EmptyString else String a (before c s')
  end.

(** White space and line terminators removed by [trim], among the code
    units below 256: TAB, LF, VT, FF, CR, SP and NBSP. *)
Definition is_space (a : ascii) : bool :=
  let n := nat_of_ascii a in
  (9 <=? n) && (n <=? 13) || (n =? 32) || (n =? 160).

Fixpoint trimStart (s : string) : string :=
  match s with
  | EmptyString => EmptyString
  | String a s' => if is_space a then trimStart s' else s
  end.

Fixpoint trimEnd (s : string) : string :=
  match s with
  | EmptyString => EmptyString
  | String a s' =>
      match trimEnd s' with
      | EmptyString => if is_space a then EmptyString else String a EmptyString
      | t => String a t
      end
  end.

Definition trim (s : string) : string := trimEnd (trimStart s).

(** [path.join(a, b)] for a directory [a] and a relative path [b] already
    in normal form, as all configured paths are. *)
Definition join (a b : string) : string := a +:+ "/" +:+ b.

(** [path.dirname(p)]: the text before the last separator, [.] when there
    is none. *)
Fixpoint dirname_go (s : string) : option string :=
  match s with
  | EmptyString => None
  | String a s' =>
      match dirname_go s' with
      | Some d => Some (String a d)
      | None => if Ascii.eqb a "/"%char then Some EmptyString else None
      end
  end.

Definition dirname (p : string) : string :=
  match dirname_go p with
  | Some EmptyString => "/"
  | Some d => d
  | None => "."
  end.

End Js.

(** ** Parsed JSON values

    What [JSON.parse] returns.  Numbers are kept as integers: the scripts
    only ever test a number for truthiness. *)

Inductive json : Type :=
| JNull
| JBool (b : bool)
| JNum (n : Z)
| JStr (s : string)
| JArr (xs : list json)
| JObj (fields : list (string * json)).

(** Own properties of an object, in insertion order. *)
Fixpoint obj_get (k : string) (fs : list (string * json)) : option json :=
  match fs with
  | [] => None
  | (k', v) :: fs' => if String.eqb k k' then Some v else obj_get k fs'
  end.

(** [o[k] = v]: an existing key keeps its place, a new one goes last. *)
Fixpoint obj_set (k : string) (v : json) (fs : list (string * json))
  : list (string * json) :=
  match fs with
  | [] => [(k, v)]
  | (k', v') :: fs' =>
      if String.eqb k k' then (k, v) :: fs' else (k', v') :: obj_set k v fs'
  end.

(** JavaScript truthiness; [None] is [undefined]. *)
Definition truthy (v : option json) : bool :=
  match v with
  | None | Some JNull => false
  | Some (JBool b) => b
  | Some (JNum n) => negb (n =? 0)%Z
  | Some (JStr s) => negb (String.eqb s EmptyString)
  | Some (JArr _) | Some (JObj _) => true
  end.

(** ** Outcomes of an asynchronous function

    [Throw] is a rejected promise or a thrown exception, [Exit] is
    [process.exit]: no handler catches it. *)

Inductive result (A : Type) : Type :=
| Ok (a : A)
| Throw (e : string)
| Exit (code : Z).
Arguments Ok {A} a.
Arguments Throw {A} e.
Arguments Exit {A} code.

Definition TypeError : string := "TypeError: cannot read a property of null or undefined".

(** Member access [v[k]] on a value that may be [undefined].  Keys are
    document paths and slugs, which name no array index and no member
    inherited from a prototype, so the access resolves own properties of
    objects and is [undefined] on every other non-null value. *)
Definition member (v : option json) (k : string) : result (option json) :=
  match v with
  | None | Some JNull => Throw TypeError
  | Some (JObj fs) => Ok (obj_get k fs)
  | Some _ => Ok None
  end.

(** [oldEntry && oldEntry.hash === hash] *)
Definition same_hash (oldEntry : option json) (hash : string) : bool :=
  truthy oldEntry &&
  match member oldEntry "hash" with
  | Ok (Some (JStr h)) => String.eqb h hash
  | _ => false
  end.

(** ** The world outside the script *)

Record response : Type := Response {
  status : Z;
  body : option string  (* [None]: reading the body rejects *)
}.

Inductive http_result : Type :=
| NetFail (e : string)
| Responded (r : response).

(** [response.ok] *)
Definition ok (r : response) : bool := (200 <=? status r)%Z && (status r <=? 299)%Z.

(** A path inside a cloned working tree. *)
Inductive tree_file : Type :=
| NoFile
| Unreadable (e : string)
| FileText (s : string).

(** The manifest file, seen through [existsSync], [readFile] and
    [JSON.parse]: a file that parses is represented by its value. *)
Inductive mfile : Type :=
| MAbsent
| MUnreadable (e : string)
| MCorrupt (text : string)
| MJson (v : json).

(** The outcome of a synchronous library call. *)
Inductive attempt : Type :=
| Done (value : string)
| Failed (error : string).

(** What the run does not control.  Answers of the network depend on the
    resource being processed ([None] outside the resource loop) and on
    the URL. *)
Record env : Type := Env {
  hashContent : string -> string;
  toISOString : nat -> string;
  http : option nat -> string -> http_result;
  mkdir_fails : string -> option string;
  write_fails : string -> option string;
  dir_exists : string -> bool;
  script_dir : string;                       (* [import.meta.dir] *)
  git : string -> option string;             (* [git rev-parse HEAD] after clone or update *)
  tree : string -> tree_file;
  extractMainContent : string -> attempt;     (* [linkedom] and the selector lists *)
  turndown : string -> attempt                (* [turndown.turndown] *)
}.

Inductive chan : Type := StdoutWrite | ConsoleLog | ConsoleError | ConsoleWarn.

Inductive io : Type :=
| IoRequest (url : string)
| IoResponse (url : string)
| IoRead (path : string)
| IoMkdir (path : string)
| IoWrite (path : string)
| IoSleep (ms : nat)
| IoGit (url : string).

(** The state a script runs in: the destination tree, the console, the
    record of I/O actions (tagged with the position of the resource being
    processed), and the mutable variables of [main]. *)
Record state : Type := State {
  files : gmap string string;
  dirs : gset string;
  manifest_file : mfile;
  out : list (chan * string);
  trace : list (option nat * io);
  cursor : option nat;
  newFiles : list (string * json);   (* [newManifest.files] *)
  fetched : nat;                     (* [fetched], [copied], [successCount] *)
  unchanged : nat;
  failed : nat
}.

Definition set_files (f : gmap string string -> gmap string string) (s : state) : state :=
  State (f (files s)) (dirs s) (manifest_file s) (out s) (trace s) (cursor s)
        (newFiles s) (fetched s) (unchanged s) (failed s).
Definition set_dirs (f : gset string -> gset string) (s : state) : state :=
  State (files s) (f (dirs s)) (manifest_file s) (out s) (trace s) (cursor s)
        (newFiles s) (fetched s) (unchanged s) (failed s).
Definition set_manifest_file (m : mfile) (s : state) : state :=
  State (files s) (dirs s) m (out s) (trace s) (cursor s)
        (newFiles s) (fetched s) (unchanged s) (failed s).
Definition set_out (f : list (chan * string) -> list (chan * string)) (s : state) : state :=
  State (files s) (dirs s) (manifest_file s) (f (out s)) (trace s) (cursor s)
        (newFiles s) (fetched s) (unchanged s) (failed s).
Definition set_trace (f : list (option nat * io) -> list (option nat * io)) (s : state) : state :=
  State (files s) (dirs s) (manifest_file s) (out s) (f (trace s)) (cursor s)
        (newFiles s) (fetched s) (unchanged s) (failed s).
Definition set_cursor (c : option nat) (s : state) : state :=
  State (files s) (dirs s) (manifest_file s) (out s) (trace s) c
        (newFiles s) (fetched s) (unchanged s) (failed s).
Definition set_newFiles (f : list (string * json) -> list (string * json)) (s : state) : state :=
  State (files s) (dirs s) (manifest_file s) (out s) (trace s) (cursor s)
        (f (newFiles s)) (fetched s) (unchanged s) (failed s).
Definition set_fetched (f : nat -> nat) (s : state) : state :=
  State (files s) (dirs s) (manifest_file s) (out s) (trace s) (cursor s)
        (newFiles s) (f (fetched s)) (unchanged s) (failed s).
Definition set_unchanged (f : nat -> nat) (s : state) : state :=
  State (files s) (dirs s) (manifest_file s) (out s) (trace s) (cursor s)
        (newFiles s) (fetched s) (f (unchanged s)) (failed s).
Definition set_failed (f : nat -> nat) (s : state) : state :=
  State (files s) (dirs s) (manifest_file s) (out s) (trace s) (cursor s)
        (newFiles s) (fetched s) (unchanged s) (f (failed s)).

(** ** The monad of scripts *)

Definition M (A : Type) : Type := state -> result A * state.

Definition ret {A} (a : A) : M A := fun s => (Ok a, s).

Definition bind {A B} (m : M A) (k : A -> M B) : M B := fun s =>
  match m s with
  | (Ok a, s') => k a s'
  | (Throw e, s') => (Throw e, s')
  | (Exit c, s') => (Exit c, s')
  end.

Definition throw {A} (e : string) : M A := fun s => (Throw e, s).

(** [process.exit(code)] *)
Definition process_exit {A} (code : Z) : M A := fun s => (Exit code, s).

(** [try { m } catch (error) { h error }] *)
Definition try_catch {A} (m : M A) (h : string -> M A) : M A := fun s =>
  match m s with
  | (Throw e, s') => h e s'
  | r => r
  end.

(** Lift a pure computation that may throw. *)
Definition lift {A} (r : result A) : M A := fun s => (r, s).

Definition call (a : attempt) : M string :=
  match a with
  | Done value => ret value
  | Failed error => throw error
  end.

Definition modify (f : state -> state) : M unit := fun s => (Ok tt, f s).

Declare Scope js_scope.
Delimit Scope js_scope with js.
Notation "'do' x <- m ; k" := (bind m (fun x => k))
  (at level 10, x name, m at level 100, k at level 200) : js_scope.
Notation "m ;; k" := (bind m (fun _ => k))
  (at level 100, k at level 200, right associativity) : js_scope.
Local Open Scope js_scope.

(** [for (const x of xs) body]; the body is given the position of [x]. *)
Fixpoint for_of {A} (body : nat -> A -> M unit) (i : nat) (xs : list A) : M unit :=
  match xs with
  | [] => ret tt
  | x :: xs' => body i x ;; for_of body (S i) xs'
  end.

(** ** Runtime primitives and the code shared by the manifest scripts *)

Section Runtime.
Context (E : env).

Definition RESOURCES_DIR : string := Js.join (Js.dirname (script_dir E)) "resources".
Definition MANIFEST_FILE : string := Js.join RESOURCES_DIR "manifest.json".

Definition record (a : io) : M unit := fun s =>
  (Ok tt, set_trace (fun t => t ++ [(cursor s, a)]) s).

Definition print (c : chan) (t : string) : M unit :=
  modify (set_out (fun o => o ++ [(c, t)])).

Fixpoint print_all (c : chan) (ts : list string) : M unit :=
  match ts with
  | [] => ret tt
  | t :: ts' => print c t ;; print_all c ts'
  end.

(** [new Date().toISOString()]: the clock advances with every I/O action. *)
Definition now : M string := fun s => (Ok (toISOString E (length (trace s))), s).

(** [await fetch(url, ...)]: the call sends the request at once, the
    await resumes when the answer or the failure arrives. *)
Definition fetch_send (url : string) : M unit := record (IoRequest url).

Definition fetch_settle (url : string) : M response := fun s =>
  match http E (cursor s) url with
  | NetFail e => (Throw e, s)
  | Responded r => (record (IoResponse url) ;; ret r) s
  end.

Definition fetch (url : string) : M response := fetch_send url ;; fetch_settle url.

(** [await response.text()] *)
Definition text (r : response) : M string :=
  match body r with
  | Some b => ret b
  | None => throw "TypeError: failed to read the response body"
  end.

(** [await mkdir(path, { recursive: true })] *)
Definition mkdir (path : string) : M unit :=
  record (IoMkdir path) ;;
  match mkdir_fails E path with
  | Some e => throw e
  | None => modify (set_dirs (fun d => {[path]} ∪ d))
  end.

(** [await writeFile(path, content)] for a destination file *)
Definition writeFile (path content : string) : M unit :=
  record (IoWrite path) ;;
  match write_fails E path with
  | Some e => throw e
  | None => modify (set_files (fun f => <[path := content]> f))
  end.

(** [await new Promise((resolve) => setTimeout(resolve, ms))] *)
Definition sleep (ms : nat) : M unit := record (IoSleep ms).

(** [existsSync(MANIFEST_FILE)] *)
Definition manifest_exists : M bool := fun s =>
  (Ok (match manifest_file s with MAbsent => false | _ => true end), s).

(** [JSON.parse(await readFile(MANIFEST_FILE, "utf-8"))] *)
Definition read_manifest : M json :=
  record (IoRead MANIFEST_FILE) ;;
  fun s =>
    match manifest_file s with
    | MAbsent => (Throw "ENOENT: no such file or directory", s)
    | MUnreadable e => (Throw e, s)
    | MCorrupt _ => (Throw "SyntaxError: JSON Parse error", s)
    | MJson v => (Ok v, s)
    end.

(** [loadManifest], the same in the manifest scripts up to the literal
    returned when nothing could be loaded. *)
Definition loadManifest (fresh : json) : M json :=
  do present <- manifest_exists;
  do loaded <-
    (if present then
       try_catch (do v <- read_manifest; ret (Some v))
                 (fun _ => print ConsoleWarn "Failed to load manifest, starting fresh" ;; ret None)
     else ret None);
  match loaded with
  | Some v => ret v
  | None => ret fresh
  end.

(** [saveManifest(newManifest)]; [meta] holds the members of
    [newManifest] between [lastSync] and [files]. *)
Definition saveManifest (meta : list (string * json)) : M unit :=
  do lastSync <- now;
  record (IoWrite MANIFEST_FILE) ;;
  match write_fails E MANIFEST_FILE with
  | Some e => throw e
  | None => fun s =>
      (Ok tt,
       set_manifest_file
         (MJson (JObj (("lastSync", JStr lastSync) :: meta ++ [("files", JObj (newFiles s))]))) s)
  end.

(** [fetchDoc], the same in claude-api and claude-code up to [BASE_URL]. *)
Definition fetchDoc (BASE_URL slug : string) : M (option string) :=
  let url := BASE_URL +:+ "/" +:+ slug +:+ ".md" in
  try_catch
    (do response <- fetch url;
     if negb (ok response) then
       print ConsoleError ("  Failed to fetch " +:+ slug +:+ ": " +:+ pretty (status response)) ;;
       ret None
     else
       do content <- text response;
       if Js.startsWith "<!DOCTYPE" content || Js.includes "<html" content then
         print ConsoleError ("  " +:+ slug +:+ ": Received HTML instead of markdown") ;;
         ret None
       else if String.length content <? 50 then
         print ConsoleError ("  " +:+ slug +:+ ": Content too short") ;;
         ret None
       else ret (Some content))
    (fun error =>
       print ConsoleError ("  Error fetching " +:+ slug +:+ ": " +:+ error) ;;
       ret None).

(** The write of a new or changed resource:
    [await mkdir(dirname(destPath), { recursive: true })], where the
    script has it, then [await writeFile(destPath, content)]. *)
Definition store (ensureDir : bool) (destPath content : string) : M unit :=
  (if ensureDir then mkdir (Js.dirname destPath) else ret tt) ;;
  writeFile destPath content.

(** The comparison against the previous manifest, repeated verbatim for
    every resource of every manifest script:
    [const hash = hashContent(content); const oldEntry = manifest.files[key];
     if (oldEntry && oldEntry.hash === hash) { ... } else { ... }].
    [entry] builds the literal recorded for a new or changed resource. *)
Definition compare_and_record (isDryRun : bool) (manifest : json) (key content : string)
    (ensureDir : bool) (destPath : string) (entry : string -> string -> json) : M unit :=
  let hash := hashContent E content in
  do table <- lift (member (Some manifest) "files");
  do oldEntry <- lift (member table key);
  if same_hash oldEntry hash then
    print ConsoleLog " unchanged" ;;
    modify (set_unchanged S) ;;
    modify (set_newFiles (fun fs =>
      match oldEntry with Some old => obj_set key old fs | None => fs end))
  else
    print ConsoleLog (if truthy oldEntry then " updated" else " new") ;;
    modify (set_fetched S) ;;
    (if isDryRun then ret tt else store ensureDir destPath content) ;;
    do lastUpdated <- now;
    modify (set_newFiles (obj_set key (entry hash lastUpdated))).

Definition get {A} (f : state -> A) : M A := fun s => (Ok (f s), s).

(** [let fetched = 0; let unchanged = 0; let failed = 0] and the empty
    [files] of [newManifest]. *)
Definition init_locals : M unit :=
  modify (fun s => set_newFiles (fun _ => [])
           (set_fetched (fun _ => 0) (set_unchanged (fun _ => 0) (set_failed (fun _ => 0) s)))).

(** [process.argv.includes("--dry-run")] *)
Definition dry_run_flag (argv : list string) : bool := existsb (String.eqb "--dry-run") argv.

(** [main().catch(console.error)], the last line of the manifest
    scripts: a rejection is printed and the process ends normally. *)
Definition catch_console_error (m : M unit) (s : state) : Z * state :=
  match m s with
  | (Ok _, s') => (0%Z, s')
  | (Throw e, s') => (0%Z, set_out (fun o => o ++ [(ConsoleError, e)]) s')
  | (Exit c, s') => (c, s')
  end.

(** A module whose top level awaits without a handler: a rejection is an
    uncaught error and the runtime exits with status 1. *)
Definition top_level_await (m : M unit) (s : state) : Z * state :=
  match m s with
  | (Ok _, s') => (0%Z, s')
  | (Throw e, s') => (1%Z, set_out (fun o => o ++ [(ConsoleError, e)]) s')
  | (Exit c, s') => (c, s')
  end.

End Runtime.

(** ** skills/claude-api/scripts/sync-docs.ts *)

Module ClaudeApi.

Definition BASE_URL : string := "https://platform.claude.com/docs/en".

Record DocPage : Type := {
  slug : string;
  outputPath : string;
  title : string;
  description : string
}.

Definition subdirs : list string :=
  ["models"; "features"; "prompting"; "tools"; "skills";
   "mcp"; "agent-sdk"; "evaluation"; "guardrails"; "api"; "cloud"].

Section Script.
Context (E : env) (DOC_PAGES : list DocPage).

(** The literal [loadManifest] returns when there is nothing to load. *)
Definition fresh_manifest : json :=
  JObj [("lastSync", JStr EmptyString); ("baseUrl", JStr BASE_URL); ("files", JObj [])].

Definition entry (page : DocPage) (hash lastUpdated : string) : json :=
  JObj [("slug", JStr (slug page)); ("title", JStr (title page));
        ("description", JStr (description page)); ("hash", JStr hash);
        ("lastUpdated", JStr lastUpdated);
        ("sourceUrl", JStr (BASE_URL +:+ "/" +:+ slug page))].

(** The body of [for (const page of DOC_PAGES)]. *)
Definition loop_body (isDryRun : bool) (manifest : json) (i : nat) (page : DocPage) : M unit :=
  modify (set_cursor (Some i)) ;;
  print StdoutWrite ("Fetching " +:+ slug page +:+ "...") ;;
  do content <- fetchDoc E BASE_URL (slug page);
  match content with
  | None => modify (set_failed S)
  | Some content =>
      if String.eqb content EmptyString then modify (set_failed S)
      else
        compare_and_record E isDryRun manifest (outputPath page) content
          true (Js.join (RESOURCES_DIR E) (outputPath page)) (entry page) ;;
        sleep 150
  end.

Definition banner (isDryRun : bool) : list string :=
  ["Claude API Documentation Sync";
   "=============================";
   "Mode: " +:+ (if isDryRun then "DRY RUN" else "LIVE");
   "Source: " +:+ BASE_URL;
   "Target: " +:+ RESOURCES_DIR E;
   EmptyString].

Definition summary : M unit :=
  do f <- get fetched;
  do u <- get unchanged;
  do x <- get failed;
  print_all ConsoleLog
    [EmptyString; "Summary"; "-------";
     "Fetched/Updated: " +:+ pretty f;
     "Unchanged: " +:+ pretty u;
     "Failed: " +:+ pretty x;
     "Total: " +:+ pretty (length DOC_PAGES)].

Definition main (argv : list string) : M unit :=
  let isDryRun := dry_run_flag argv in
  print_all ConsoleLog (banner isDryRun) ;;
  (if isDryRun then ret tt
   else
     mkdir E (RESOURCES_DIR E) ;;
     for_of (fun _ subdir => mkdir E (Js.join (RESOURCES_DIR E) subdir)) 0 subdirs) ;;
  do manifest <- loadManifest E fresh_manifest;
  init_locals ;;
  for_of (loop_body isDryRun manifest) 0 DOC_PAGES ;;
  modify (set_cursor None) ;;
  (if isDryRun then ret tt else saveManifest E [("baseUrl", JStr BASE_URL)]) ;;
  summary.

Definition script (argv : list string) : state -> Z * state :=
  catch_console_error (main argv).

End Script.
End ClaudeApi.

(** ** The claude-code script (same layout, keyed by slug, with the
    changelog as one more resource) *)

Module ClaudeCode.

Definition BASE_URL : string := "https://code.claude.com/docs/en".
Definition changelogUrl : string :=
  "https://raw.githubusercontent.com/anthropics/claude-code/main/CHANGELOG.md".

Record DocPage : Type := {
  slug : string;
  title : string;
  description : string
}.

Section Script.
Context (E : env) (DOC_PAGES : list DocPage).

Definition fresh_manifest : json :=
  JObj [("lastSync", JStr EmptyString); ("baseUrl", JStr BASE_URL); ("files", JObj [])].

Definition entry (page : DocPage) (hash lastUpdated : string) : json :=
  JObj [("slug", JStr (slug page)); ("title", JStr (title page));
        ("description", JStr (description page)); ("hash", JStr hash);
        ("lastUpdated", JStr lastUpdated);
        ("sourceUrl", JStr (BASE_URL +:+ "/" +:+ slug page))].

Definition changelog_entry (hash lastUpdated : string) : json :=
  JObj [("slug", JStr "changelog"); ("title", JStr "Changelog");
        ("description", JStr "Release notes and version history"); ("hash", JStr hash);
        ("lastUpdated", JStr lastUpdated);
        ("sourceUrl", JStr changelogUrl)].

Definition loop_body (isDryRun : bool) (manifest : json) (i : nat) (page : DocPage) : M unit :=
  modify (set_cursor (Some i)) ;;
  print StdoutWrite ("Fetching " +:+ slug page +:+ "...") ;;
  do content <- fetchDoc E BASE_URL (slug page);
  match content with
  | None => modify (set_failed S)
  | Some content =>
      if String.eqb content EmptyString then modify (set_failed S)
      else
        compare_and_record E isDryRun manifest (slug page) content
          false (Js.join (RESOURCES_DIR E) (slug page +:+ ".md")) (entry page) ;;
        sleep 200
  end.

(** The block under [// Fetch changelog from GitHub]. *)
Definition changelog (isDryRun : bool) (manifest : json) : M unit :=
  modify (set_cursor (Some (length DOC_PAGES))) ;;
  print StdoutWrite "Fetching changelog..." ;;
  try_catch
    (do response <- fetch E changelogUrl;
     if ok response then
       do content <- text response;
       compare_and_record E isDryRun manifest "changelog" content
         false (Js.join (RESOURCES_DIR E) "changelog.md") changelog_entry
     else ret tt)
    (fun _ => print ConsoleLog " failed" ;; modify (set_failed S)).

Definition banner (isDryRun : bool) : list string :=
  ["Claude Code Documentation Sync";
   "==============================";
   "Mode: " +:+ (if isDryRun then "DRY RUN" else "LIVE");
   "Source: " +:+ BASE_URL;
   "Target: " +:+ RESOURCES_DIR E;
   EmptyString].

Definition summary : M unit :=
  do f <- get fetched;
  do u <- get unchanged;
  do x <- get failed;
  print_all ConsoleLog
    [EmptyString; "Summary"; "-------";
     "Fetched/Updated: " +:+ pretty f;
     "Unchanged: " +:+ pretty u;
     "Failed: " +:+ pretty x;
     "Total: " +:+ pretty (length DOC_PAGES + 1)].

Definition main (argv : list string) : M unit :=
  let isDryRun := dry_run_flag argv in
  print_all ConsoleLog (banner isDryRun) ;;
  (if isDryRun then ret tt else mkdir E (RESOURCES_DIR E)) ;;
  do manifest <- loadManifest E fresh_manifest;
  init_locals ;;
  for_of (loop_body isDryRun manifest) 0 DOC_PAGES ;;
  changelog isDryRun manifest ;;
  modify (set_cursor None) ;;
  (if isDryRun then ret tt else saveManifest E [("baseUrl", JStr BASE_URL)]) ;;
  summary.

Definition script (argv : list string) : state -> Z * state :=
  catch_console_error (main argv).

End Script.
End ClaudeCode.

(** ** The repository-snapshot scripts *)

Section Repository.
Context (E : env).

(** [existsSync(sourcePath)] and [await readFile(sourcePath, "utf-8")]
    on the cloned working tree. *)
Definition source_exists (path : string) : bool :=
  match tree E path with NoFile => false | _ => true end.

Definition read_source (path : string) : M string :=
  record (IoRead path) ;;
  match tree E path with
  | NoFile => throw "ENOENT: no such file or directory"
  | Unreadable e => throw e
  | FileText s => ret s
  end.

(** The [git] commands of [cloneOrPullRepo] / [cloneOrPull]:
    [git fetch] and [git reset --hard] inside the clone [dir] when it
    exists, [git clone] into [dir] when it does not, then
    [git rev-parse HEAD]; a failing command rejects.  The commands run in
    a preview as in a live run: when they succeed, [dir] has been created
    or its working tree has been rewritten. *)
Definition git_sync (url dir : string) : M string :=
  record (IoGit url) ;;
  match git E url with
  | None => throw "ShellError: git exited with a non-zero code"
  | Some head => modify (set_dirs (fun d => {[dir]} ∪ d)) ;; ret (Js.trim head)
  end.

End Repository.

(** *** skills/openai-codex/scripts/sync-docs.ts *)

Module OpenaiCodex.

Definition REPO_URL : string := "https://github.com/openai/codex.git".
Definition TEMP_DIR : string := "/tmp/openai-codex-sync".

Record Doc : Type := { src : string; dest : string }.

Section Script.
Context (E : env) (DOC_PATHS : list Doc).

Definition fresh_manifest : json :=
  JObj [("lastSync", JStr EmptyString); ("sourceRepo", JStr REPO_URL);
        ("sourceCommit", JStr EmptyString); ("files", JObj [])].

Definition entry (doc : Doc) (hash lastUpdated : string) : json :=
  JObj [("src", JStr (src doc)); ("dest", JStr (dest doc)); ("hash", JStr hash);
        ("lastUpdated", JStr lastUpdated)].

Definition cloneOrPullRepo : M string :=
  (if dir_exists E TEMP_DIR then print ConsoleLog "Updating existing clone..."
   else print ConsoleLog "Cloning repository...") ;;
  git_sync E REPO_URL TEMP_DIR.

(** The body of [for (const doc of DOC_PATHS)]. *)
Definition loop_body (isDryRun : bool) (manifest : json) (i : nat) (doc : Doc) : M unit :=
  let sourcePath := Js.join TEMP_DIR (src doc) in
  modify (set_cursor (Some i)) ;;
  print StdoutWrite ("Processing " +:+ src doc +:+ "...") ;;
  if negb (source_exists E sourcePath) then
    print ConsoleLog " not found" ;;
    modify (set_failed S)
  else
    try_catch
      (do content <- read_source E sourcePath;
       compare_and_record E isDryRun manifest (dest doc) content
         true (Js.join (RESOURCES_DIR E) (dest doc)) (entry doc))
      (fun error =>
         print ConsoleLog (" error: " +:+ error) ;;
         modify (set_failed S)).

Definition banner (isDryRun : bool) : list string :=
  ["OpenAI Codex CLI Documentation Sync";
   "====================================";
   "Mode: " +:+ (if isDryRun then "DRY RUN" else "LIVE");
   "Source: " +:+ REPO_URL;
   "Target: " +:+ RESOURCES_DIR E;
   EmptyString].

Definition summary (commitHash : string) : M unit :=
  do f <- get fetched;
  do u <- get unchanged;
  do x <- get failed;
  print_all ConsoleLog
    [EmptyString; "Summary"; "-------";
     "Copied/Updated: " +:+ pretty f;
     "Unchanged: " +:+ pretty u;
     "Failed/Missing: " +:+ pretty x;
     "Total: " +:+ pretty (length DOC_PATHS);
     "Source commit: " +:+ Js.substring0 8 commitHash].

Definition main (argv : list string) : M unit :=
  let isDryRun := dry_run_flag argv in
  print_all ConsoleLog (banner isDryRun) ;;
  do commitHash <-
    try_catch
      (do c <- cloneOrPullRepo;
       print ConsoleLog ("Source commit: " +:+ Js.substring0 8 c) ;;
       print ConsoleLog EmptyString ;;
       ret c)
      (fun error =>
         print ConsoleError ("Failed to clone/update repository: " +:+ error) ;;
         process_exit 1%Z);
  (if isDryRun then ret tt
   else mkdir E (RESOURCES_DIR E) ;; mkdir E (Js.join (RESOURCES_DIR E) "sdk")) ;;
  do manifest <- loadManifest E fresh_manifest;
  init_locals ;;
  for_of (loop_body isDryRun manifest) 0 DOC_PATHS ;;
  modify (set_cursor None) ;;
  (if isDryRun then ret tt
   else saveManifest E [("sourceRepo", JStr REPO_URL); ("sourceCommit", JStr commitHash)]) ;;
  summary commitHash.

Definition script (argv : list string) : state -> Z * state :=
  catch_console_error (main argv).

End Script.
End OpenaiCodex.

(** *** The gemini-cli script (the second script of
    skills/claude-api/scripts/sync-docs.ts): a resource is a path under
    [docs/] of the repository *)

Module GeminiCli.

Definition REPO_URL : string := "https://github.com/google-gemini/gemini-cli.git".
Definition TEMP_DIR : string := "/tmp/gemini-cli-sync".

Section Script.
Context (E : env) (DOC_PATHS : list string).

Definition fresh_manifest : json :=
  JObj [("lastSync", JStr EmptyString); ("sourceRepo", JStr REPO_URL);
        ("sourceCommit", JStr EmptyString); ("files", JObj [])].

Definition entry (docPath hash lastUpdated : string) : json :=
  JObj [("path", JStr docPath); ("hash", JStr hash); ("lastUpdated", JStr lastUpdated)].

Definition cloneOrPullRepo : M string :=
  (if dir_exists E TEMP_DIR then print ConsoleLog "Updating existing clone..."
   else print ConsoleLog "Cloning repository...") ;;
  git_sync E REPO_URL TEMP_DIR.

(** The body of [for (const docPath of DOC_PATHS)]. *)
Definition loop_body (isDryRun : bool) (manifest : json) (i : nat) (docPath : string) : M unit :=
  let sourcePath := Js.join (Js.join TEMP_DIR "docs") docPath in
  modify (set_cursor (Some i)) ;;
  print StdoutWrite ("Processing " +:+ docPath +:+ "...") ;;
  if negb (source_exists E sourcePath) then
    print ConsoleLog " not found" ;;
    modify (set_failed S)
  else
    try_catch
      (do content <- read_source E sourcePath;
       compare_and_record E isDryRun manifest docPath content
         true (Js.join (RESOURCES_DIR E) docPath) (entry docPath))
      (fun error =>
         print ConsoleLog (" error: " +:+ error) ;;
         modify (set_failed S)).

Definition banner (isDryRun : bool) : list string :=
  ["Gemini CLI Documentation Sync";
   "=============================";
   "Mode: " +:+ (if isDryRun then "DRY RUN" else "LIVE");
   "Source: " +:+ REPO_URL;
   "Target: " +:+ RESOURCES_DIR E;
   EmptyString].

Definition summary (commitHash : string) : M unit :=
  do f <- get fetched;
  do u <- get unchanged;
  do x <- get failed;
  print_all ConsoleLog
    [EmptyString; "Summary"; "-------";
     "Copied/Updated: " +:+ pretty f;
     "Unchanged: " +:+ pretty u;
     "Failed/Missing: " +:+ pretty x;
     "Total: " +:+ pretty (length DOC_PATHS);
     "Source commit: " +:+ Js.substring0 8 commitHash].

Definition main (argv : list string) : M unit :=
  let isDryRun := dry_run_flag argv in
  print_all ConsoleLog (banner isDryRun) ;;
  do commitHash <-
    try_catch
      (do c <- cloneOrPullRepo;
       print ConsoleLog ("Source commit: " +:+ Js.substring0 8 c) ;;
       print ConsoleLog EmptyString ;;
       ret c)
      (fun error =>
         print ConsoleError ("Failed to clone/update repository: " +:+ error) ;;
         process_exit 1%Z);
  (if isDryRun then ret tt else mkdir E (RESOURCES_DIR E)) ;;
  do manifest <- loadManifest E fresh_manifest;
  init_locals ;;
  for_of (loop_body isDryRun manifest) 0 DOC_PATHS ;;
  modify (set_cursor None) ;;
  (if isDryRun then ret tt
   else saveManifest E [("sourceRepo", JStr REPO_URL); ("sourceCommit", JStr commitHash)]) ;;
  summary commitHash.

Definition script (argv : list string) : state -> Z * state :=
  catch_console_error (main argv).

End Script.
End GeminiCli.

(** *** The openai-api script: two repositories, two resource lists *)

Module OpenaiApi.

Definition PYTHON_SDK_URL : string := "https://github.com/openai/openai-python.git".
Definition COOKBOOK_URL : string := "https://github.com/openai/openai-cookbook.git".
Definition SDK_TEMP : string := "/tmp/openai-python-sync".
Definition COOKBOOK_TEMP : string := "/tmp/openai-cookbook-sync".

Record Doc : Type := { src : string; dest : string }.

Section Script.
Context (E : env) (SDK_DOCS COOKBOOK_DOCS : list Doc).

Definition sources : json :=
  JObj [("sdk", JStr PYTHON_SDK_URL); ("cookbook", JStr COOKBOOK_URL)].

Definition fresh_manifest : json :=
  JObj [("lastSync", JStr EmptyString); ("sources", sources);
        ("commits", JObj [("sdk", JStr EmptyString); ("cookbook", JStr EmptyString)]);
        ("files", JObj [])].

Definition entry (source : string) (doc : Doc) (hash lastUpdated : string) : json :=
  JObj [("src", JStr (src doc)); ("dest", JStr (dest doc)); ("hash", JStr hash);
        ("lastUpdated", JStr lastUpdated); ("source", JStr source)].

Definition cloneOrPull (url dir : string) : M string := git_sync E url dir.

(** The body of both resource loops; [temp], [label] and [source] are
    what differs between the SDK loop and the cookbook loop, [base] is
    the number of resources processed by earlier loops. *)
Definition loop_body (temp label source : string) (base : nat)
    (isDryRun : bool) (manifest : json) (i : nat) (doc : Doc) : M unit :=
  let sourcePath := Js.join temp (src doc) in
  modify (set_cursor (Some (base + i))) ;;
  print StdoutWrite ("Processing " +:+ label +:+ "/" +:+ src doc +:+ "...") ;;
  if negb (source_exists E sourcePath) then
    print ConsoleLog " not found" ;;
    modify (set_failed S)
  else
    try_catch
      (do content <- read_source E sourcePath;
       compare_and_record E isDryRun manifest (dest doc) content
         true (Js.join (RESOURCES_DIR E) (dest doc)) (entry source doc))
      (fun error =>
         print ConsoleLog (" error: " +:+ error) ;;
         modify (set_failed S)).

Definition summary : M unit :=
  do f <- get fetched;
  do u <- get unchanged;
  do x <- get failed;
  print_all ConsoleLog
    [EmptyString; "Summary"; "-------";
     "Copied/Updated: " +:+ pretty f;
     "Unchanged: " +:+ pretty u;
     "Failed/Missing: " +:+ pretty x;
     "Total: " +:+ pretty (length SDK_DOCS + length COOKBOOK_DOCS)].

Definition banner (isDryRun : bool) : list string :=
  ["OpenAI API Documentation Sync";
   "=============================";
   "Mode: " +:+ (if isDryRun then "DRY RUN" else "LIVE");
   "Target: " +:+ RESOURCES_DIR E;
   EmptyString].

Definition main (argv : list string) : M unit :=
  let isDryRun := dry_run_flag argv in
  print_all ConsoleLog (banner isDryRun) ;;
  print ConsoleLog "Syncing openai-python SDK..." ;;
  do sdkCommit <-
    try_catch
      (do c <- cloneOrPull PYTHON_SDK_URL SDK_TEMP;
       print ConsoleLog ("SDK commit: " +:+ Js.substring0 8 c) ;;
       ret c)
      (fun error =>
         print ConsoleError ("Failed to sync SDK: " +:+ error) ;;
         process_exit 1%Z);
  print ConsoleLog (Js.nl +:+ "Syncing openai-cookbook...") ;;
  do cookbookCommit <-
    try_catch
      (do c <- cloneOrPull COOKBOOK_URL COOKBOOK_TEMP;
       print ConsoleLog ("Cookbook commit: " +:+ Js.substring0 8 c) ;;
       ret c)
      (fun error =>
         print ConsoleError ("Failed to sync cookbook: " +:+ error) ;;
         process_exit 1%Z);
  print ConsoleLog EmptyString ;;
  (if isDryRun then ret tt
   else
     mkdir E (RESOURCES_DIR E) ;;
     mkdir E (Js.join (RESOURCES_DIR E) "sdk") ;;
     mkdir E (Js.join (RESOURCES_DIR E) "cookbook")) ;;
  do manifest <- loadManifest E fresh_manifest;
  init_locals ;;
  for_of (loop_body SDK_TEMP "SDK" "openai-python" 0 isDryRun manifest) 0 SDK_DOCS ;;
  for_of (loop_body COOKBOOK_TEMP "cookbook" "openai-cookbook" (length SDK_DOCS) isDryRun manifest)
         0 COOKBOOK_DOCS ;;
  modify (set_cursor None) ;;
  (if isDryRun then ret tt
   else saveManifest E
          [("sources", sources);
           ("commits", JObj [("sdk", JStr sdkCommit); ("cookbook", JStr cookbookCommit)])]) ;;
  summary.

Definition script (argv : list string) : state -> Z * state :=
  catch_console_error (main argv).

End Script.
End OpenaiApi.

(** ** skills/gemini-dev/scripts/sync-docs.ts *)

Module GeminiDev.

Record DocPage : Type := {
  url : string;
  outputPath : string;
  title : string
}.

(** [markdown.replace(/\n{3,}/g, "\n\n")]: [run] counts the line feeds
    read since the last other character; a maximal run of three or more
    is replaced by two, a shorter one is kept. *)
Fixpoint newlines (n : nat) : string :=
  match n with
  | 0 => EmptyString
  | S n' => String "010"%char (newlines n')
  end.

Definition flush (run : nat) : string :=
  if 3 <=? run then newlines 2 else newlines run.

Fixpoint collapse_go (run : nat) (s : string) : string :=
  match s with
  | EmptyString => flush run
  | String a s' =>
      if Ascii.eqb a "010"%char then collapse_go (S run) s'
      else flush run +:+ String a (collapse_go 0 s')
  end.

Definition collapse_newlines (markdown : string) : string := collapse_go 0 markdown.

Definition frontmatter (title url now : string) : string :=
  "---" +:+ Js.nl +:+
  "title: " +:+ Js.dq +:+ title +:+ Js.dq +:+ Js.nl +:+
  "source: " +:+ Js.dq +:+ url +:+ Js.dq +:+ Js.nl +:+
  "synced: " +:+ Js.dq +:+ now +:+ Js.dq +:+ Js.nl +:+
  "---" +:+ Js.nl +:+ Js.nl.

Section Script.
Context (E : env) (DOC_PAGES : list DocPage).

Definition cleanMarkdown (markdown title url : string) : M string :=
  let cleaned := collapse_newlines markdown in
  let cleaned := Js.trim cleaned in
  do iso <- now E;
  let now := Js.before "T"%char iso in
  ret (frontmatter title url now +:+ cleaned).

(** [fetchPage], cut at its first await: the request leaves when the
    function is called, the rest runs when the answer has come. *)
Definition fetchPage_send (page : DocPage) : M unit := fetch_send (url page).

Definition fetchPage_settle (page : DocPage) : M (DocPage * option string) :=
  try_catch
    (do response <- fetch_settle E (url page);
     if negb (ok response) then
       print ConsoleError
         ("  ✗ Failed to fetch " +:+ url page +:+ ": " +:+ pretty (status response)) ;;
       ret (page, None)
     else
       do html <- text response;
       ret (page, Some html))
    (fun error =>
       print ConsoleError ("  ✗ Failed to fetch " +:+ url page +:+ ": " +:+ error) ;;
       ret (page, None)).

Definition fetchPage (page : DocPage) : M (DocPage * option string) :=
  fetchPage_send page ;; fetchPage_settle page.

(** [await Promise.all(batch.map(fetchPage))]: [map] calls [fetchPage] on
    every page of the batch, so all requests are out before the first
    answer is awaited; the results keep the order of the batch.  (The
    order in which the answers arrive is the runtime's; the model settles
    them in batch order.) *)
Fixpoint send_all (i : nat) (batch : list DocPage) : M unit :=
  match batch with
  | [] => ret tt
  | page :: rest =>
      modify (set_cursor (Some i)) ;; fetchPage_send page ;; send_all (S i) rest
  end.

Fixpoint settle_all (i : nat) (batch : list DocPage) : M (list (DocPage * option string)) :=
  match batch with
  | [] => ret []
  | page :: rest =>
      modify (set_cursor (Some i)) ;;
      do r <- fetchPage_settle page;
      do rs <- settle_all (S i) rest;
      ret (r :: rs)
  end.

Definition promise_all_fetchPage (i : nat) (batch : list DocPage)
  : M (list (DocPage * option string)) :=
  send_all i batch ;; settle_all i batch.

Definition concurrency : nat := 5.

(** [for (let i = 0; i < DOC_PAGES.length; i += concurrency)]; [fuel]
    bounds the number of iterations. *)
Fixpoint fetch_batches (fuel i : nat) : M (list (DocPage * option string)) :=
  match fuel with
  | 0 => ret []
  | S fuel' =>
      if i <? length DOC_PAGES then
        let batch := take concurrency (drop i DOC_PAGES) in
        do batchResults <- promise_all_fetchPage i batch;
        do results <- fetch_batches fuel' (i + concurrency);
        ret (batchResults ++ results)
      else ret []
  end.

(** The body of [for (const { page, html } of results)]. *)
Definition process_result (outputDir : string) (dryRun : bool) (i : nat)
    (r : DocPage * option string) : M unit :=
  let (page, html) := r in
  modify (set_cursor (Some i)) ;;
  match html with
  | None => ret tt
  | Some html =>
      if String.eqb html EmptyString then ret tt
      else
        try_catch
          (do contentHtml <- call (extractMainContent E html);
           do markdown <- call (turndown E contentHtml);
           do cleaned <- cleanMarkdown markdown (title page) (url page);
           let outputPath' := Js.join outputDir (outputPath page) in
           (if dryRun then
              print ConsoleLog ("  ✓ " +:+ outputPath page +:+ " (" +:+
                                pretty (String.length cleaned) +:+ " bytes)")
            else
              mkdir E (Js.dirname outputPath') ;;
              writeFile E outputPath' cleaned ;;
              print ConsoleLog ("  ✓ " +:+ outputPath page)) ;;
           modify (set_fetched S))
          (fun error =>
             print ConsoleError ("  ✗ Failed to process " +:+ url page +:+ ": " +:+ error))
  end.

Definition syncDocs (outputDir : string) (dryRun : bool) : M unit :=
  print ConsoleLog ("Syncing " +:+ pretty (length DOC_PAGES) +:+
                    " documentation pages to " +:+ outputDir +:+ Js.nl) ;;
  (if dryRun then print ConsoleLog ("(dry run - no files will be written)" +:+ Js.nl)
   else ret tt) ;;
  (if dryRun then ret tt
   else mkdir E outputDir ;; mkdir E (Js.join outputDir "multimodal")) ;;
  modify (set_fetched (fun _ => 0)) ;;
  do results <- fetch_batches (length DOC_PAGES) 0;
  for_of (process_result outputDir dryRun) 0 results ;;
  modify (set_cursor None) ;;
  do successCount <- get fetched;
  print ConsoleLog (Js.nl +:+ "Synced " +:+ pretty successCount +:+ "/" +:+
                    pretty (length DOC_PAGES) +:+ " pages").

(** The module's last statement, [await syncDocs(...)], with the parsed
    values of [--output-dir] and [--dry-run]. *)
Definition script (outputDir : string) (dryRun : bool) : state -> Z * state :=
  top_level_await (syncDocs outputDir dryRun).

End Script.
End GeminiDev.

(** ** Initial states and a test environment *)

Definition boot (fs : gmap string string) (m : mfile) : state :=
  State fs ∅ m [] [] None [] 0 0 0.

(** The environment of the examples: every page but [blocked] is served
    with a short markdown document, the file system never fails. *)
Definition sample_doc : string :=
  "# Overview" +:+ Js.nl +:+ Js.nl +:+
  "This page is long enough to be taken for real documentation.".

Definition sample_http (c : option nat) (url : string) : http_result :=
  if Js.includes "blocked" url then Responded (Response 404%Z (Some "Not Found"))
  else Responded (Response 200%Z (Some sample_doc)).

Definition sample_env : env :=
  Env (fun content => "sha256:" +:+ content)
      (fun t => "2026-01-01T00:00:00." +:+ pretty t +:+ "Z")
      sample_http
      (fun _ => None) (fun _ => None) (fun _ => false)
      "/plugin/skills/docs/scripts"
      (fun _ => Some "0123456789abcdef")
      (fun path => if Js.includes "README" path then FileText sample_doc else NoFile)
      Done Done.

(** An environment that differs from [E] in the network only. *)
Definition with_http (E : env) (h : option nat -> string -> http_result) : env :=
  Env (hashContent E) (toISOString E) h (mkdir_fails E) (write_fails E) (dir_exists E)
      (script_dir E) (git E) (tree E) (extractMainContent E) (turndown E).

(** * The vocabulary of the statements

    Predicates on runs, the relations between two runs, the wording of
    the specification where it is compared with the code, and the
    sample inputs of the examples. *)

(** [inv I m]: running [m] keeps [I], whatever the outcome. *)
Definition inv {A} (I : state -> Prop) (m : M A) : Prop :=
  forall s, I s -> I (snd (m s)).

(** [yields Q m]: the outcome of [m] satisfies [Q] from every state. *)
Definition yields {A} (Q : result A -> Prop) (m : M A) : Prop :=
  forall s, Q (fst (m s)).

Definition is_ok {A} (r : result A) : Prop := exists a, r = Ok a.
Definition no_exit {A} (r : result A) : Prop := forall c, r <> Exit c.

(** What [fetchDoc] returns, as a function of the answer of the network. *)
Definition accepted (a : http_result) : option string :=
  match a with
  | Responded (Response code (Some content)) =>
      if (200 <=? code)%Z && (code <=? 299)%Z
         && negb (Js.startsWith "<!DOCTYPE" content || Js.includes "<html" content)
         && (50 <=? String.length content)
      then Some content else None
  | _ => None
  end.

Definition load_warning : chan * string :=
  (ConsoleWarn, "Failed to load manifest, starting fresh").

(** The literals returned when nothing could be loaded: empty
    [lastSync], the configured source, no files. *)
Definition default_manifests : list json :=
  [ClaudeApi.fresh_manifest; ClaudeCode.fresh_manifest;
   OpenaiCodex.fresh_manifest; GeminiCli.fresh_manifest; OpenaiApi.fresh_manifest].

Fixpoint no_newline (s : string) : bool :=
  match s with
  | EmptyString => true
  | String a s' => negb (Ascii.eqb a "010"%char) && no_newline s'
  end.

(** The post-processing in the specification's words: a run of three or
    more blank lines (four or more line feeds in a row) becomes one blank
    line, everything else stays. *)
Definition spec_flush (run : nat) : string :=
  if 4 <=? run then GeminiDev.newlines 2 else GeminiDev.newlines run.

Fixpoint spec_collapse_go (run : nat) (s : string) : string :=
  match s with
  | EmptyString => spec_flush run
  | String a s' =>
      if Ascii.eqb a "010"%char then spec_collapse_go (S run) s'
      else spec_flush run +:+ String a (spec_collapse_go 0 s')
  end.

Definition spec_cleanMarkdown (markdown title url now : string) : string :=
  GeminiDev.frontmatter title url now +:+ Js.trim (spec_collapse_go 0 markdown).

(** An entry builder puts the hash and the time it is given under
    [hash] and [lastUpdated]; the builders of the manifest scripts do. *)
Definition carries (entry : string -> string -> json) : Prop :=
  forall hash time,
    member (Some (entry hash time)) "hash" = Ok (Some (JStr hash)) /\
    member (Some (entry hash time)) "lastUpdated" = Ok (Some (JStr time)).

(** The destination tree of [s] is that of [s0]: the same files, the same
    directories, the same manifest file. *)
Definition same_tree (s0 s : state) : Prop :=
  files s = files s0 /\ dirs s = dirs s0 /\ manifest_file s = manifest_file s0.

(** The file system of the live run accepts every [mkdir] and every
    [writeFile]. *)
Definition healthy (E : env) : Prop :=
  forall path, mkdir_fails E path = None /\ write_fails E path = None.

Definition fetch_log (slug : string) (a : http_result) : list (chan * string) :=
  match a with
  | NetFail e => [(ConsoleError, "  Error fetching " +:+ slug +:+ ": " +:+ e)]
  | Responded r =>
      if negb (ok r) then
        [(ConsoleError, "  Failed to fetch " +:+ slug +:+ ": " +:+ pretty (status r))]
      else
        match body r with
        | None =>
            [(ConsoleError, "  Error fetching " +:+ slug +:+ ": " +:+
                            "TypeError: failed to read the response body")]
        | Some content =>
            if Js.startsWith "<!DOCTYPE" content || Js.includes "<html" content then
              [(ConsoleError, "  " +:+ slug +:+ ": Received HTML instead of markdown")]
            else if String.length content <? 50 then
              [(ConsoleError, "  " +:+ slug +:+ ": Content too short")]
            else []
        end
  end.

Definition fetch_io (c : option nat) (url : string) (a : http_result)
  : list (option nat * io) :=
  match a with
  | NetFail _ => [(c, IoRequest url)]
  | Responded _ => [(c, IoRequest url); (c, IoResponse url)]
  end.

Definition tally (s : state) : nat := fetched s + unchanged s + failed s.

(** [triple P m Q]: from a state in [P], if [m] returns normally the
    final state is in [Q]. *)
Definition triple {A} (P : state -> Prop) (m : M A) (Q : state -> Prop) : Prop :=
  forall s, P s -> forall a, fst (m s) = Ok a -> Q (snd (m s)).

(** [spec P m Q]: from a state in [P], the outcome and the final state of
    [m] are related by [Q]. *)
Definition spec {A} (P : state -> Prop) (m : M A) (Q : result A -> state -> Prop) : Prop :=
  forall s, P s -> Q (fst (m s)) (snd (m s)).

(** A step that returns normally and keeps [I]. *)
Definition passes {A} (I : state -> Prop) (m : M A) : Prop :=
  spec I m (fun r s => is_ok r /\ I s).

(** A parsed value on which [manifest.files[key]] throws: anything but
    an object, an object without [files], or one whose [files] is
    [null]. *)
Inductive not_a_manifest : json -> Prop :=
| shape_null : not_a_manifest JNull
| shape_bool b : not_a_manifest (JBool b)
| shape_num n : not_a_manifest (JNum n)
| shape_str t : not_a_manifest (JStr t)
| shape_arr xs : not_a_manifest (JArr xs)
| shape_no_files fs : obj_get "files" fs = None -> not_a_manifest (JObj fs)
| shape_null_files fs : obj_get "files" fs = Some JNull -> not_a_manifest (JObj fs).

(** What has been printed since [pre] went out is not on [console.log],
    and the manifest file still holds [v]. *)
Definition quiet (v : json) (pre : list (chan * string)) (s : state) : Prop :=
  manifest_file s = MJson v /\
  exists rest, out s = pre ++ rest /\ Forall (fun l => fst l <> ConsoleLog) rest.

Definition rel_res {A B} (V : A -> B -> Prop) (r1 : result A) (r2 : result B) : Prop :=
  match r1, r2 with
  | Ok a, Ok b => V a b
  | Throw e1, Throw e2 => e1 = e2
  | Exit c1, Exit c2 => c1 = c2
  | _, _ => False
  end.

(** [sim P m1 m2 V Q]: from states related by [P], [m1] and [m2] end the
    same way, with values related by [V], in states related by [Q]. *)
Definition sim {A B} (P : state -> state -> Prop) (m1 : M A) (m2 : M B)
    (V : A -> B -> Prop) (Q : state -> state -> Prop) : Prop :=
  forall s1 s2, P s1 s2 ->
    rel_res V (fst (m1 s1)) (fst (m2 s2)) /\ Q (snd (m1 s1)) (snd (m2 s2)).

Definition any {A B} : A -> B -> Prop := fun _ _ => True.

(** What two runs agree on: the resource in flight, the counters, and
    what they have printed since [p1], respectively [p2], went out. *)
Definition agree (p1 p2 : list (chan * string)) (s1 s2 : state) : Prop :=
  cursor s1 = cursor s2 /\
  fetched s1 = fetched s2 /\ unchanged s1 = unchanged s2 /\ failed s1 = failed s2 /\
  exists rest, out s1 = p1 ++ rest /\ out s2 = p2 ++ rest.

(** The two runs also agree on the manifest file, until the live run
    saves. *)
Definition agree_m (p1 p2 : list (chan * string)) (s1 s2 : state) : Prop :=
  agree p1 p2 s1 s2 /\ manifest_file s1 = manifest_file s2.

(** Every action taken for a resource comes before every action taken
    for a resource further down the list. *)
Definition sequential (t : list (option nat * io)) : Prop :=
  forall n m i j a b,
    t !! n = Some (Some i, a) -> t !! m = Some (Some j, b) -> i < j -> n < m.

(** No action of [t] belongs to resource [b] or to a later one. *)
Definition below (b : nat) (t : list (option nat * io)) : Prop :=
  forall n j a, t !! n = Some (Some j, a) -> j < b.

Definition tidy (b : nat) (t : list (option nat * io)) : Prop :=
  sequential t /\ below b t.

(** The resource in flight is the last one allowed by the bound. *)
Definition fits (c : option nat) (b : nat) : Prop :=
  match c with
  | None => True
  | Some i => b = S i
  end.

(** The invariant of a script: the resource in flight and a tidy
    trace. *)
Definition on_track (c : option nat) (b : nat) (s : state) : Prop :=
  cursor s = c /\ fits c b /\ tidy b (trace s).

Definition between (b : nat) (s : state) : Prop := tidy b (trace s).

(** Requests and answers, as opposed to what is done with a page. *)
Definition is_fetch (e : option nat * io) : bool :=
  match snd e with
  | IoRequest _ | IoResponse _ => true
  | _ => false
  end.

(** The trace of [s] is [t0] followed by actions in [P] only. *)
Definition extends (P : option nat * io -> bool) (t0 : list (option nat * io))
    (s : state) : Prop :=
  exists t, trace s = t0 ++ t /\ Forall (fun e => P e = true) t.

(** The trace of a gemini-dev run from [t0]: some actions of set-up,
    then requests and answers only, then none of them any more. *)
Definition fetch_then_process (t0 t : list (option nat * io)) : Prop :=
  exists setup fetches writes,
    t = t0 ++ setup ++ fetches ++ writes /\
    Forall (fun e => is_fetch e = false) setup /\
    Forall (fun e => is_fetch e = true) fetches /\
    Forall (fun e => is_fetch e = false) writes.

(** [always P m Q]: from a state in [P], [m] ends in a state in [Q]
    however it ends. *)
Definition always {A} (P : state -> Prop) (m : M A) (Q : state -> Prop) : Prop :=
  forall s, P s -> Q (snd (m s)).

(** What the gemini-dev script prints before it fetches. *)
Definition gemini_banner (pages : list GeminiDev.DocPage) (outputDir : string)
    (dryRun : bool) : list (chan * string) :=
  (ConsoleLog, "Syncing " +:+ pretty (length pages) +:+
               " documentation pages to " +:+ outputDir +:+ Js.nl)
  :: (if dryRun then [(ConsoleLog, "(dry run - no files will be written)" +:+ Js.nl)]
      else []).

(** What [fetchPage] resolves to for the page at position [i]: the body
    of a 2xx answer, [null] for any other answer, for a body that cannot
    be read and for a request that fails. *)
Definition fetched_html (E : env) (i : nat) (page : GeminiDev.DocPage) : option string :=
  match http E (Some i) (GeminiDev.url page) with
  | Responded r => if ok r then body r else None
  | NetFail _ => None
  end.

(** The pages from position [i] on, each with what [fetchPage] resolves
    to. *)
Fixpoint results_from (E : env) (i : nat) (pages : list GeminiDev.DocPage)
  : list (GeminiDev.DocPage * option string) :=
  match pages with
  | [] => []
  | page :: rest => (page, fetched_html E i page) :: results_from E (S i) rest
  end.

(** The document the gemini-dev script makes, at time [clock], of the
    page at position [i], when the page was fetched and both conversions
    return. *)
Definition document_of (E : env) (clock i : nat) (page : GeminiDev.DocPage)
  : option string :=
  match fetched_html E i page with
  | None => None
  | Some html =>
      match extractMainContent E html with
      | Failed _ => None
      | Done contentHtml =>
          match turndown E contentHtml with
          | Failed _ => None
          | Done markdown =>
              Some (GeminiDev.frontmatter (GeminiDev.title page) (GeminiDev.url page)
                      (Js.before "T"%char (toISOString E clock)) +:+
                    Js.trim (GeminiDev.collapse_newlines markdown))
          end
      end
  end.

(** A line of the gemini-dev preview against the line of the live run:
    the same line, or, for a configured page, the success line of the
    live run with the length of the page's document added. *)
Definition preview_line (E : env) (pages : list GeminiDev.DocPage) (clock : nat)
    (l1 l2 : chan * string) : Prop :=
  l1 = l2 \/
  exists (i : nat) (page : GeminiDev.DocPage) (document : string),
    pages !! i = Some page /\ document_of E clock i page = Some document /\
    l1 = (ConsoleLog, "  ✓ " +:+ GeminiDev.outputPath page +:+ " (" +:+
                      pretty (String.length document) +:+ " bytes)") /\
    l2 = (ConsoleLog, "  ✓ " +:+ GeminiDev.outputPath page).

(** While the pages are processed, the preview [s1] and the live run
    [s2] agree on the page in flight and on [successCount]; the clock of
    the preview stands at [clock]; and what they have printed since
    [p1], respectively [p2], went out corresponds line by line in the
    sense of [preview_line]. *)
Definition agree_g (E : env) (pages : list GeminiDev.DocPage) (clock : nat)
    (p1 p2 : list (chan * string)) (s1 s2 : state) : Prop :=
  cursor s1 = cursor s2 /\ fetched s1 = fetched s2 /\
  length (trace s1) = clock /\
  exists rest1 rest2,
    out s1 = p1 ++ rest1 /\ out s2 = p2 ++ rest2 /\
    Forall2 (preview_line E pages clock) rest1 rest2.

(** A step that returns normally and touches neither the page in
    flight, nor the count, nor the console. *)
Definition unseen {A} (m : M A) : Prop :=
  forall s, is_ok (fst (m s)) /\ cursor (snd (m s)) = cursor s /\
            fetched (snd (m s)) = fetched s /\ out (snd (m s)) = out s.

Definition gemini_summary (pages : list GeminiDev.DocPage) (successCount : nat)
  : chan * string :=
  (ConsoleLog, Js.nl +:+ "Synced " +:+ pretty successCount +:+ "/" +:+
               pretty (length pages) +:+ " pages").

(** What a preview [r1] and a live run [r2] from the same state [s] have
    in common: both runs end the same way, with the same counters, and
    after their banners ([b1], [b2]: they differ in the [Mode:] line)
    they print the same. *)
Definition preview_matches (b1 b2 : list string) (s : state)
    (r1 r2 : result unit * state) : Prop :=
  fst r1 = fst r2 /\
  fetched (snd r1) = fetched (snd r2) /\
  unchanged (snd r1) = unchanged (snd r2) /\
  failed (snd r1) = failed (snd r2) /\
  exists rest,
    out (snd r1) = (out s ++ map (pair ConsoleLog) b1) ++ rest /\
    out (snd r2) = (out s ++ map (pair ConsoleLog) b2) ++ rest.

(** A preview of a repository script from [s0]: the destination files
    and the manifest file are as in [s0], and a directory made or
    rewritten since [s0] is one of the clones [temps]. *)
Definition only_clones (temps : list string) (s0 s : state) : Prop :=
  files s = files s0 /\ manifest_file s = manifest_file s0 /\
  forall d, d ∈ dirs s -> d ∈ dirs s0 \/ In d temps.

(** ** Change detection in the words of the specification *)

(** The previous manifest knows the content: its [files] table has a
    truthy entry under [key] whose [hash] is the hash of [content]. *)
Definition known (E : env) (table : list (string * json)) (key content : string) : Prop :=
  truthy (obj_get key table) = true /\
  member (obj_get key table) "hash" = Ok (Some (JStr (hashContent E content))).

(** Actions that change the destination tree. *)
Definition is_write (e : option nat * io) : bool :=
  match snd e with
  | IoMkdir _ | IoWrite _ => true
  | _ => false
  end.

(** What the write of a resource does, in order. *)
Definition store_io (ensureDir : bool) (destPath : string) : list io :=
  (if ensureDir then [IoMkdir (Js.dirname destPath)] else []) ++ [IoWrite destPath].

(** What processing a resource whose [content] was obtained must have
    done between [s] and [s'], [table] being the [files] table of the
    previous manifest, [key] the key of the resource, [destPath] its
    destination and [progress] the progress line printed for it. *)
Definition change_detected (E : env) (isDryRun : bool) (table : list (string * json))
    (key content destPath progress : string) (s s' : state) : Prop :=
  let hash := hashContent E content in
  let oldEntry := obj_get key table in
  failed s' = failed s /\
  manifest_file s' = manifest_file s /\
  (forall k, k <> key -> obj_get k (newFiles s') = obj_get k (newFiles s)) /\
  (forall path, path <> destPath -> files s' !! path = files s !! path) /\
  (exists t,
     trace s' = trace s ++ t /\
     (known E table key content \/ isDryRun = true ->
      Forall (fun e => is_write e = false) t) /\
     (~ known E table key content -> isDryRun = false ->
      In (IoWrite destPath) (map snd t))) /\
  (known E table key content ->
     out s' = out s ++ [(StdoutWrite, progress); (ConsoleLog, " unchanged")] /\
     unchanged s' = S (unchanged s) /\ fetched s' = fetched s /\
     files s' = files s /\
     obj_get key (newFiles s') = oldEntry) /\
  (~ known E table key content ->
     out s' = out s ++ [(StdoutWrite, progress);
                        (ConsoleLog, if truthy oldEntry then " updated" else " new")] /\
     fetched s' = S (fetched s) /\ unchanged s' = unchanged s /\
     files s' = (if isDryRun then files s else <[destPath := content]> (files s)) /\
     exists fresh t,
       obj_get key (newFiles s') = Some fresh /\
       member (Some fresh) "hash" = Ok (Some (JStr hash)) /\
       member (Some fresh) "lastUpdated" = Ok (Some (JStr (toISOString E t))) /\
       length (trace s) <= t <= length (trace s')).

(** ** Exit status in the words of the specification *)

(** How a script whose last line is [main().catch(console.error)] ends
    when [main] has ended with [main_result] without calling
    [process.exit]: with status zero, and, when [main] has rejected, with
    the error as the last line printed, on [console.error]. *)
Definition ends_normally (main_result : result unit * state) (r : Z * state) : Prop :=
  fst r = 0%Z /\
  match fst main_result with
  | Ok _ => snd r = snd main_result
  | Throw e => snd r = set_out (fun o => o ++ [(ConsoleError, e)]) (snd main_result)
  | Exit _ => False
  end.

(** The run from [s] has stopped before its resources: all it has done
    is [done] (no resource was requested, read or written), the
    destination files and the manifest file are as in [s], and the last
    line printed is a [complaint] on [console.error]. *)
Definition stopped_at (done : list io) (complaint : string) (s s' : state) : Prop :=
  trace s' = trace s ++ map (pair (cursor s)) done /\
  files s' = files s /\ manifest_file s' = manifest_file s /\
  exists error, last (out s') = Some (ConsoleError, complaint +:+ error).

(** ** Processing order in the words of the specification *)

(** Actions that belong to no resource: making directories, the [git]
    commands, and reading and writing the manifest file. *)
Definition orchestration (E : env) (a : io) : Prop :=
  match a with
  | IoMkdir _ | IoGit _ => True
  | IoRead path | IoWrite path => path = MANIFEST_FILE E
  | _ => False
  end.

(** What a script may do for a page it fetches from [url] and stores at
    [dest], and for a file it copies from [source] to [dest]. *)
Definition page_actions (url dest : string) (pause : nat) : list io :=
  [IoRequest url; IoResponse url; IoMkdir (Js.dirname dest); IoWrite dest; IoSleep pause].

Definition file_actions (source dest : string) : list io :=
  [IoRead source; IoMkdir (Js.dirname dest); IoWrite dest].

(** The resources of each manifest script, in the order of its
    configured list, each with the actions that belong to it. *)
Definition claude_api_resources (E : env) (pages : list ClaudeApi.DocPage) : list (list io) :=
  map (fun page =>
         page_actions (ClaudeApi.BASE_URL +:+ "/" +:+ ClaudeApi.slug page +:+ ".md")
                      (Js.join (RESOURCES_DIR E) (ClaudeApi.outputPath page)) 150)
      pages.

Definition claude_code_resources (E : env) (pages : list ClaudeCode.DocPage) : list (list io) :=
  map (fun page =>
         [IoRequest (ClaudeCode.BASE_URL +:+ "/" +:+ ClaudeCode.slug page +:+ ".md");
          IoResponse (ClaudeCode.BASE_URL +:+ "/" +:+ ClaudeCode.slug page +:+ ".md");
          IoWrite (Js.join (RESOURCES_DIR E) (ClaudeCode.slug page +:+ ".md"));
          IoSleep 200])
      pages ++
  [[IoRequest ClaudeCode.changelogUrl; IoResponse ClaudeCode.changelogUrl;
    IoWrite (Js.join (RESOURCES_DIR E) "changelog.md")]].

Definition openai_codex_resources (E : env) (docs : list OpenaiCodex.Doc) : list (list io) :=
  map (fun doc =>
         file_actions (Js.join OpenaiCodex.TEMP_DIR (OpenaiCodex.src doc))
                      (Js.join (RESOURCES_DIR E) (OpenaiCodex.dest doc)))
      docs.

Definition gemini_cli_resources (E : env) (docs : list string) : list (list io) :=
  map (fun docPath =>
         file_actions (Js.join (Js.join GeminiCli.TEMP_DIR "docs") docPath)
                      (Js.join (RESOURCES_DIR E) docPath))
      docs.

Definition openai_api_resources (E : env) (sdk cookbook : list OpenaiApi.Doc)
  : list (list io) :=
  map (fun doc =>
         file_actions (Js.join OpenaiApi.SDK_TEMP (OpenaiApi.src doc))
                      (Js.join (RESOURCES_DIR E) (OpenaiApi.dest doc)))
      sdk ++
  map (fun doc =>
         file_actions (Js.join OpenaiApi.COOKBOOK_TEMP (OpenaiApi.src doc))
                      (Js.join (RESOURCES_DIR E) (OpenaiApi.dest doc)))
      cookbook.

(** An action is where it belongs: under the position of a resource, it
    is one of the actions of that resource; under no position, it is
    orchestration. *)
Definition in_place (E : env) (resources : list (list io)) (e : option nat * io) : Prop :=
  match fst e with
  | Some i => exists acts, resources !! i = Some acts /\ In (snd e) acts
  | None => orchestration E (snd e)
  end.

(** The trace [t] processes [resources] one at a time in list order:
    every action is in place, and every action of a resource comes
    before every action of a resource further down the list. *)
Definition one_at_a_time (E : env) (resources : list (list io))
    (t : list (option nat * io)) : Prop :=
  sequential t /\ Forall (in_place E resources) t.

(** The invariant behind [one_at_a_time]: the resource in flight is [c]
    and every action taken so far is in place. *)
Definition placed (E : env) (resources : list (list io)) (c : option nat) (s : state)
  : Prop :=
  cursor s = c /\ Forall (in_place E resources) (trace s).

(** The answers to the requests of a batch, in the order of the batch;
    a request that fails has none. *)
Fixpoint answers (E : env) (i : nat) (batch : list GeminiDev.DocPage)
  : list (option nat * io) :=
  match batch with
  | [] => []
  | page :: rest =>
      match http E (Some i) (GeminiDev.url page) with
      | Responded _ => [(Some i, IoResponse (GeminiDev.url page))]
      | NetFail _ => []
      end ++ answers E (S i) rest
  end.

(** One batch that starts at position [i]: the requests for all its
    pages, in list order, then the answers. *)
Definition batch_io (E : env) (i : nat) (batch : list GeminiDev.DocPage)
  : list (option nat * io) :=
  imap (fun k page => (Some (i + k), IoRequest (GeminiDev.url page))) batch ++
  answers E i batch.

(** The pages from position [i] on, fetched five at a time; [fuel]
    bounds the number of batches. *)
Fixpoint batches_of_five (E : env) (fuel i : nat) (pages : list GeminiDev.DocPage)
  : list (option nat * io) :=
  match fuel with
  | 0 => []
  | S fuel' =>
      match pages with
      | [] => []
      | _ :: _ => batch_io E i (take 5 pages) ++ batches_of_five E fuel' (i + 5) (drop 5 pages)
      end
  end.

(** The trace of a gemini-dev run [r] from a trace [t0]: some actions of
    set-up, none of them a request or an answer; then, if the run
    returns, the batches of five over all pages, followed by actions
    none of which is a request or an answer. *)
Definition fetches_in_batches (E : env) (pages : list GeminiDev.DocPage)
    (t0 : list (option nat * io)) (r : result unit * state) : Prop :=
  exists setup writes,
    Forall (fun e => is_fetch e = false) setup /\
    Forall (fun e => is_fetch e = false) writes /\
    trace (snd r) =
      t0 ++ setup ++
      match fst r with
      | Ok _ => batches_of_five E (length pages) 0 pages ++ writes
      | _ => []
      end.

(** ** Counting pages and reading the saved manifest *)

(** Whether the page at position [i] gets through the processing loop
    of [syncDocs]: it was fetched with a body that is not empty, both
    conversions return, and, in a live run, its directory is made and
    its file is written. *)
Definition converts (E : env) (outputDir : string) (dryRun : bool)
    (i : nat) (page : GeminiDev.DocPage) : bool :=
  match fetched_html E i page with
  | None => false
  | Some html =>
      negb (String.eqb html EmptyString) &&
      match extractMainContent E html with
      | Failed _ => false
      | Done contentHtml =>
          match turndown E contentHtml with
          | Failed _ => false
          | Done _ =>
              dryRun ||
              match mkdir_fails E (Js.dirname (Js.join outputDir (GeminiDev.outputPath page))),
                    write_fails E (Js.join outputDir (GeminiDev.outputPath page)) with
              | None, None => true
              | _, _ => false
              end
          end
      end
  end.

(** The number of positions from [i] on at which [f] holds. *)
Fixpoint count_from {A} (f : nat -> A -> bool) (i : nat) (xs : list A) : nat :=
  match xs with
  | [] => 0
  | x :: xs' => (if f i x then 1 else 0) + count_from f (S i) xs'
  end.

(** A parsed value on which [manifest.files[key]] is defined for every
    key: it has a member [files], and that member is not [null]. *)
Definition manifest_shaped (v : json) : Prop :=
  exists table, member (Some v) "files" = Ok (Some table) /\ table <> JNull.

(** A manifest file a run can start from: none, one that cannot be
    loaded, or one that holds a manifest-shaped value. *)
Definition usable (m : mfile) : Prop :=
  match m with
  | MJson v => manifest_shaped v
  | _ => True
  end.

(** What [fetchDoc] returns for the page at position [i] of the
    claude-api list. *)
Definition served (E : env) (i : nat) (page : ClaudeApi.DocPage) : option string :=
  accepted (http E (Some i)
              (ClaudeApi.BASE_URL +:+ "/" +:+ ClaudeApi.slug page +:+ ".md")).

(** The table [files] of a manifest records the pages as they are served
    up to position [n]: under the key of a page that [fetchDoc] accepts
    there is an entry that the comparison of the script takes for the
    hash of its content, under the key of a page that it refuses there
    is none, and there is no other key. *)
Definition records_upto (E : env) (pages : list ClaudeApi.DocPage) (n : nat)
    (table : list (string * json)) : Prop :=
  (forall j page, j < n -> pages !! j = Some page ->
     match served E j page with
     | Some content =>
         exists e, obj_get (ClaudeApi.outputPath page) table = Some e /\
                   same_hash (Some e) (hashContent E content) = true
     | None => obj_get (ClaudeApi.outputPath page) table = None
     end) /\
  (forall key, obj_get key table <> None ->
     exists j page, j < n /\ pages !! j = Some page /\ ClaudeApi.outputPath page = key).

Definition records (E : env) (pages : list ClaudeApi.DocPage)
    (table : list (string * json)) : Prop :=
  records_upto E pages (length pages) table.

(** Whether [fetchDoc] accepts the page at position [i]. *)
Definition is_served (E : env) (i : nat) (page : ClaudeApi.DocPage) : bool :=
  match served E i page with Some _ => true | None => false end.

(** ** Sample inputs *)

(** A markdown page that quotes an HTML tag in its text. *)
Definition sample_quote : string :=
  "# Page structure" +:+ Js.nl +:+ Js.nl +:+
  "Every document starts with the `<html>` element, followed by its head.".

Definition sample_page : GeminiDev.DocPage :=
  {| GeminiDev.url := "https://ai.google.dev/gemini-api/docs/models";
     GeminiDev.outputPath := "models.md";
     GeminiDev.title := "Gemini Models Overview" |}.

Definition two_blank_lines : string := "a" +:+ GeminiDev.newlines 3 +:+ "b".

Definition intro_page : ClaudeApi.DocPage :=
  {| ClaudeApi.slug := "intro"; ClaudeApi.outputPath := "intro.md";
     ClaudeApi.title := "Introduction";
     ClaudeApi.description := "Introduction to Claude API" |}.

Definition intro_path : string := "/plugin/skills/docs/resources/intro.md".

Definition overview_page : ClaudeCode.DocPage :=
  {| ClaudeCode.slug := "overview"; ClaudeCode.title := "Overview";
     ClaudeCode.description := "What Claude Code is" |}.

(** [sample_env] with the changelog answered by 404. *)
Definition changelog_down : env :=
  with_http sample_env (fun c url =>
    if String.eqb url ClaudeCode.changelogUrl
    then Responded (Response 404%Z (Some "404: Not Found"))
    else sample_http c url).

(** [sample_env] on a file system that refuses to create directories. *)
Definition read_only_env : env :=
  Env (hashContent sample_env) (toISOString sample_env) (http sample_env)
      (fun _ => Some "EROFS: read-only file system") (write_fails sample_env)
      (dir_exists sample_env) (script_dir sample_env) (git sample_env) (tree sample_env)
      (extractMainContent sample_env) (turndown sample_env).

Definition text_generation_page : GeminiDev.DocPage :=
  {| GeminiDev.url := "https://ai.google.dev/gemini-api/docs/text-generation";
     GeminiDev.outputPath := "text-generation.md";
     GeminiDev.title := "Text Generation" |}.

(** A previous manifest of the claude-api script whose entry for the
    introduction page holds [hash]. *)
Definition intro_entry (hash : string) : json :=
  JObj [("slug", JStr "intro"); ("title", JStr "Introduction");
        ("description", JStr "Introduction to Claude API"); ("hash", JStr hash);
        ("lastUpdated", JStr "2025-12-01T08:00:00.000Z");
        ("sourceUrl", JStr "https://platform.claude.com/docs/en/intro")].

Definition intro_table (hash : string) : list (string * json) :=
  [("intro.md", intro_entry hash)].

Definition intro_manifest (hash : string) : json :=
  JObj [("lastSync", JStr "2025-12-01T08:00:05.000Z");
        ("baseUrl", JStr ClaudeApi.BASE_URL);
        ("files", JObj (intro_table hash))].

(** [sample_env] without access to the repositories: every [git]
    command fails. *)
Definition offline_env : env :=
  Env (hashContent sample_env) (toISOString sample_env) (http sample_env)
      (mkdir_fails sample_env) (write_fails sample_env)
      (dir_exists sample_env) (script_dir sample_env) (fun _ => None) (tree sample_env)
      (extractMainContent sample_env) (turndown sample_env).

Definition readme_doc : OpenaiCodex.Doc :=
  {| OpenaiCodex.src := "README.md"; OpenaiCodex.dest := "README.md" |}.

(** A page of the Gemini documentation as the site serves it, the inner
    HTML of its [<main>] element, and the markdown [turndown] makes of
    it. *)
Definition models_html : string :=
  "<!DOCTYPE html><html><head><title>Gemini models</title></head><body>" +:+
  "<nav>Docs</nav><main><h1>Gemini models</h1>" +:+
  "<p>Gemini 2.5 Pro is our most capable model.</p></main></body></html>".

Definition models_main : string :=
  "<h1>Gemini models</h1><p>Gemini 2.5 Pro is our most capable model.</p>".

Definition models_markdown : string :=
  "# Gemini models" +:+ Js.nl +:+ Js.nl +:+ "Gemini 2.5 Pro is our most capable model.".

(** An environment in which the documentation site answers every request
    but those for [blocked] with that page, which [linkedom] and
    [turndown] convert; the examples convert no other text.  The file
    system never fails. *)
Definition html_env : env :=
  Env (hashContent sample_env) (toISOString sample_env)
      (fun _ url =>
         if Js.includes "blocked" url then Responded (Response 404%Z (Some "Not Found"))
         else Responded (Response 200%Z (Some models_html)))
      (fun _ => None) (fun _ => None) (fun _ => false)
      (script_dir sample_env) (git sample_env) (tree sample_env)
      (fun html =>
         if String.eqb html models_html then Done models_main
         else Failed "TypeError: null is not an object")
      (fun contentHtml =>
         if String.eqb contentHtml models_main then Done models_markdown
         else Failed "TypeError: input is not a string").

(** A page the sample network does not serve. *)
Definition blocked_page : GeminiDev.DocPage :=
  {| GeminiDev.url := "https://ai.google.dev/gemini-api/docs/blocked";
     GeminiDev.outputPath := "blocked.md";
     GeminiDev.title := "Blocked" |}.

(** * Reasoning principles *)

Section Rules.
Context {A B : Type} (I : state -> Prop).

Lemma inv_ret (a : A) : inv I (ret a).
Proof. intros s H. exact H. Qed.

Lemma inv_throw (e : string) : inv I (@throw A e).
Proof. intros s H. exact H. Qed.

Lemma inv_process_exit (c : Z) : inv I (@process_exit A c).
Proof. intros s H. exact H. Qed.

Lemma inv_lift (r : result A) : inv I (lift r).
Proof. intros s H. exact H. Qed.

Lemma inv_get (f : state -> A) : inv I (get f).
Proof. intros s H. exact H. Qed.

Lemma inv_bind (m : M A) (k : A -> M B) :
  inv I m -> (forall a, inv I (k a)) -> inv I (bind m k).
Proof.
  intros Hm Hk s H. unfold bind. specialize (Hm s H).
  destruct (m s) as [[a|e|c] s']; simpl in *; auto. apply Hk, Hm.
Qed.

Lemma inv_try_catch (m : M A) (h : string -> M A) :
  inv I m -> (forall e, inv I (h e)) -> inv I (try_catch m h).
Proof.
  intros Hm Hh s H. unfold try_catch. specialize (Hm s H).
  destruct (m s) as [[a|e|c] s']; simpl in *; auto. apply Hh, Hm.
Qed.

Lemma inv_modify (f : state -> state) :
  (forall s, I s -> I (f s)) -> inv I (modify f).
Proof. intros Hf s H. apply Hf, H. Qed.

Lemma inv_for_of (body : nat -> A -> M unit) (xs : list A) :
  (forall i x, inv I (body i x)) -> forall i, inv I (for_of body i xs).
Proof.
  intros Hb. induction xs as [|x xs IH]; intros i; simpl.
  - intros s H. exact H.
  - unfold inv, bind in *. intros s H. specialize (Hb i x s H).
    destruct (body i x s) as [[a|e|c] s']; simpl in *; auto.
Qed.

End Rules.

Section Outcomes.
Context {A B : Type}.

Lemma ok_bind (m : M A) (k : A -> M B) :
  yields is_ok m -> (forall a, yields is_ok (k a)) -> yields is_ok (bind m k).
Proof.
  intros Hm Hk s. unfold bind. destruct (Hm s) as [a Ha].
  destruct (m s) as [r s']; simpl in *; subst r. apply Hk.
Qed.

Lemma ok_try_catch (m : M A) (h : string -> M A) :
  yields no_exit m -> (forall e, yields is_ok (h e)) -> yields is_ok (try_catch m h).
Proof.
  intros Hm Hh s. unfold try_catch. specialize (Hm s).
  destruct (m s) as [[a|e|c] s']; simpl in *.
  - exists a; reflexivity.
  - apply Hh.
  - exfalso. exact (Hm c eq_refl).
Qed.

Lemma ok_no_exit (m : M A) : yields is_ok m -> yields no_exit m.
Proof. intros H s c Hc. destruct (H s) as [a Ha]. congruence. Qed.

Lemma no_exit_bind (m : M A) (k : A -> M B) :
  yields no_exit m -> (forall a, yields no_exit (k a)) -> yields no_exit (bind m k).
Proof.
  intros Hm Hk s. unfold bind. specialize (Hm s).
  destruct (m s) as [[a|e|c] s']; simpl in *.
  - apply Hk.
  - intros c; discriminate.
  - exfalso. exact (Hm c eq_refl).
Qed.

Lemma no_exit_try_catch (m : M A) (h : string -> M A) :
  yields no_exit m -> (forall e, yields no_exit (h e)) -> yields no_exit (try_catch m h).
Proof.
  intros Hm Hh s. unfold try_catch. specialize (Hm s).
  destruct (m s) as [[a|e|c] s']; simpl in *.
  - intros c; discriminate.
  - apply Hh.
  - exact Hm.
Qed.

End Outcomes.

Lemma no_exit_for_of {A} (body : nat -> A -> M unit) (xs : list A) :
  (forall i x, yields no_exit (body i x)) -> forall i, yields no_exit (for_of body i xs).
Proof.
  intros Hb. induction xs as [|x xs IH]; intros i; simpl.
  - intros s c; discriminate.
  - apply no_exit_bind; [apply Hb | intros _; apply IH].
Qed.

Lemma ok_for_of {A} (body : nat -> A -> M unit) (xs : list A) :
  (forall i x, yields is_ok (body i x)) -> forall i, yields is_ok (for_of body i xs).
Proof.
  intros Hb. induction xs as [|x xs IH]; intros i; simpl.
  - intros s. exists tt; reflexivity.
  - apply ok_bind; [apply Hb | intros _; apply IH].
Qed.

(** * The direct-URL fetch *)

Ltac run :=
  repeat
    (cbv beta iota delta
       [bind ret throw process_exit try_catch lift modify get print record now
        fetch fetch_send fetch_settle text sleep
        set_files set_dirs set_manifest_file set_out set_trace set_cursor
        set_newFiles set_fetched set_unchanged set_failed];
     cbn [fst snd cursor trace out files dirs manifest_file newFiles
          fetched unchanged failed]).

(** States built by several setters in a row. *)
Ltac settle :=
  cbn [set_files set_dirs set_manifest_file set_out set_trace set_cursor
       set_newFiles set_fetched set_unchanged set_failed
       fst snd cursor trace out files dirs manifest_file newFiles
       fetched unchanged failed].

Lemma ok_spec (r : response) : ok r = true <-> (200 <= status r <= 299)%Z.
Proof. unfold ok. rewrite andb_true_iff, !Z.leb_le. tauto. Qed.

Lemma fetchDoc_result (E : env) (BASE_URL slug : string) (s : state) :
  fst (fetchDoc E BASE_URL slug s) =
  Ok (accepted (http E (cursor s) (BASE_URL +:+ "/" +:+ slug +:+ ".md"))).
Proof.
  unfold fetchDoc, accepted. run.
  destruct (http E (cursor s) _) as [e|[code b]]; [reflexivity|].
  unfold ok; cbn [status body].
  destruct ((200 <=? code)%Z && (code <=? 299)%Z); cbn [negb andb];
    [|destruct b; reflexivity].
  destruct b as [content|]; run; [|reflexivity].
  destruct (Js.startsWith "<!DOCTYPE" content || Js.includes "<html" content);
    cbn [negb andb]; try reflexivity.
  rewrite Nat.ltb_antisym.
  destruct (50 <=? String.length content); reflexivity.
Qed.

(** C6. [fetchDoc] never throws; it returns the body exactly when the
    response is 2xx, the body neither starts with [<!DOCTYPE] nor contains
    [<html], and the body has at least 50 characters; otherwise (other
    status, HTML-looking or short body, unreadable body, network failure)
    it returns [null]. *)
Theorem fetchDoc_contract (E : env) (BASE_URL slug : string) (s : state) :
  exists r, fst (fetchDoc E BASE_URL slug s) = Ok r /\
    forall content, r = Some content <->
      exists code,
        http E (cursor s) (BASE_URL +:+ "/" +:+ slug +:+ ".md")
          = Responded (Response code (Some content)) /\
        (200 <= code <= 299)%Z /\
        Js.startsWith "<!DOCTYPE" content = false /\
        Js.includes "<html" content = false /\
        50 <= String.length content.
Proof.
  eexists. split; [apply fetchDoc_result|].
  intros content. unfold accepted.
  destruct (http E (cursor s) _) as [e|[code [b|]]].
  - split; [discriminate | intros (c & H & _); discriminate].
  - destruct ((200 <=? code)%Z && (code <=? 299)%Z) eqn:Hok; cbn [negb andb].
    + destruct (Js.startsWith "<!DOCTYPE" b || Js.includes "<html" b) eqn:Hhtml;
        cbn [negb andb].
      * split; [discriminate|]. intros (c & H & _ & H1 & H2 & _).
        inversion H; subst. rewrite H1, H2 in Hhtml. discriminate.
      * destruct (50 <=? String.length b) eqn:Hlen.
        -- split.
           ++ intros [= ->]. exists code. apply orb_false_iff in Hhtml as [H1 H2].
              apply andb_true_iff in Hok as [Ha Hb].
              apply Z.leb_le in Ha, Hb. apply Nat.leb_le in Hlen. auto.
           ++ intros (c & H & _). inversion H; subst. reflexivity.
        -- split; [discriminate|]. intros (c & H & _ & _ & _ & H3).
           inversion H; subst. apply Nat.leb_le in H3. congruence.
    + split; [discriminate|]. intros (c & H & [Ha Hb] & _).
      inversion H; subst. apply Z.leb_le in Ha, Hb. rewrite Ha, Hb in Hok. discriminate.
  - split; [discriminate | intros (c & H & _); discriminate].
Qed.

(** C9. The HTML check of [fetchDoc] is a substring test: [sample_quote],
    a markdown page of more than 50 characters that quotes the [<html]
    tag in its text and does not begin like an HTML page, is answered
    with [null] whatever else the network serves, and the resource is
    counted as failed by the resource loop. *)
Theorem html_substring_rejects_markdown :
  50 <= String.length sample_quote /\
  Js.startsWith "<!DOCTYPE" sample_quote = false /\
  Js.startsWith "<html" sample_quote = false /\
  Js.includes "<html" sample_quote = true /\
  forall (E : env) (slug : string) (s : state) (dry : bool) (manifest : json)
         (i : nat) (page : ClaudeApi.DocPage),
    let E' := with_http E (fun _ _ => Responded (Response 200%Z (Some sample_quote))) in
    fst (fetchDoc E' ClaudeApi.BASE_URL slug s) = Ok None /\
    let r := ClaudeApi.loop_body E' dry manifest i page s in
    fst r = Ok tt /\
    failed (snd r) = S (failed s) /\
    fetched (snd r) = fetched s /\ unchanged (snd r) = unchanged s /\
    newFiles (snd r) = newFiles s /\ files (snd r) = files s.
Proof.
  repeat split; try reflexivity.
  vm_compute. lia.
Qed.

(** * Loading the manifest *)

Lemma loadManifest_eq (E : env) (fresh : json) (s : state) :
  loadManifest E fresh s =
  match manifest_file s with
  | MAbsent => (Ok fresh, s)
  | MUnreadable _ | MCorrupt _ =>
      (Ok fresh,
       set_out (fun o => o ++ [load_warning])
         (set_trace (fun t => t ++ [(cursor s, IoRead (MANIFEST_FILE E))]) s))
  | MJson v =>
      (Ok v, set_trace (fun t => t ++ [(cursor s, IoRead (MANIFEST_FILE E))]) s)
  end.
Proof.
  destruct s as [f d m o t c n a b x]. destruct m; reflexivity.
Qed.

(** C5, as amended.  [loadManifest] never throws.  When the manifest
    file is absent it returns the default manifest and prints nothing;
    when the file is there but cannot be read or parsed it returns the
    default manifest after one warning; a file that parses is returned as
    parsed.  The destination tree is not touched. *)
Theorem loadManifest_never_raises (E : env) (fresh : json) (s : state) :
  let r := loadManifest E fresh s in
  (exists v, fst r = Ok v) /\
  files (snd r) = files s /\ manifest_file (snd r) = manifest_file s /\
  match manifest_file s with
  | MAbsent => r = (Ok fresh, s)
  | MUnreadable _ | MCorrupt _ =>
      fst r = Ok fresh /\ out (snd r) = out s ++ [load_warning]
  | MJson v => fst r = Ok v /\ out (snd r) = out s
  end /\
  Forall (fun m => member (Some m) "lastSync" = Ok (Some (JStr EmptyString)) /\
                   member (Some m) "files" = Ok (Some (JObj [])))
         default_manifests.
Proof.
  cbv zeta. rewrite loadManifest_eq.
  destruct s as [f d m o t c n a b x]; destruct m; cbn;
    (split; [eexists; reflexivity|]); repeat split; repeat constructor.
Qed.

(** C5, as stated, fails for an absent file: nothing is printed. *)
Lemma loadManifest_absent_is_silent :
  let r := loadManifest sample_env ClaudeApi.fresh_manifest (boot ∅ MAbsent) in
  fst r = Ok ClaudeApi.fresh_manifest /\
  ~ In load_warning (out (snd r)) /\ out (snd r) = [].
Proof. vm_compute. intuition. Qed.

(** * Markdown post-processing *)

Section Collapse.
Import GeminiDev.

Lemma append_assoc (a b c : string) : (a +:+ b) +:+ c = a +:+ (b +:+ c).
Proof.
  induction a as [|x a IH]; [reflexivity|].
  change (String x ((a +:+ b) +:+ c) = String x (a +:+ (b +:+ c))).
  now rewrite IH.
Qed.

Lemma flush_min (k : nat) : flush k = newlines (Nat.min k 2).
Proof.
  unfold flush. destruct (Nat.leb_spec 3 k) as [H|H].
  - now rewrite Nat.min_r by lia.
  - now rewrite Nat.min_l by lia.
Qed.

Lemma collapse_go_newlines (k r : nat) (s : string) :
  collapse_go r (newlines k +:+ s) = collapse_go (k + r) s.
Proof.
  revert r. induction k as [|k IH]; intros r; simpl; [reflexivity|].
  rewrite IH. f_equal. lia.
Qed.

Lemma collapse_go_text (t s : string) :
  no_newline t = true -> collapse_go 0 (t +:+ s) = t +:+ collapse_go 0 s.
Proof.
  induction t as [|a t IH]; simpl; intros H; [reflexivity|].
  apply andb_true_iff in H as [Ha Ht].
  destruct (Ascii.eqb a "010"%char); [discriminate|].
  simpl. now rewrite IH.
Qed.

Lemma collapse_run (t : string) (k : nat) (a : ascii) (rest : string) :
  no_newline t = true -> Ascii.eqb a "010"%char = false ->
  collapse_newlines (t +:+ newlines k +:+ String a rest) =
  t +:+ newlines (Nat.min k 2) +:+ collapse_newlines (String a rest).
Proof.
  intros Ht Ha. unfold collapse_newlines.
  rewrite collapse_go_text by exact Ht.
  rewrite collapse_go_newlines. simpl. rewrite Ha, Nat.add_0_r.
  now rewrite flush_min.
Qed.

Lemma collapse_last_run (t : string) (k : nat) :
  no_newline t = true ->
  collapse_newlines (t +:+ newlines k) = t +:+ newlines (Nat.min k 2).
Proof.
  intros Ht. unfold collapse_newlines.
  rewrite collapse_go_text by exact Ht.
  replace (newlines k) with (newlines k +:+ EmptyString).
  - rewrite collapse_go_newlines. simpl. rewrite Nat.add_0_r. now rewrite flush_min.
  - clear. induction k as [|k IH]; [reflexivity|].
    change (String "010"%char (newlines k +:+ EmptyString) = String "010"%char (newlines k)).
    now rewrite IH.
Qed.

End Collapse.

Lemma cleanMarkdown_eq (E : env) (markdown title url : string) (s : state) :
  GeminiDev.cleanMarkdown E markdown title url s =
  (Ok (GeminiDev.frontmatter title url
         (Js.before "T"%char (toISOString E (length (trace s)))) +:+
       Js.trim (GeminiDev.collapse_newlines markdown)), s).
Proof. reflexivity. Qed.

(** C8, as amended.  The document written for a converted page is the
    header block (title, source URL, the date part of the current time)
    followed by the converted body, trimmed, in which every maximal run
    of [k] line feeds has become [min k 2] line feeds: a run of three or
    more line feeds (two or more blank lines) is collapsed to exactly one
    blank line, shorter runs are kept. *)
Theorem cleanMarkdown_document (E : env) (markdown title url : string) (s : state) :
  fst (GeminiDev.cleanMarkdown E markdown title url s) =
    Ok ("---" +:+ Js.nl +:+
        "title: " +:+ Js.dq +:+ title +:+ Js.dq +:+ Js.nl +:+
        "source: " +:+ Js.dq +:+ url +:+ Js.dq +:+ Js.nl +:+
        "synced: " +:+ Js.dq +:+ Js.before "T"%char (toISOString E (length (trace s)))
          +:+ Js.dq +:+ Js.nl +:+
        "---" +:+ Js.nl +:+ Js.nl +:+
        Js.trim (GeminiDev.collapse_newlines markdown)) /\
  (forall t k a rest,
      no_newline t = true -> Ascii.eqb a "010"%char = false ->
      GeminiDev.collapse_newlines (t +:+ GeminiDev.newlines k +:+ String a rest) =
      t +:+ GeminiDev.newlines (Nat.min k 2) +:+
      GeminiDev.collapse_newlines (String a rest)) /\
  (forall t k,
      no_newline t = true ->
      GeminiDev.collapse_newlines (t +:+ GeminiDev.newlines k) =
      t +:+ GeminiDev.newlines (Nat.min k 2)) /\
  (forall outputDir i page html contentHtml,
      html <> EmptyString ->
      extractMainContent E html = Done contentHtml ->
      turndown E contentHtml = Done markdown ->
      mkdir_fails E (Js.dirname (Js.join outputDir (GeminiDev.outputPath page))) = None ->
      write_fails E (Js.join outputDir (GeminiDev.outputPath page)) = None ->
      let r := GeminiDev.process_result E outputDir false i (page, Some html) s in
      fst r = Ok tt /\
      exists document,
        fst (GeminiDev.cleanMarkdown E markdown (GeminiDev.title page) (GeminiDev.url page) s)
          = Ok document /\
        files (snd r) !! Js.join outputDir (GeminiDev.outputPath page) = Some document).
Proof.
  split; [|split; [|split]].
  - rewrite cleanMarkdown_eq. cbn [fst]. unfold GeminiDev.frontmatter.
    rewrite !append_assoc. reflexivity.
  - apply collapse_run.
  - apply collapse_last_run.
  - intros outputDir i page html contentHtml Hne Hx Ht Hm Hw.
    cbv zeta. unfold GeminiDev.process_result.
    destruct (String.eqb_spec html EmptyString) as [->|_]; [contradiction|].
    unfold mkdir, writeFile, call. run. rewrite Hx. run. rewrite Ht. run.
    rewrite cleanMarkdown_eq. run. rewrite Hm. run. rewrite Hw. run.
    split; [reflexivity|]. eexists. split; [reflexivity|]. apply lookup_insert_eq.
Qed.

(** The statement at a body with two blank lines in a row, and at a
    body that ends in five line feeds. *)
Lemma cleanMarkdown_document_witness :
  GeminiDev.collapse_newlines two_blank_lines = "a" +:+ GeminiDev.newlines 2 +:+ "b" /\
  GeminiDev.collapse_newlines ("a" +:+ GeminiDev.newlines 5) = "a" +:+ GeminiDev.newlines 2 /\
  let r := GeminiDev.process_result sample_env "/out" false 0
             (sample_page, Some two_blank_lines) (boot ∅ MAbsent) in
  fst r = Ok tt /\
  exists document,
    fst (GeminiDev.cleanMarkdown sample_env two_blank_lines
           (GeminiDev.title sample_page) (GeminiDev.url sample_page) (boot ∅ MAbsent))
      = Ok document /\
    files (snd r) !! "/out/models.md" = Some document.
Proof.
  destruct (cleanMarkdown_document sample_env two_blank_lines
              (GeminiDev.title sample_page) (GeminiDev.url sample_page) (boot ∅ MAbsent))
    as (_ & Hrun & Hlast & Hwrite).
  split; [|split].
  - exact (Hrun "a" 3 "b"%char EmptyString eq_refl eq_refl).
  - exact (Hlast "a" 5 eq_refl).
  - apply (Hwrite "/out" 0 sample_page two_blank_lines two_blank_lines);
      [discriminate | reflexivity | reflexivity | reflexivity | reflexivity].
Defined.

(** C8, as stated, fails on a body with exactly two blank lines in a
    row: the specification's wording leaves them, the code collapses
    them to one. *)
Lemma two_blank_lines_are_collapsed :
  let now := Js.before "T"%char (toISOString sample_env 0) in
  fst (GeminiDev.cleanMarkdown sample_env two_blank_lines "T" "u" (boot ∅ MAbsent))
    = Ok (GeminiDev.frontmatter "T" "u" now +:+ "a" +:+ GeminiDev.newlines 2 +:+ "b") /\
  spec_cleanMarkdown two_blank_lines "T" "u" now
    = GeminiDev.frontmatter "T" "u" now +:+ "a" +:+ GeminiDev.newlines 3 +:+ "b" /\
  fst (GeminiDev.cleanMarkdown sample_env two_blank_lines "T" "u" (boot ∅ MAbsent))
    <> Ok (spec_cleanMarkdown two_blank_lines "T" "u" now).
Proof.
  cbv zeta. split; [|split].
  - vm_compute. reflexivity.
  - vm_compute. reflexivity.
  - vm_compute. discriminate.
Qed.

(** * Automation for invariants *)

Ltac inv_leaf :=
  let s := fresh "s" in
  let H := fresh "H" in
  unfold inv; intros s H;
  unfold manifest_exists, read_manifest, init_locals;
  run; repeat (case_match; run); cbn beta in *; run;
  try exact H; auto.

Ltac inv_struct :=
  match goal with
  | |- inv _ (bind _ _) => apply inv_bind; [|intros ?]
  | |- inv _ (try_catch _ _) => apply inv_try_catch; [|intros ?]
  | |- inv _ (for_of _ _ _) => apply inv_for_of; intros ? ?
  | |- inv _ (ret _) => apply inv_ret
  | |- inv _ (throw _) => apply inv_throw
  | |- inv _ (process_exit _) => apply inv_process_exit
  | |- inv _ (lift _) => apply inv_lift
  | |- inv _ (get _) => apply inv_get
  | |- inv _ (if ?b then _ else _) => destruct b
  | |- inv _ (match ?x with _ => _ end) => destruct x
  | |- inv _ (let _ := _ in _) => cbv zeta
  | |- inv _ (let (_, _) := ?x in _) => destruct x
  | |- inv _ (print_all _ (_ :: _)) => cbn [print_all]
  | |- inv _ (print_all _ []) => cbn [print_all]
  | |- inv _ (fetch _ _) => unfold fetch, fetch_send
  | |- inv _ (fetchDoc _ _ _) => unfold fetchDoc
  | |- inv _ (loadManifest _ _) => unfold loadManifest
  | |- inv _ (mkdir _ _) => unfold mkdir
  | |- inv _ (writeFile _ _ _) => unfold writeFile
  | |- inv _ (store _ _ _ _) => unfold store
  | |- inv _ (sleep _) => unfold sleep
  | |- inv _ (text _) => unfold text
  | |- inv _ (call _) => unfold call
  | |- inv _ (read_source _ _) => unfold read_source
  | |- inv _ (git_sync _ _ _) => unfold git_sync
  | |- inv _ (compare_and_record _ _ _ _ _ _ _ _) => unfold compare_and_record
  end.

Tactic Notation "inv_auto" "by" tactic(fin) :=
  repeat inv_struct; try (inv_leaf; fin).

(** * What [fetchDoc] does to the state *)

Lemma fetchDoc_eq (E : env) (BASE_URL slug : string) (s : state) :
  let url := BASE_URL +:+ "/" +:+ slug +:+ ".md" in
  let a := http E (cursor s) url in
  fetchDoc E BASE_URL slug s =
  (Ok (accepted a),
   set_out (fun o => o ++ fetch_log slug a)
     (set_trace (fun t => t ++ fetch_io (cursor s) url a) s)).
Proof.
  cbv zeta. unfold fetchDoc, accepted, fetch_log, fetch_io. run.
  destruct s as [f d m o t c n x y z]. cbn [cursor].
  destruct (http E c _) as [e|[code b]]; [reflexivity|].
  unfold ok; cbn [status body].
  destruct ((200 <=? code)%Z && (code <=? 299)%Z); cbn [negb andb];
    [|destruct b; cbn; rewrite <- app_assoc; reflexivity].
  destruct b as [content|]; run; [|cbn; rewrite <- app_assoc; reflexivity].
  destruct (Js.startsWith "<!DOCTYPE" content || Js.includes "<html" content);
    cbn [negb andb]; [cbn; rewrite <- app_assoc; reflexivity|].
  rewrite Nat.ltb_antisym.
  destruct (50 <=? String.length content); cbn;
    rewrite <- app_assoc, ?app_nil_r; reflexivity.
Qed.

(** A resource [fetchDoc] accepts is never the empty string. *)
Lemma accepted_not_empty (a : http_result) (content : string) :
  accepted a = Some content -> String.eqb content EmptyString = false.
Proof.
  unfold accepted. destruct a as [e|[code [b|]]]; try discriminate.
  destruct (_ && (50 <=? String.length b)) eqn:H; [|discriminate].
  intros [= <-]. apply andb_true_iff in H as [_ H]. apply Nat.leb_le in H.
  destruct b; [simpl in H; lia | reflexivity].
Qed.

(** * Change detection *)

Lemma obj_get_set_eq (k : string) (v : json) (fs : list (string * json)) :
  obj_get k (obj_set k v fs) = Some v.
Proof.
  induction fs as [|[k' v'] fs IH]; simpl.
  - now rewrite String.eqb_refl.
  - destruct (String.eqb k k') eqn:Hk; simpl; rewrite ?String.eqb_refl, ?Hk; auto.
Qed.

Lemma obj_get_set_ne (k k' : string) (v : json) (fs : list (string * json)) :
  k' <> k -> obj_get k' (obj_set k v fs) = obj_get k' fs.
Proof.
  intros Hne. induction fs as [|[k0 v0] fs IH]; simpl.
  - apply String.eqb_neq in Hne. now rewrite Hne.
  - destruct (String.eqb_spec k k0) as [->|Hk]; simpl.
    + apply String.eqb_neq in Hne. now rewrite Hne.
    + destruct (String.eqb k' k0); auto.
Qed.

Lemma same_hash_known (E : env) (table : list (string * json)) (key content : string) :
  same_hash (obj_get key table) (hashContent E content) = true <->
  known E table key content.
Proof.
  unfold same_hash, known. split.
  - intros H. apply andb_true_iff in H as [Ht Hh]. split; [exact Ht|].
    destruct (member (obj_get key table) "hash") as [[[]|]| |]; try discriminate.
    apply String.eqb_eq in Hh. now subst.
  - intros [Ht Hh]. rewrite Ht, Hh. cbn. apply String.eqb_refl.
Qed.

Lemma script_entries_carry :
  (forall p, carries (ClaudeApi.entry p)) /\
  (forall p, carries (ClaudeCode.entry p)) /\
  carries ClaudeCode.changelog_entry /\
  (forall d, carries (OpenaiCodex.entry d)) /\
  (forall p, carries (GeminiCli.entry p)) /\
  (forall source d, carries (OpenaiApi.entry source d)).
Proof. repeat split. Qed.

(** No file-system operation fails in the sample environment. *)
Lemma sample_env_healthy : healthy sample_env.
Proof. intros path. split; reflexivity. Defined.

(** The comparison, as a function of the previous [files] table, when
    the writes of a live run succeed. *)
Lemma compare_and_record_eq (E : env) (dry : bool) (manifest : json)
    (table : list (string * json)) (key content : string) (mk : bool) (dest : string)
    (entry : string -> string -> json) (s : state) :
  member (Some manifest) "files" = Ok (Some (JObj table)) ->
  (dry = false -> healthy E) ->
  compare_and_record E dry manifest key content mk dest entry s =
  (Ok tt,
   let hash := hashContent E content in
   let oldEntry := obj_get key table in
   if same_hash oldEntry hash then
     State (files s) (dirs s) (manifest_file s) (out s ++ [(ConsoleLog, " unchanged")])
           (trace s) (cursor s)
           (match oldEntry with Some old => obj_set key old (newFiles s) | None => newFiles s end)
           (fetched s) (S (unchanged s)) (failed s)
   else
     let t := trace s ++ map (pair (cursor s)) (if dry then [] else store_io mk dest) in
     State (if dry then files s else <[dest := content]> (files s))
           (if dry then dirs s else if mk then {[Js.dirname dest]} ∪ dirs s else dirs s)
           (manifest_file s)
           (out s ++ [(ConsoleLog, if truthy oldEntry then " updated" else " new")])
           t (cursor s)
           (obj_set key (entry hash (toISOString E (length t))) (newFiles s))
           (S (fetched s)) (unchanged s) (failed s)).
Proof.
  intros Htable Hfs. unfold compare_and_record. cbv zeta. rewrite Htable. run.
  cbn [member]. run.
  destruct (same_hash _ _); [reflexivity|]. run.
  destruct dry.
  - run. cbn [map]. rewrite app_nil_r. reflexivity.
  - destruct (Hfs eq_refl (Js.dirname dest)) as [Hm _].
    destruct (Hfs eq_refl dest) as [_ Hw].
    unfold store, mkdir, writeFile, store_io.
    destruct mk; run; rewrite ?Hm; run; rewrite Hw; run; cbn [map app];
      rewrite <- ?app_assoc; reflexivity.
Qed.

Lemma accepted_io (a : http_result) (content : string) (c : option nat) (url slug : string) :
  accepted a = Some content ->
  fetch_io c url a = [(c, IoRequest url); (c, IoResponse url)] /\ fetch_log slug a = [] /\
  exists r, a = Responded r /\ ok r = true /\ body r = Some content.
Proof.
  unfold accepted, fetch_io, fetch_log. destruct a as [e|[code [b|]]]; try discriminate.
  unfold ok. cbn [status body].
  destruct ((200 <=? code)%Z && (code <=? 299)%Z) eqn:Hok; cbn [negb andb]; [|discriminate].
  destruct (Js.startsWith "<!DOCTYPE" b || Js.includes "<html" b); cbn [negb andb];
    [discriminate|].
  rewrite Nat.ltb_antisym. destruct (50 <=? String.length b); cbn [negb]; [|discriminate].
  intros [= <-]. split; [reflexivity|]. split; [reflexivity|].
  eexists. split; [reflexivity|]. split; [exact Hok | reflexivity].
Qed.


(** From the state a resource loop ends in to the account of
    [change_detected]: [pre] is what was done to obtain the content,
    [post] what was done after the comparison. *)
Lemma change_detected_intro (E : env) (dry : bool) (table : list (string * json))
    (key content dest progress : string) (mk : bool)
    (entry : string -> string -> json) (c : option nat)
    (pre post : list (option nat * io)) (d : gset string) (s s' : state) :
  carries entry ->
  Forall (fun e => is_write e = false) pre ->
  Forall (fun e => is_write e = false) post ->
  s' = (let hash := hashContent E content in
        let oldEntry := obj_get key table in
        if same_hash oldEntry hash then
          State (files s) (dirs s) (manifest_file s)
                (out s ++ [(StdoutWrite, progress); (ConsoleLog, " unchanged")])
                (trace s ++ pre ++ post) c
                (match oldEntry with
                 | Some old => obj_set key old (newFiles s)
                 | None => newFiles s
                 end)
                (fetched s) (S (unchanged s)) (failed s)
        else
          let io := map (pair c) (if dry then [] else store_io mk dest) in
          State (if dry then files s else <[dest := content]> (files s)) d
                (manifest_file s)
                (out s ++ [(StdoutWrite, progress);
                           (ConsoleLog, if truthy oldEntry then " updated" else " new")])
                (trace s ++ pre ++ io ++ post) c
                (obj_set key (entry hash (toISOString E (length (trace s ++ pre ++ io))))
                         (newFiles s))
                (S (fetched s)) (unchanged s) (failed s)) ->
  change_detected E dry table key content dest progress s s'.
Proof.
  intros Hentry Hpre Hpost ->. unfold change_detected. cbv zeta.
  destruct (same_hash _ _) eqn:Hsame; cbn [files dirs manifest_file out trace newFiles
                                         fetched unchanged failed].
  - assert (Hk : known E table key content) by (apply same_hash_known; exact Hsame).
    split; [reflexivity|]. split; [reflexivity|].
    split.
    { intros k Hne. destruct (obj_get key table); [apply obj_get_set_ne; exact Hne|reflexivity]. }
    split; [reflexivity|].
    split.
    { exists (pre ++ post). split; [reflexivity|]. split.
      - intros _. apply Forall_app; split; assumption.
      - intros Hn. contradiction. }
    split; [|intros Hn; contradiction].
    intros _. repeat split.
    destruct Hk as [Ht _]. destruct (obj_get key table); [apply obj_get_set_eq|discriminate].
  - assert (Hn : ~ known E table key content).
    { intros Hk. apply same_hash_known in Hk. congruence. }
    split; [reflexivity|]. split; [reflexivity|].
    split; [intros k Hne; apply obj_get_set_ne; exact Hne|].
    split.
    { intros path Hne. destruct dry; [reflexivity|]. apply lookup_insert_ne. congruence. }
    split.
    { eexists. split; [reflexivity|]. split.
      - intros [Hk| ->]; [contradiction|]. cbn [map app].
        apply Forall_app; split; assumption.
      - intros _ ->. rewrite !map_app, !in_app_iff. right. left.
        unfold store_io. rewrite map_map. cbn [snd]. rewrite map_id.
        rewrite in_app_iff. right. left. reflexivity. }
    split; [intros Hk; contradiction|].
    intros _. repeat split.
    eexists _, _. split; [apply obj_get_set_eq|].
    split; [apply Hentry|]. split; [apply Hentry|].
    rewrite !length_app. lia.
Qed.

Ltac detect_finish :=
  cbv zeta;
  match goal with
  | |- context [same_hash ?o ?h] =>
      let Hsame := fresh "Hsame" in
      destruct (same_hash o h) eqn:Hsame
  end;
  run; cbn [map app];
  rewrite ?app_nil_r, <- ?app_assoc; cbn [app]; try reflexivity.

Lemma claude_api_detects (E : env) (dry : bool) (manifest : json)
    (table : list (string * json)) (i : nat) (page : ClaudeApi.DocPage)
    (content : string) (s : state) :
  member (Some manifest) "files" = Ok (Some (JObj table)) ->
  (dry = false -> healthy E) ->
  accepted (http E (Some i) (ClaudeApi.BASE_URL +:+ "/" +:+ ClaudeApi.slug page +:+ ".md"))
    = Some content ->
  let r := ClaudeApi.loop_body E dry manifest i page s in
  fst r = Ok tt /\
  change_detected E dry table (ClaudeApi.outputPath page) content
    (Js.join (RESOURCES_DIR E) (ClaudeApi.outputPath page))
    ("Fetching " +:+ ClaudeApi.slug page +:+ "...") s (snd r).
Proof.
  intros Htable Hfs Hacc. cbv zeta. unfold ClaudeApi.loop_body. run.
  rewrite fetchDoc_eq. cbv zeta. cbn [cursor].
  destruct (accepted_io _ _ (Some i)
              (ClaudeApi.BASE_URL +:+ "/" +:+ ClaudeApi.slug page +:+ ".md")
              (ClaudeApi.slug page) Hacc) as (Hio & Hlog & _).
  rewrite Hacc, Hio, Hlog. run. rewrite (accepted_not_empty _ _ Hacc).
  rewrite (compare_and_record_eq E dry manifest table) by assumption.
  split; [cbv zeta; destruct (same_hash _ _); reflexivity|].
  eapply (change_detected_intro E dry table _ content _ _ true (ClaudeApi.entry page)
            (Some i)
            [(Some i, IoRequest (ClaudeApi.BASE_URL +:+ "/" +:+ ClaudeApi.slug page +:+ ".md"));
             (Some i, IoResponse (ClaudeApi.BASE_URL +:+ "/" +:+ ClaudeApi.slug page +:+ ".md"))]
            [(Some i, IoSleep 150)]);
    [apply script_entries_carry | repeat constructor | repeat constructor |].
  detect_finish.
Qed.

Lemma claude_code_detects (E : env) (dry : bool) (manifest : json)
    (table : list (string * json)) (i : nat) (page : ClaudeCode.DocPage)
    (content : string) (s : state) :
  member (Some manifest) "files" = Ok (Some (JObj table)) ->
  (dry = false -> healthy E) ->
  accepted (http E (Some i) (ClaudeCode.BASE_URL +:+ "/" +:+ ClaudeCode.slug page +:+ ".md"))
    = Some content ->
  let r := ClaudeCode.loop_body E dry manifest i page s in
  fst r = Ok tt /\
  change_detected E dry table (ClaudeCode.slug page) content
    (Js.join (RESOURCES_DIR E) (ClaudeCode.slug page +:+ ".md"))
    ("Fetching " +:+ ClaudeCode.slug page +:+ "...") s (snd r).
Proof.
  intros Htable Hfs Hacc. cbv zeta. unfold ClaudeCode.loop_body. run.
  rewrite fetchDoc_eq. cbv zeta. cbn [cursor].
  destruct (accepted_io _ _ (Some i)
              (ClaudeCode.BASE_URL +:+ "/" +:+ ClaudeCode.slug page +:+ ".md")
              (ClaudeCode.slug page) Hacc) as (Hio & Hlog & _).
  rewrite Hacc, Hio, Hlog. run. rewrite (accepted_not_empty _ _ Hacc).
  rewrite (compare_and_record_eq E dry manifest table) by assumption.
  split; [cbv zeta; destruct (same_hash _ _); reflexivity|].
  eapply (change_detected_intro E dry table _ content _ _ false (ClaudeCode.entry page)
            (Some i)
            [(Some i, IoRequest (ClaudeCode.BASE_URL +:+ "/" +:+ ClaudeCode.slug page +:+ ".md"));
             (Some i, IoResponse (ClaudeCode.BASE_URL +:+ "/" +:+ ClaudeCode.slug page +:+ ".md"))]
            [(Some i, IoSleep 200)]);
    [apply script_entries_carry | repeat constructor | repeat constructor |].
  detect_finish.
Qed.

Lemma changelog_detects (E : env) (pages : list ClaudeCode.DocPage) (dry : bool)
    (manifest : json) (table : list (string * json)) (answer : response)
    (content : string) (s : state) :
  member (Some manifest) "files" = Ok (Some (JObj table)) ->
  (dry = false -> healthy E) ->
  http E (Some (length pages)) ClaudeCode.changelogUrl = Responded answer ->
  ok answer = true -> body answer = Some content ->
  let r := ClaudeCode.changelog E pages dry manifest s in
  fst r = Ok tt /\
  change_detected E dry table "changelog" content
    (Js.join (RESOURCES_DIR E) "changelog.md") "Fetching changelog..." s (snd r).
Proof.
  intros Htable Hfs Hanswer Hok Hbody. cbv zeta. unfold ClaudeCode.changelog. run.
  rewrite Hanswer. run. rewrite Hok. unfold text. rewrite Hbody. run.
  rewrite (compare_and_record_eq E dry manifest table) by assumption.
  split; [cbv zeta; destruct (same_hash _ _); reflexivity|].
  eapply (change_detected_intro E dry table _ content _ _ false ClaudeCode.changelog_entry
            (Some (length pages))
            [(Some (length pages), IoRequest ClaudeCode.changelogUrl);
             (Some (length pages), IoResponse ClaudeCode.changelogUrl)]
            []);
    [apply script_entries_carry | repeat constructor | repeat constructor |].
  detect_finish.
Qed.

Lemma openai_codex_detects (E : env) (dry : bool) (manifest : json)
    (table : list (string * json)) (i : nat) (doc : OpenaiCodex.Doc)
    (content : string) (s : state) :
  member (Some manifest) "files" = Ok (Some (JObj table)) ->
  (dry = false -> healthy E) ->
  tree E (Js.join OpenaiCodex.TEMP_DIR (OpenaiCodex.src doc)) = FileText content ->
  let r := OpenaiCodex.loop_body E dry manifest i doc s in
  fst r = Ok tt /\
  change_detected E dry table (OpenaiCodex.dest doc) content
    (Js.join (RESOURCES_DIR E) (OpenaiCodex.dest doc))
    ("Processing " +:+ OpenaiCodex.src doc +:+ "...") s (snd r).
Proof.
  intros Htable Hfs Htree. cbv zeta. unfold OpenaiCodex.loop_body, source_exists, read_source.
  cbv zeta. rewrite Htree. cbn [negb]. run.
  rewrite (compare_and_record_eq E dry manifest table) by assumption.
  split; [cbv zeta; destruct (same_hash _ _); reflexivity|].
  eapply (change_detected_intro E dry table _ content _ _ true (OpenaiCodex.entry doc)
            (Some i)
            [(Some i, IoRead (Js.join OpenaiCodex.TEMP_DIR (OpenaiCodex.src doc)))] []);
    [apply script_entries_carry | repeat constructor | repeat constructor |].
  detect_finish.
Qed.

Lemma gemini_cli_detects (E : env) (dry : bool) (manifest : json)
    (table : list (string * json)) (i : nat) (docPath content : string) (s : state) :
  member (Some manifest) "files" = Ok (Some (JObj table)) ->
  (dry = false -> healthy E) ->
  tree E (Js.join (Js.join GeminiCli.TEMP_DIR "docs") docPath) = FileText content ->
  let r := GeminiCli.loop_body E dry manifest i docPath s in
  fst r = Ok tt /\
  change_detected E dry table docPath content (Js.join (RESOURCES_DIR E) docPath)
    ("Processing " +:+ docPath +:+ "...") s (snd r).
Proof.
  intros Htable Hfs Htree. cbv zeta. unfold GeminiCli.loop_body, source_exists, read_source.
  cbv zeta. rewrite Htree. cbn [negb]. run.
  rewrite (compare_and_record_eq E dry manifest table) by assumption.
  split; [cbv zeta; destruct (same_hash _ _); reflexivity|].
  eapply (change_detected_intro E dry table _ content _ _ true (GeminiCli.entry docPath)
            (Some i)
            [(Some i, IoRead (Js.join (Js.join GeminiCli.TEMP_DIR "docs") docPath))] []);
    [apply script_entries_carry | repeat constructor | repeat constructor |].
  detect_finish.
Qed.

Lemma openai_api_detects (E : env) (temp label source : string) (base : nat) (dry : bool)
    (manifest : json) (table : list (string * json)) (i : nat) (doc : OpenaiApi.Doc)
    (content : string) (s : state) :
  member (Some manifest) "files" = Ok (Some (JObj table)) ->
  (dry = false -> healthy E) ->
  tree E (Js.join temp (OpenaiApi.src doc)) = FileText content ->
  let r := OpenaiApi.loop_body E temp label source base dry manifest i doc s in
  fst r = Ok tt /\
  change_detected E dry table (OpenaiApi.dest doc) content
    (Js.join (RESOURCES_DIR E) (OpenaiApi.dest doc))
    ("Processing " +:+ label +:+ "/" +:+ OpenaiApi.src doc +:+ "...") s (snd r).
Proof.
  intros Htable Hfs Htree. cbv zeta. unfold OpenaiApi.loop_body, source_exists, read_source.
  cbv zeta. rewrite Htree. cbn [negb]. run.
  rewrite (compare_and_record_eq E dry manifest table) by assumption.
  split; [cbv zeta; destruct (same_hash _ _); reflexivity|].
  eapply (change_detected_intro E dry table _ content _ _ true (OpenaiApi.entry source doc)
            (Some (base + i))
            [(Some (base + i), IoRead (Js.join temp (OpenaiApi.src doc)))] []);
    [apply script_entries_carry | repeat constructor | repeat constructor |].
  detect_finish.
Qed.

(** C1, as amended.  In each of the five manifest scripts, for a
    resource whose content was obtained (a page [fetchDoc] accepts, a
    changelog answered with a 2xx status, a file read from the clone),
    the previous manifest holding a [files] table and the writes of a
    live run succeeding, the body of the resource loop returns normally
    and does what [change_detected] says, with the script's own key,
    destination path and progress line.  If the table has a truthy entry
    under the key whose hash is the hash of the new content, the
    resource is reported unchanged and counted as such, that entry goes
    into the new manifest as it is (so with its old [lastUpdated]), and
    nothing is written.  Otherwise the resource is reported updated
    (the table has a truthy entry under the key) or new (no entry, or a
    falsy one), it counts as fetched, the new manifest gets an entry with
    the new hash and the time of the clock, and the content is written to
    the destination path exactly when the run is not a preview: a preview
    attempts no write and leaves the destination files as they are.  In
    both cases no other key of the new manifest and no other file
    changes, and the manifest file is not touched. *)
Theorem change_detection (E : env) (isDryRun : bool) (manifest : json)
    (table : list (string * json)) (s : state) :
  member (Some manifest) "files" = Ok (Some (JObj table)) ->
  (isDryRun = false -> healthy E) ->
  (forall i page content,
     accepted (http E (Some i)
                 (ClaudeApi.BASE_URL +:+ "/" +:+ ClaudeApi.slug page +:+ ".md"))
       = Some content ->
     let r := ClaudeApi.loop_body E isDryRun manifest i page s in
     fst r = Ok tt /\
     change_detected E isDryRun table (ClaudeApi.outputPath page) content
       (Js.join (RESOURCES_DIR E) (ClaudeApi.outputPath page))
       ("Fetching " +:+ ClaudeApi.slug page +:+ "...") s (snd r)) /\
  (forall i page content,
     accepted (http E (Some i)
                 (ClaudeCode.BASE_URL +:+ "/" +:+ ClaudeCode.slug page +:+ ".md"))
       = Some content ->
     let r := ClaudeCode.loop_body E isDryRun manifest i page s in
     fst r = Ok tt /\
     change_detected E isDryRun table (ClaudeCode.slug page) content
       (Js.join (RESOURCES_DIR E) (ClaudeCode.slug page +:+ ".md"))
       ("Fetching " +:+ ClaudeCode.slug page +:+ "...") s (snd r)) /\
  (forall pages answer content,
     http E (Some (length pages)) ClaudeCode.changelogUrl = Responded answer ->
     ok answer = true -> body answer = Some content ->
     let r := ClaudeCode.changelog E pages isDryRun manifest s in
     fst r = Ok tt /\
     change_detected E isDryRun table "changelog" content
       (Js.join (RESOURCES_DIR E) "changelog.md") "Fetching changelog..." s (snd r)) /\
  (forall i doc content,
     tree E (Js.join OpenaiCodex.TEMP_DIR (OpenaiCodex.src doc)) = FileText content ->
     let r := OpenaiCodex.loop_body E isDryRun manifest i doc s in
     fst r = Ok tt /\
     change_detected E isDryRun table (OpenaiCodex.dest doc) content
       (Js.join (RESOURCES_DIR E) (OpenaiCodex.dest doc))
       ("Processing " +:+ OpenaiCodex.src doc +:+ "...") s (snd r)) /\
  (forall i docPath content,
     tree E (Js.join (Js.join GeminiCli.TEMP_DIR "docs") docPath) = FileText content ->
     let r := GeminiCli.loop_body E isDryRun manifest i docPath s in
     fst r = Ok tt /\
     change_detected E isDryRun table docPath content
       (Js.join (RESOURCES_DIR E) docPath)
       ("Processing " +:+ docPath +:+ "...") s (snd r)) /\
  (forall i doc content,
     tree E (Js.join OpenaiApi.SDK_TEMP (OpenaiApi.src doc)) = FileText content ->
     let r := OpenaiApi.loop_body E OpenaiApi.SDK_TEMP "SDK" "openai-python" 0
                isDryRun manifest i doc s in
     fst r = Ok tt /\
     change_detected E isDryRun table (OpenaiApi.dest doc) content
       (Js.join (RESOURCES_DIR E) (OpenaiApi.dest doc))
       ("Processing SDK/" +:+ OpenaiApi.src doc +:+ "...") s (snd r)) /\
  (forall (sdk : list OpenaiApi.Doc) i doc content,
     tree E (Js.join OpenaiApi.COOKBOOK_TEMP (OpenaiApi.src doc)) = FileText content ->
     let r := OpenaiApi.loop_body E OpenaiApi.COOKBOOK_TEMP "cookbook" "openai-cookbook"
                (length sdk) isDryRun manifest i doc s in
     fst r = Ok tt /\
     change_detected E isDryRun table (OpenaiApi.dest doc) content
       (Js.join (RESOURCES_DIR E) (OpenaiApi.dest doc))
       ("Processing cookbook/" +:+ OpenaiApi.src doc +:+ "...") s (snd r)).
Proof.
  intros Htable Hfs.
  split; [intros; apply claude_api_detects; assumption|].
  split; [intros; apply claude_code_detects; assumption|].
  split; [intros; eapply changelog_detects; eassumption|].
  split; [intros; apply openai_codex_detects; assumption|].
  split; [intros; apply gemini_cli_detects; assumption|].
  split; intros.
  - apply (openai_api_detects E OpenaiApi.SDK_TEMP "SDK" "openai-python" 0); assumption.
  - apply (openai_api_detects E OpenaiApi.COOKBOOK_TEMP "cookbook" "openai-cookbook");
      assumption.
Qed.

(** The statement at the claude-api script in the sample environment,
    live, over the introduction page: when the previous manifest holds
    the hash of the page served, the page is reported unchanged, its old
    entry is kept and nothing is written; when it holds another hash,
    the page is reported updated, written, and recorded with the new
    hash. *)
Lemma change_detection_witness :
  (let r := ClaudeApi.loop_body sample_env false
              (intro_manifest (hashContent sample_env sample_doc)) 0 intro_page
              (boot ∅ MAbsent) in
   fst r = Ok tt /\
   out (snd r) = [(StdoutWrite, "Fetching intro..."); (ConsoleLog, " unchanged")] /\
   unchanged (snd r) = 1 /\ fetched (snd r) = 0 /\
   files (snd r) = ∅ /\
   obj_get "intro.md" (newFiles (snd r))
     = Some (intro_entry (hashContent sample_env sample_doc))) /\
  (let r := ClaudeApi.loop_body sample_env false (intro_manifest "0000") 0 intro_page
              (boot ∅ MAbsent) in
   fst r = Ok tt /\
   out (snd r) = [(StdoutWrite, "Fetching intro..."); (ConsoleLog, " updated")] /\
   fetched (snd r) = 1 /\ unchanged (snd r) = 0 /\
   files (snd r) = <[intro_path := sample_doc]> ∅ /\
   exists fresh,
     obj_get "intro.md" (newFiles (snd r)) = Some fresh /\
     member (Some fresh) "hash" = Ok (Some (JStr (hashContent sample_env sample_doc)))).
Proof.
  split.
  - destruct (change_detection sample_env false
                (intro_manifest (hashContent sample_env sample_doc))
                (intro_table (hashContent sample_env sample_doc)) (boot ∅ MAbsent)
                eq_refl (fun _ => sample_env_healthy)) as (Hapi & _).
    destruct (Hapi 0 intro_page sample_doc ltac:(vm_compute; reflexivity))
      as (Hok & _ & _ & _ & _ & _ & Hknown & _).
    destruct (Hknown (conj eq_refl eq_refl)) as (Hout & Hu & Hf & Hfiles & Hentry).
    cbv zeta. repeat split; assumption.
  - destruct (change_detection sample_env false (intro_manifest "0000")
                (intro_table "0000") (boot ∅ MAbsent)
                eq_refl (fun _ => sample_env_healthy)) as (Hapi & _).
    destruct (Hapi 0 intro_page sample_doc ltac:(vm_compute; reflexivity))
      as (Hok & _ & _ & _ & _ & _ & _ & Hchanged).
    destruct Hchanged as (Hout & Hf & Hu & Hfiles & fresh & t & Hentry & Hhash & _).
    { intros [_ Hh]. vm_compute in Hh. discriminate. }
    cbv zeta. repeat split; try assumption.
    exists fresh. split; assumption.
Defined.

(** C1, as stated, fails in preview mode: the resource is reported new
    and counted, and nothing is written to its destination path. *)
Lemma preview_reports_new_without_writing :
  let r := ClaudeApi.main sample_env [intro_page] ["--dry-run"] (boot ∅ MAbsent) in
  fst r = Ok tt /\
  In (ConsoleLog, " new") (out (snd r)) /\
  fetched (snd r) = 1 /\
  files (snd r) !! intro_path <> Some sample_doc /\
  files (snd r) = ∅.
Proof.
  vm_compute. repeat split; try discriminate. tauto.
Qed.

(** * Counters *)

Lemma triple_bind {A B} (P Q R : state -> Prop) (m : M A) (k : A -> M B) :
  triple P m Q -> (forall a, triple Q (k a) R) -> triple P (bind m k) R.
Proof.
  intros Hm Hk s HP b. unfold bind. specialize (Hm s HP).
  destruct (m s) as [[a|e|c] s']; simpl in *; try discriminate.
  intros Hb. eapply Hk; eauto.
Qed.

Lemma triple_inv {A} (I : state -> Prop) (m : M A) : inv I m -> triple I m I.
Proof. intros H s HI a _. apply H, HI. Qed.

Lemma triple_weaken {A} (P P' Q Q' : state -> Prop) (m : M A) :
  triple P m Q -> (forall s, P' s -> P s) -> (forall s, Q s -> Q' s) -> triple P' m Q'.
Proof. intros H HP HQ s Hs a Ha. eapply HQ, H; eauto. Qed.

Lemma triple_for_of {A} (I : nat -> state -> Prop) (body : nat -> A -> M unit)
    (xs : list A) :
  (forall i x, triple (I i) (body i x) (I (S i))) ->
  forall i, triple (I i) (for_of body i xs) (I (i + length xs)).
Proof.
  intros Hb. induction xs as [|x xs IH]; intros i; simpl.
  - intros s Hs a _. simpl. now rewrite Nat.add_0_r.
  - eapply triple_bind; [apply Hb|]. intros _.
    replace (i + S (length xs)) with (S i + length xs) by lia. apply IH.
Qed.

Ltac keep_tally :=
  inv_auto by (unfold tally in *; cbn in *; try lia).

Lemma compare_and_record_counts (E : env) (dry : bool) (manifest : json)
    (key content : string) (mk : bool) (dest : string)
    (entry : string -> string -> json) (n : nat) :
  triple (fun s => tally s = n)
         (compare_and_record E dry manifest key content mk dest entry)
         (fun s => tally s = S n).
Proof.
  unfold compare_and_record. cbv zeta.
  eapply triple_bind; [apply triple_inv; keep_tally|]. intros table.
  eapply triple_bind; [apply triple_inv; keep_tally|]. intros oldEntry.
  destruct (same_hash oldEntry _).
  - eapply triple_bind; [apply triple_inv; keep_tally|]. intros _.
    eapply triple_bind with (Q := fun s => tally s = S n).
    + intros s Hs a _. unfold tally in *. cbn. lia.
    + intros _. apply triple_inv. keep_tally.
  - eapply triple_bind; [apply triple_inv; keep_tally|]. intros _.
    eapply triple_bind with (Q := fun s => tally s = S n).
    + intros s Hs a _. unfold tally in *. cbn. lia.
    + intros _. apply triple_inv. keep_tally.
Qed.

Lemma claude_api_body_counts (E : env) (dry : bool) (manifest : json)
    (i : nat) (page : ClaudeApi.DocPage) (n : nat) :
  triple (fun s => tally s = n + i) (ClaudeApi.loop_body E dry manifest i page)
         (fun s => tally s = n + S i).
Proof.
  unfold ClaudeApi.loop_body.
  eapply triple_bind; [apply triple_inv; keep_tally|]. intros _.
  eapply triple_bind; [apply triple_inv; keep_tally|]. intros _.
  eapply triple_bind; [apply triple_inv; keep_tally|]. intros content.
  assert (Hfail : triple (fun s => tally s = n + i) (modify (set_failed S))
                         (fun s => tally s = n + S i)).
  { intros s Hs a _. unfold tally in *. cbn. lia. }
  destruct content as [content|]; [|exact Hfail].
  destruct (String.eqb content EmptyString); [exact Hfail|].
  eapply triple_bind with (Q := fun s => tally s = n + S i).
  - eapply triple_weaken; [apply compare_and_record_counts | |]; cbn; intros; eauto; lia.
  - intros _. apply triple_inv. keep_tally.
Qed.

(** Every run of the claude-api script that reaches its summary has
    counted each configured page exactly once. *)
Lemma claude_api_run_counts (E : env) (pages : list ClaudeApi.DocPage)
    (argv : list string) (s : state) :
  fst (ClaudeApi.main E pages argv s) = Ok tt ->
  tally (snd (ClaudeApi.main E pages argv s)) = length pages.
Proof.
  assert (H : triple (fun _ => True) (ClaudeApi.main E pages argv)
                     (fun s => tally s = length pages)).
  { unfold ClaudeApi.main. cbv zeta.
    eapply triple_bind with (Q := fun _ => True); [intros ? ? ? ?; exact I|]. intros _.
    eapply triple_bind with (Q := fun _ => True); [intros ? ? ? ?; exact I|]. intros _.
    eapply triple_bind with (Q := fun _ => True); [intros ? ? ? ?; exact I|].
    intros manifest.
    eapply triple_bind with (Q := fun s => tally s = 0 + 0);
      [intros ? ? ? ?; reflexivity|]. intros _.
    eapply triple_bind with (Q := fun s => tally s = length pages).
    - eapply triple_weaken.
      + apply (triple_for_of (fun i s => tally s = 0 + i)).
        intros i x. apply (claude_api_body_counts E _ _ i x 0).
      + intros s0 Hs. exact Hs.
      + intros s0 Hs. exact Hs.
    - intros _. apply triple_inv. unfold ClaudeApi.summary, saveManifest. keep_tally. }
  intros Hok. eapply H; eauto.
Qed.

(** A page whose fetch is refused costs the run nothing else: the body
    returns normally, only [failed] moves, and the loop goes on. *)
Lemma failed_fetch_is_isolated (E : env) (dry : bool) (manifest : json)
    (i : nat) (page : ClaudeApi.DocPage) (s : state) :
  accepted (http E (Some i) (ClaudeApi.BASE_URL +:+ "/" +:+ ClaudeApi.slug page +:+ ".md"))
    = None ->
  let r := ClaudeApi.loop_body E dry manifest i page s in
  fst r = Ok tt /\
  failed (snd r) = S (failed s) /\
  fetched (snd r) = fetched s /\ unchanged (snd r) = unchanged s /\
  newFiles (snd r) = newFiles s /\ files (snd r) = files s /\
  manifest_file (snd r) = manifest_file s.
Proof.
  intros Hrefused. cbv zeta. unfold ClaudeApi.loop_body. run.
  rewrite fetchDoc_eq. cbv zeta. cbn [cursor]. rewrite Hrefused. run.
  repeat split.
Qed.

Lemma claude_code_body_counts (E : env) (dry : bool) (manifest : json)
    (i : nat) (page : ClaudeCode.DocPage) (n : nat) :
  triple (fun s => tally s = n + i) (ClaudeCode.loop_body E dry manifest i page)
         (fun s => tally s = n + S i).
Proof.
  unfold ClaudeCode.loop_body.
  eapply triple_bind; [apply triple_inv; keep_tally|]. intros _.
  eapply triple_bind; [apply triple_inv; keep_tally|]. intros _.
  eapply triple_bind; [apply triple_inv; keep_tally|]. intros content.
  assert (Hfail : triple (fun s => tally s = n + i) (modify (set_failed S))
                         (fun s => tally s = n + S i)).
  { intros s Hs a _. unfold tally in *. cbn. lia. }
  destruct content as [content|]; [|exact Hfail].
  destruct (String.eqb content EmptyString); [exact Hfail|].
  eapply triple_bind with (Q := fun s => tally s = n + S i).
  - eapply triple_weaken; [apply compare_and_record_counts | |]; cbn; intros; eauto; lia.
  - intros _. apply triple_inv. keep_tally.
Qed.

(** The changelog block when GitHub answers with a status outside 2xx:
    no status is printed and no counter moves. *)
Lemma changelog_refused_is_uncounted (E : env) (pages : list ClaudeCode.DocPage)
    (dry : bool) (manifest : json) (s : state) (r : response) :
  http E (Some (length pages)) ClaudeCode.changelogUrl = Responded r ->
  ok r = false ->
  let after := ClaudeCode.changelog E pages dry manifest s in
  fst after = Ok tt /\
  out (snd after) = out s ++ [(StdoutWrite, "Fetching changelog...")] /\
  fetched (snd after) = fetched s /\ unchanged (snd after) = unchanged s /\
  failed (snd after) = failed s /\ newFiles (snd after) = newFiles s.
Proof.
  intros Hr Hok. cbv zeta. unfold ClaudeCode.changelog. run. rewrite Hr. run.
  rewrite Hok. run. repeat split.
Qed.

(** With such an answer a run that reaches its summary has counted the
    configured pages only, while it prints their number plus one as the
    total. *)
Lemma claude_code_run_counts_refused (E : env) (pages : list ClaudeCode.DocPage)
    (argv : list string) (s : state) (r : response) :
  http E (Some (length pages)) ClaudeCode.changelogUrl = Responded r ->
  ok r = false ->
  fst (ClaudeCode.main E pages argv s) = Ok tt ->
  tally (snd (ClaudeCode.main E pages argv s)) = length pages.
Proof.
  intros Hr Hok.
  assert (H : triple (fun _ => True) (ClaudeCode.main E pages argv)
                     (fun s => tally s = length pages)).
  { unfold ClaudeCode.main. cbv zeta.
    eapply triple_bind with (Q := fun _ => True); [intros ? ? ? ?; exact I|]. intros _.
    eapply triple_bind with (Q := fun _ => True); [intros ? ? ? ?; exact I|]. intros _.
    eapply triple_bind with (Q := fun _ => True); [intros ? ? ? ?; exact I|].
    intros manifest.
    eapply triple_bind with (Q := fun s => tally s = 0 + 0);
      [intros ? ? ? ?; reflexivity|]. intros _.
    eapply triple_bind with (Q := fun s => tally s = length pages).
    - eapply triple_weaken.
      + apply (triple_for_of (fun i s => tally s = 0 + i)).
        intros i x. apply (claude_code_body_counts E _ _ i x 0).
      + intros s0 Hs. exact Hs.
      + intros s0 Hs. exact Hs.
    - intros _.
      eapply triple_bind with (Q := fun s => tally s = length pages).
      + intros s0 Hs a _.
        destruct (changelog_refused_is_uncounted E pages (dry_run_flag argv) manifest s0 r Hr Hok)
          as (_ & _ & Hf & Hu & Hx & _).
        unfold tally in *. rewrite Hf, Hu, Hx. exact Hs.
      + intros _. apply triple_inv. unfold ClaudeCode.summary, saveManifest. keep_tally. }
  intros Hrun. eapply H; eauto.
Qed.

(** C2 at its failing input.  The claude-code script over one page that
    is fetched and written, with the changelog answered by 404: the run
    reaches its summary with fetched = 1, unchanged = 0, failed = 0,
    one short of the total of 2 it prints; the changelog has reached no
    counter. *)
Theorem changelog_not_found_reaches_no_counter :
  let r := ClaudeCode.main changelog_down [overview_page] [] (boot ∅ MAbsent) in
  fst r = Ok tt /\
  fetched (snd r) = 1 /\ unchanged (snd r) = 0 /\ failed (snd r) = 0 /\
  tally (snd r) <> length [overview_page] + 1 /\
  In (ConsoleLog, "Total: 2") (out (snd r)).
Proof.
  vm_compute. repeat split; try discriminate. tauto.
Qed.

(** * A manifest file that parses to something else *)

Lemma spec_bind {A B} (P : state -> Prop) (Q1 : result A -> state -> Prop)
    (Q : result B -> state -> Prop) (m : M A) (k : A -> M B) :
  spec P m Q1 ->
  (forall a, spec (Q1 (Ok a)) (k a) Q) ->
  (forall e s, Q1 (Throw e) s -> Q (Throw e) s) ->
  (forall c s, Q1 (Exit c) s -> Q (Exit c) s) ->
  spec P (bind m k) Q.
Proof.
  intros Hm Hk Ht He s HP. unfold bind. specialize (Hm s HP).
  destruct (m s) as [[a|e|c] s']; simpl in *; auto. apply Hk, Hm.
Qed.

Lemma spec_pre {A} (P P' : state -> Prop) (Q : result A -> state -> Prop) (m : M A) :
  (forall s, P' s -> P s) -> spec P m Q -> spec P' m Q.
Proof. intros HP H s Hs. apply H, HP, Hs. Qed.

Lemma spec_assume {A} (fact : Prop) (P : state -> Prop)
    (Q : result A -> state -> Prop) (m : M A) :
  (fact -> spec P m Q) -> spec (fun s => fact /\ P s) m Q.
Proof. intros H s [Hf Hs]. apply H; assumption. Qed.

Lemma spec_after {A B} (I : state -> Prop) (Q : result B -> state -> Prop)
    (m : M A) (k : A -> M B) :
  passes I m -> (forall a, spec I (k a) Q) -> spec I (bind m k) Q.
Proof.
  intros Hm Hk. eapply spec_bind; [exact Hm | | |].
  - intros a s [_ Hs]. apply Hk, Hs.
  - intros e s [[a Ha] _]. discriminate.
  - intros c s [[a Ha] _]. discriminate.
Qed.

Lemma print_all_eq (c : chan) (ts : list string) (s : state) :
  print_all c ts s = (Ok tt, set_out (fun o => o ++ map (pair c) ts) s).
Proof.
  revert s. induction ts as [|t ts IH]; intros s.
  - destruct s. cbn [print_all map]. run. now rewrite app_nil_r.
  - cbn [print_all map]. run. rewrite IH. destruct s. run.
    now rewrite <- app_assoc.
Qed.

Lemma compare_and_record_shapeless (E : env) (dry : bool) (v : json)
    (key content : string) (mk : bool) (dest : string)
    (entry : string -> string -> json) (s : state) :
  not_a_manifest v ->
  compare_and_record E dry v key content mk dest entry s = (Throw TypeError, s).
Proof.
  intros Hv. unfold compare_and_record. cbv zeta.
  destruct Hv; cbn [member]; run; rewrite ?H; reflexivity.
Qed.

Lemma fetch_log_stderr (slug : string) (a : http_result) :
  Forall (fun l => fst l <> ConsoleLog) (fetch_log slug a).
Proof.
  unfold fetch_log. repeat case_match; repeat constructor; discriminate.
Qed.

Lemma claude_api_body_shapeless (E : env) (dry : bool) (v : json)
    (pre : list (chan * string)) (i : nat) (page : ClaudeApi.DocPage) :
  not_a_manifest v ->
  spec (quiet v pre) (ClaudeApi.loop_body E dry v i page)
    (fun r s =>
       quiet v pre s /\
       match accepted (http E (Some i)
                (ClaudeApi.BASE_URL +:+ "/" +:+ ClaudeApi.slug page +:+ ".md")) with
       | None => r = Ok tt
       | Some _ => r = Throw TypeError
       end).
Proof.
  intros Hv s (Hm & rest & Hout & Hrest).
  unfold ClaudeApi.loop_body. run. rewrite fetchDoc_eq. cbv zeta. cbn [cursor].
  set (a := http E (Some i) _).
  assert (Hq : forall s', manifest_file s' = manifest_file s ->
             out s' = (out s ++ [(StdoutWrite, "Fetching " +:+ ClaudeApi.slug page +:+ "...")])
                      ++ fetch_log (ClaudeApi.slug page) a ->
             quiet v pre s').
  { intros s' Hm' Hout'. split; [congruence|].
    exists (rest ++ [(StdoutWrite, "Fetching " +:+ ClaudeApi.slug page +:+ "...")]
            ++ fetch_log (ClaudeApi.slug page) a).
    split.
    - rewrite Hout', Hout, <- !app_assoc. reflexivity.
    - apply Forall_app; split; [exact Hrest|].
      apply Forall_app; split; [repeat constructor; discriminate | apply fetch_log_stderr]. }
  destruct (accepted a) as [content|] eqn:Ha; run.
  - rewrite (accepted_not_empty _ _ Ha). run.
    rewrite compare_and_record_shapeless by exact Hv. cbn [fst snd].
    split; [|reflexivity]. apply Hq; reflexivity.
  - split; [|reflexivity]. apply Hq; reflexivity.
Qed.

Lemma claude_api_loop_shapeless (E : env) (dry : bool) (v : json)
    (pre : list (chan * string)) (pages : list ClaudeApi.DocPage) :
  not_a_manifest v ->
  forall i,
  spec (quiet v pre) (for_of (ClaudeApi.loop_body E dry v) i pages)
    (fun r s =>
       quiet v pre s /\
       (r = Throw TypeError \/
        r = Ok tt /\
        forall j page, pages !! j = Some page ->
          accepted (http E (Some (i + j))
             (ClaudeApi.BASE_URL +:+ "/" +:+ ClaudeApi.slug page +:+ ".md")) = None)).
Proof.
  intros Hv. induction pages as [|page pages IH]; intros i.
  - intros s Hs. cbn. split; [exact Hs|]. right. split; [reflexivity|].
    intros j p Hj. rewrite lookup_nil in Hj. discriminate.
  - cbn [for_of]. eapply spec_bind.
    + apply claude_api_body_shapeless, Hv.
    + intros [] s [Hs Hacc]. specialize (IH (S i) s Hs).
      destruct IH as [Hq [Hthrow|[Hok Hall]]].
      * split; [exact Hq|]. left. exact Hthrow.
      * split; [exact Hq|]. right. split; [exact Hok|].
        intros [|j] p Hj; cbn in Hj.
        -- injection Hj as <-. rewrite Nat.add_0_r.
           destruct (accepted _); [discriminate | reflexivity].
        -- replace (i + S j) with (S i + j) by lia. apply Hall, Hj.
    + intros e s [Hs Hacc]. split; [exact Hs|]. left.
      destruct (accepted _); [exact Hacc | discriminate].
    + intros c s [Hs Hacc]. destruct (accepted _); discriminate.
Qed.

Lemma mkdir_eq (E : env) (path : string) (s : state) :
  mkdir_fails E path = None ->
  mkdir E path s =
  (Ok tt, set_dirs (fun d => {[path]} ∪ d)
            (set_trace (fun t => t ++ [(cursor s, IoMkdir path)]) s)).
Proof. intros H. unfold mkdir. run. rewrite H. reflexivity. Qed.

Lemma mkdir_passes (E : env) (I : state -> Prop) (path : string) :
  mkdir_fails E path = None ->
  (forall s d t, I s -> I (set_dirs d (set_trace t s))) ->
  passes I (mkdir E path).
Proof.
  intros H HI s Hs. rewrite mkdir_eq by exact H. cbn [fst snd].
  split; [eexists; reflexivity | apply HI, Hs].
Qed.

Lemma passes_for_of {A} (I : state -> Prop) (body : nat -> A -> M unit) (xs : list A) :
  (forall i x, passes I (body i x)) -> forall i, passes I (for_of body i xs).
Proof.
  intros Hb. induction xs as [|x xs IH]; intros i; cbn [for_of].
  - intros s Hs. split; [eexists; reflexivity | exact Hs].
  - apply spec_after; [apply Hb | intros _; apply IH].
Qed.

Lemma quiet_blind (v : json) (pre : list (chan * string)) (s : state)
    (d : gset string -> gset string)
    (t : list (option nat * io) -> list (option nat * io)) :
  quiet v pre s -> quiet v pre (set_dirs d (set_trace t s)).
Proof. intros H. exact H. Qed.

(** C10.  When the manifest file parses to a value that is not an
    object with a [files] table (for instance [null], a number, or an
    object without [files]), [loadManifest] returns that value as it
    is, and the claude-api run throws a TypeError at the first page
    whose fetch succeeds: the run ends there, after the banner nothing
    has gone to [console.log] (so no summary), the manifest file has
    not been rewritten, and the rejection is printed by the script's
    last line, which exits with status zero. *)
Theorem shapeless_manifest_aborts (E : env) (pages : list ClaudeApi.DocPage)
    (argv : list string) (s : state) (v : json) (j : nat) (page : ClaudeApi.DocPage) :
  manifest_file s = MJson v ->
  not_a_manifest v ->
  (dry_run_flag argv = false -> forall p, mkdir_fails E p = None) ->
  pages !! j = Some page ->
  accepted (http E (Some j) (ClaudeApi.BASE_URL +:+ "/" +:+ ClaudeApi.slug page +:+ ".md"))
    <> None ->
  fst (loadManifest E ClaudeApi.fresh_manifest s) = Ok v /\
  let r := ClaudeApi.main E pages argv s in
  fst r = Throw TypeError /\
  manifest_file (snd r) = MJson v /\
  (exists rest,
     out (snd r) = (out s ++ map (pair ConsoleLog) (ClaudeApi.banner E (dry_run_flag argv)))
                   ++ rest /\
     Forall (fun l => fst l <> ConsoleLog) rest) /\
  fst (ClaudeApi.script E pages argv s) = 0%Z.
Proof.
  intros Hfile Hv Hmk Hj Hacc.
  split; [rewrite loadManifest_eq, Hfile; reflexivity|].
  set (pre := out s ++ map (pair ConsoleLog) (ClaudeApi.banner E (dry_run_flag argv))).
  assert (H : spec (fun s' => manifest_file s' = MJson v /\ out s' = out s)
                (ClaudeApi.main E pages argv)
                (fun r s' => r = Throw TypeError /\ quiet v pre s')).
  { unfold ClaudeApi.main. cbv zeta.
    eapply spec_bind with (Q1 := fun r s' => is_ok r /\ quiet v pre s').
    { intros s' [Hm' Ho']. rewrite print_all_eq. cbn [fst snd].
      split; [eexists; reflexivity|]. split; [exact Hm'|].
      exists []. split; [|constructor]. destruct s'; cbn in *. subst.
      unfold pre. now rewrite app_nil_r. }
    2: { intros e s' [[a Ha] _]. discriminate. }
    2: { intros c s' [[a Ha] _]. discriminate. }
    intros u. apply (spec_pre (quiet v pre)); [intros s' [_ Hs']; exact Hs'|].
    apply spec_after.
    { destruct (dry_run_flag argv).
      - intros s' Hs'. split; [eexists; reflexivity | exact Hs'].
      - apply spec_after.
        + apply mkdir_passes; [apply Hmk; reflexivity | intros; now apply quiet_blind].
        + intros _. apply passes_for_of. intros i x.
          apply mkdir_passes; [apply Hmk; reflexivity | intros; now apply quiet_blind]. }
    intros _. eapply spec_bind with (Q1 := fun r s' => r = Ok v /\ quiet v pre s').
    - intros s' Hs'. rewrite loadManifest_eq. destruct Hs' as [Hm' Ho']. rewrite Hm'.
      cbn [fst snd]. split; [reflexivity|]. split; [exact Hm' | exact Ho'].
    - intros manifest. apply spec_assume. intros [= ->]. apply spec_after.
      { intros s' Hs'. split; [eexists; reflexivity | exact Hs']. }
      intros _. eapply spec_bind.
      + apply (claude_api_loop_shapeless E (dry_run_flag argv) v pre pages Hv 0).
      + intros [] s' [Hs' [Hthrow|[_ Hall]]]; [discriminate|].
        exfalso. apply Hacc. apply (Hall j page Hj).
      + intros e s' [Hs' [Hthrow|[Hok _]]]; [|discriminate].
        split; [exact Hthrow | exact Hs'].
      + intros c s' [Hs' [Hthrow|[Hok _]]]; discriminate.
    - intros e s' [Heq _]. discriminate.
    - intros c s' [Heq _]. discriminate. }
  specialize (H s (conj Hfile eq_refl)).
  cbv zeta. unfold ClaudeApi.script, catch_console_error.
  destruct (ClaudeApi.main E pages argv s) as [r s1]. cbn [fst snd] in *.
  destruct H as [-> [Hm Hq]]. repeat split; [exact Hm | exact Hq].
Qed.

(** The statement at a manifest file that holds the number 7. *)
Lemma shapeless_manifest_aborts_witness :
  let s := boot ∅ (MJson (JNum 7)) in
  fst (loadManifest sample_env ClaudeApi.fresh_manifest s) = Ok (JNum 7) /\
  let r := ClaudeApi.main sample_env [intro_page] [] s in
  fst r = Throw TypeError /\
  manifest_file (snd r) = MJson (JNum 7) /\
  (exists rest,
     out (snd r) = (out s ++ map (pair ConsoleLog) (ClaudeApi.banner sample_env false))
                   ++ rest /\
     Forall (fun l => fst l <> ConsoleLog) rest) /\
  fst (ClaudeApi.script sample_env [intro_page] [] s) = 0%Z.
Proof.
  apply (shapeless_manifest_aborts sample_env [intro_page] [] (boot ∅ (MJson (JNum 7)))
           (JNum 7) 0 intro_page).
  - reflexivity.
  - apply shape_num.
  - intros _ p. reflexivity.
  - reflexivity.
  - vm_compute. discriminate.
Defined.

(** * Exit status *)

Lemma ok_try_catch_inner {A} (m : M A) (h : string -> M A) :
  yields is_ok m -> yields is_ok (try_catch m h).
Proof.
  intros Hm s. unfold try_catch. destruct (Hm s) as [a Ha].
  destruct (m s) as [r s']; simpl in *; subst r. exists a; reflexivity.
Qed.

Lemma print_all_ok (c : chan) (ts : list string) : yields is_ok (print_all c ts).
Proof. intros s. rewrite print_all_eq. exists tt; reflexivity. Qed.

Lemma member_no_exit (v : option json) (k : string) : yields no_exit (lift (member v k)).
Proof. intros s c. destruct v as [[]|]; discriminate. Qed.

Ltac outcome_leaf :=
  let s := fresh "s" in
  intros s;
  unfold manifest_exists, read_manifest, init_locals, saveManifest;
  run; repeat (case_match; run);
  first [ eexists; reflexivity | (let c := fresh "c" in intros c; discriminate) ].

Ltac outcome_unfold m :=
  match m with
  | fetch _ _ => unfold fetch, fetch_send
  | fetchDoc _ _ _ => unfold fetchDoc
  | loadManifest _ _ => unfold loadManifest
  | mkdir _ _ => unfold mkdir
  | writeFile _ _ _ => unfold writeFile
  | store _ _ _ _ => unfold store
  | sleep _ => unfold sleep
  | text _ => unfold text
  | call _ => unfold call
  | read_source _ _ => unfold read_source
  | git_sync _ _ _ => unfold git_sync
  | compare_and_record _ _ _ _ _ _ _ _ => unfold compare_and_record
  | (let _ := _ in _) => cbv zeta
  end.

Ltac no_exit_struct :=
  match goal with
  | |- yields no_exit (bind _ _) => apply no_exit_bind; [|intros ?]
  | |- yields no_exit (try_catch _ _) => apply no_exit_try_catch; [|intros ?]
  | |- yields no_exit (for_of _ _ _) => apply no_exit_for_of; intros ? ?
  | |- yields no_exit (print_all _ _) => apply ok_no_exit, print_all_ok
  | |- yields no_exit (lift (member _ _)) => apply member_no_exit
  | |- yields no_exit (if ?b then _ else _) => destruct b
  | |- yields no_exit (match ?x with _ => _ end) => destruct x
  | |- yields no_exit ?m => outcome_unfold m
  end.

Ltac no_exit_auto := repeat no_exit_struct; try outcome_leaf.

Ltac ok_struct :=
  match goal with
  | |- yields is_ok (bind _ _) => apply ok_bind; [|intros ?]
  | |- yields is_ok (try_catch _ _) => apply ok_try_catch; [no_exit_auto|intros ?]
  | |- yields is_ok (for_of _ _ _) => apply ok_for_of; intros ? ?
  | |- yields is_ok (print_all _ _) => apply print_all_ok
  | |- yields is_ok (if ?b then _ else _) => destruct b
  | |- yields is_ok (match ?x with _ => _ end) => destruct x
  | |- yields is_ok (let (_, _) := ?x in _) => destruct x
  | |- yields is_ok ?m => outcome_unfold m
  end.

Ltac ok_auto := repeat ok_struct; try outcome_leaf.

Lemma awaited_status (m : M unit) (s : state) :
  fst (top_level_await m s) =
  match fst (m s) with Ok _ => 0%Z | Throw _ => 1%Z | Exit c => c end.
Proof. unfold top_level_await. destruct (m s) as [[a|e|c] s']; reflexivity. Qed.

Lemma claude_api_never_exits (E : env) (pages : list ClaudeApi.DocPage) (argv : list string) :
  yields no_exit (ClaudeApi.main E pages argv).
Proof.
  unfold ClaudeApi.main, ClaudeApi.summary, ClaudeApi.loop_body. no_exit_auto.
Qed.

Lemma claude_code_never_exits (E : env) (pages : list ClaudeCode.DocPage) (argv : list string) :
  yields no_exit (ClaudeCode.main E pages argv).
Proof.
  unfold ClaudeCode.main, ClaudeCode.summary, ClaudeCode.loop_body, ClaudeCode.changelog.
  no_exit_auto.
Qed.

Lemma git_sync_eq (E : env) (url dir : string) (s : state) :
  git_sync E url dir s =
  match git E url with
  | Some head =>
      (Ok (Js.trim head),
       set_dirs (fun d => {[dir]} ∪ d) (set_trace (fun t => t ++ [(cursor s, IoGit url)]) s))
  | None =>
      (Throw "ShellError: git exited with a non-zero code",
       set_trace (fun t => t ++ [(cursor s, IoGit url)]) s)
  end.
Proof. unfold git_sync. run. destruct (git E url); reflexivity. Qed.

(** * Running a sequence step by step *)

Lemma bind_ok {A B} (m : M A) (k : A -> M B) (s s' : state) (a : A) :
  m s = (Ok a, s') -> bind m k s = k a s'.
Proof. intros H. unfold bind. now rewrite H. Qed.

Lemma bind_throw {A B} (m : M A) (k : A -> M B) (s s' : state) (e : string) :
  m s = (Throw e, s') -> bind m k s = (Throw e, s').
Proof. intros H. unfold bind. now rewrite H. Qed.

Lemma bind_exit {A B} (m : M A) (k : A -> M B) (s s' : state) (c : Z) :
  m s = (Exit c, s') -> bind m k s = (Exit c, s').
Proof. intros H. unfold bind. now rewrite H. Qed.

(** A clone that fails inside its [try] block: the handler prints the
    complaint and exits with status one. *)
Lemma guarded_clone_fails {A} (clone : M string) (k : string -> M A)
    (complaint e : string) (s s' : state) :
  clone s = (Throw e, s') ->
  try_catch (bind clone k)
    (fun error => print ConsoleError (complaint +:+ error) ;; process_exit 1%Z) s
  = (Exit 1%Z, set_out (fun o => o ++ [(ConsoleError, complaint +:+ e)]) s').
Proof. intros H. unfold try_catch, bind. rewrite H. reflexivity. Qed.

Lemma caught_normally (m : M unit) (s : state) :
  yields no_exit m -> ends_normally (m s) (catch_console_error m s).
Proof.
  intros H. unfold ends_normally, catch_console_error. specialize (H s).
  destruct (m s) as [[a|e|c] s']; cbn [fst snd]; auto.
  exfalso. exact (H c eq_refl).
Qed.

Ltac stopped_here :=
  unfold stopped_at; settle;
  split; [rewrite <- ?app_assoc; reflexivity|];
  split; [reflexivity|];
  split; [reflexivity|];
  eexists; apply last_snoc.

Lemma openai_codex_status (E : env) (docs : list OpenaiCodex.Doc)
    (argv : list string) (s : state) :
  let r := OpenaiCodex.script E docs argv s in
  match git E OpenaiCodex.REPO_URL with
  | Some _ => ends_normally (OpenaiCodex.main E docs argv s) r
  | None =>
      fst r = 1%Z /\
      stopped_at [IoGit OpenaiCodex.REPO_URL] "Failed to clone/update repository: " s (snd r)
  end.
Proof.
  cbv zeta. unfold OpenaiCodex.script.
  destruct (git E OpenaiCodex.REPO_URL) as [head|] eqn:Hgit.
  - apply caught_normally.
    unfold OpenaiCodex.main, OpenaiCodex.summary, OpenaiCodex.loop_body. cbv zeta.
    apply no_exit_bind; [no_exit_auto|]. intros _.
    apply no_exit_bind; [|intros commitHash; no_exit_auto].
    apply ok_no_exit, ok_try_catch_inner.
    apply ok_bind; [|intros c; ok_auto].
    unfold OpenaiCodex.cloneOrPullRepo.
    apply ok_bind; [ok_auto|]. intros _ s'. rewrite git_sync_eq, Hgit.
    eexists; reflexivity.
  - unfold catch_console_error, OpenaiCodex.main. cbv zeta.
    rewrite (bind_ok _ _ _ _ _ (print_all_eq _ _ _)).
    assert (Hclone : forall s1,
              OpenaiCodex.cloneOrPullRepo E s1 =
              (Throw "ShellError: git exited with a non-zero code",
               set_trace (fun t => t ++ [(cursor s1, IoGit OpenaiCodex.REPO_URL)])
                 (set_out (fun o => o ++ [(ConsoleLog,
                              if dir_exists E OpenaiCodex.TEMP_DIR
                              then "Updating existing clone..."
                              else "Cloning repository...")]) s1))).
    { intros s1. unfold OpenaiCodex.cloneOrPullRepo.
      destruct (dir_exists E OpenaiCodex.TEMP_DIR); run; rewrite git_sync_eq, Hgit;
        reflexivity. }
    rewrite (bind_exit _ _ _ _ _ (guarded_clone_fails _ _ _ _ _ _ (Hclone _))).
    split; [cbn [fst]; reflexivity|]. stopped_here.
Qed.

Lemma gemini_cli_status (E : env) (docs : list string) (argv : list string) (s : state) :
  let r := GeminiCli.script E docs argv s in
  match git E GeminiCli.REPO_URL with
  | Some _ => ends_normally (GeminiCli.main E docs argv s) r
  | None =>
      fst r = 1%Z /\
      stopped_at [IoGit GeminiCli.REPO_URL] "Failed to clone/update repository: " s (snd r)
  end.
Proof.
  cbv zeta. unfold GeminiCli.script.
  destruct (git E GeminiCli.REPO_URL) as [head|] eqn:Hgit.
  - apply caught_normally.
    unfold GeminiCli.main, GeminiCli.summary, GeminiCli.loop_body. cbv zeta.
    apply no_exit_bind; [no_exit_auto|]. intros _.
    apply no_exit_bind; [|intros commitHash; no_exit_auto].
    apply ok_no_exit, ok_try_catch_inner.
    apply ok_bind; [|intros c; ok_auto].
    unfold GeminiCli.cloneOrPullRepo.
    apply ok_bind; [ok_auto|]. intros _ s'. rewrite git_sync_eq, Hgit.
    eexists; reflexivity.
  - unfold catch_console_error, GeminiCli.main. cbv zeta.
    rewrite (bind_ok _ _ _ _ _ (print_all_eq _ _ _)).
    assert (Hclone : forall s1,
              GeminiCli.cloneOrPullRepo E s1 =
              (Throw "ShellError: git exited with a non-zero code",
               set_trace (fun t => t ++ [(cursor s1, IoGit GeminiCli.REPO_URL)])
                 (set_out (fun o => o ++ [(ConsoleLog,
                              if dir_exists E GeminiCli.TEMP_DIR
                              then "Updating existing clone..."
                              else "Cloning repository...")]) s1))).
    { intros s1. unfold GeminiCli.cloneOrPullRepo.
      destruct (dir_exists E GeminiCli.TEMP_DIR); run; rewrite git_sync_eq, Hgit;
        reflexivity. }
    rewrite (bind_exit _ _ _ _ _ (guarded_clone_fails _ _ _ _ _ _ (Hclone _))).
    split; [cbn [fst]; reflexivity|]. stopped_here.
Qed.

Lemma openai_api_status (E : env) (sdk cookbook : list OpenaiApi.Doc)
    (argv : list string) (s : state) :
  let r := OpenaiApi.script E sdk cookbook argv s in
  match git E OpenaiApi.PYTHON_SDK_URL, git E OpenaiApi.COOKBOOK_URL with
  | Some _, Some _ => ends_normally (OpenaiApi.main E sdk cookbook argv s) r
  | None, _ =>
      fst r = 1%Z /\
      stopped_at [IoGit OpenaiApi.PYTHON_SDK_URL] "Failed to sync SDK: " s (snd r)
  | Some _, None =>
      fst r = 1%Z /\
      stopped_at [IoGit OpenaiApi.PYTHON_SDK_URL; IoGit OpenaiApi.COOKBOOK_URL]
        "Failed to sync cookbook: " s (snd r)
  end.
Proof.
  cbv zeta. unfold OpenaiApi.script.
  assert (Hclone : forall url dir h k handler,
            git E url = Some h ->
            yields is_ok (try_catch (bind (OpenaiApi.cloneOrPull E url dir)
                                       (fun c => bind (print ConsoleLog (k c)) (fun _ => ret c)))
                                    handler)).
  { intros url dir h k handler Hh. apply ok_try_catch_inner.
    apply ok_bind; [|intros c; ok_auto].
    intros s'. unfold OpenaiApi.cloneOrPull. rewrite git_sync_eq, Hh. eexists; reflexivity. }
  assert (Hfail : forall url dir s1,
            git E url = None ->
            OpenaiApi.cloneOrPull E url dir s1 =
            (Throw "ShellError: git exited with a non-zero code",
             set_trace (fun t => t ++ [(cursor s1, IoGit url)]) s1)).
  { intros url dir s1 Hn. unfold OpenaiApi.cloneOrPull. rewrite git_sync_eq, Hn.
    reflexivity. }
  destruct (git E OpenaiApi.PYTHON_SDK_URL) as [h1|] eqn:H1.
  - destruct (git E OpenaiApi.COOKBOOK_URL) as [h2|] eqn:H2.
    + apply caught_normally.
      unfold OpenaiApi.main, OpenaiApi.summary, OpenaiApi.loop_body. cbv zeta.
      apply no_exit_bind; [no_exit_auto|]. intros _.
      apply no_exit_bind; [no_exit_auto|]. intros _.
      apply no_exit_bind; [eapply ok_no_exit, Hclone, H1|]. intros sdkCommit.
      apply no_exit_bind; [no_exit_auto|]. intros _.
      apply no_exit_bind; [eapply ok_no_exit, Hclone, H2|]. intros c.
      no_exit_auto.
    + unfold catch_console_error, OpenaiApi.main. cbv zeta.
      rewrite (bind_ok _ _ _ _ _ (print_all_eq _ _ _)).
      rewrite (bind_ok (print ConsoleLog _) _ _ _ tt eq_refl).
      erewrite bind_ok.
      2: { unfold try_catch, OpenaiApi.cloneOrPull. unfold bind at 1.
           rewrite git_sync_eq, H1. reflexivity. }
      rewrite (bind_ok (print ConsoleLog _) _ _ _ tt eq_refl).
      rewrite (bind_exit _ _ _ _ _ (guarded_clone_fails _ _ _ _ _ _ (Hfail _ _ _ H2))).
      split; [cbn [fst]; reflexivity|]. stopped_here.
  - unfold catch_console_error, OpenaiApi.main. cbv zeta.
    rewrite (bind_ok _ _ _ _ _ (print_all_eq _ _ _)).
    rewrite (bind_ok (print ConsoleLog _) _ _ _ tt eq_refl).
    rewrite (bind_exit _ _ _ _ _ (guarded_clone_fails _ _ _ _ _ _ (Hfail _ _ _ H1))).
    destruct (git E OpenaiApi.COOKBOOK_URL);
      (split; [cbn [fst]; reflexivity|]; stopped_here).
Qed.

Lemma fetch_batches_ok (E : env) (pages : list GeminiDev.DocPage) (fuel i : nat) :
  yields is_ok (GeminiDev.fetch_batches E pages fuel i).
Proof.
  assert (Hsend : forall batch j, yields is_ok (GeminiDev.send_all j batch)).
  { induction batch as [|page rest IH]; intros j; cbn [GeminiDev.send_all]; [ok_auto|].
    apply ok_bind; [ok_auto|]. intros _.
    apply ok_bind; [unfold GeminiDev.fetchPage_send, fetch_send; ok_auto|].
    intros _. apply IH. }
  assert (Hsettle : forall batch j, yields is_ok (GeminiDev.settle_all E j batch)).
  { induction batch as [|page rest IH]; intros j; cbn [GeminiDev.settle_all]; [ok_auto|].
    apply ok_bind; [ok_auto|]. intros _.
    apply ok_bind.
    { unfold GeminiDev.fetchPage_settle. apply ok_try_catch; [|intros e; ok_auto].
      unfold fetch_settle. no_exit_auto. }
    intros r. apply ok_bind; [apply IH | intros rs; ok_auto]. }
  revert i. induction fuel as [|fuel IH]; intros i; cbn [GeminiDev.fetch_batches];
    [ok_auto|].
  destruct (i <? length pages); [|ok_auto].
  cbv zeta. apply ok_bind.
  - unfold GeminiDev.promise_all_fetchPage. apply ok_bind; [apply Hsend|].
    intros _. apply Hsettle.
  - intros batchResults. apply ok_bind; [apply IH | intros results; ok_auto].
Qed.

Lemma process_result_ok (E : env) (outputDir : string) (dryRun : bool) (i : nat)
    (r : GeminiDev.DocPage * option string) :
  yields is_ok (GeminiDev.process_result E outputDir dryRun i r).
Proof.
  unfold GeminiDev.process_result, GeminiDev.cleanMarkdown. ok_auto.
Qed.

Lemma gemini_sync_ok (E : env) (pages : list GeminiDev.DocPage)
    (outputDir : string) (dryRun : bool) :
  (dryRun = false ->
   mkdir_fails E outputDir = None /\
   mkdir_fails E (Js.join outputDir "multimodal") = None) ->
  yields is_ok (GeminiDev.syncDocs E pages outputDir dryRun).
Proof.
  intros Hmk. unfold GeminiDev.syncDocs.
  apply ok_bind; [ok_auto|]. intros _.
  apply ok_bind; [ok_auto|]. intros _.
  apply ok_bind.
  { destruct dryRun; [ok_auto|]. destruct (Hmk eq_refl) as [H1 H2].
    apply ok_bind; [intros s'; rewrite mkdir_eq by exact H1; eexists; reflexivity|].
    intros _ s'. rewrite mkdir_eq by exact H2. eexists; reflexivity. }
  intros _. apply ok_bind; [ok_auto|]. intros _.
  apply ok_bind; [apply fetch_batches_ok|]. intros results.
  apply ok_bind; [apply ok_for_of; intros j r; apply process_result_ok|]. intros _.
  ok_auto.
Qed.


(** The gemini-dev script ends with a non-zero status exactly when a
    live run cannot create its output directories, and then before any
    page is requested. *)
Lemma gemini_status (E : env) (pages : list GeminiDev.DocPage)
    (outputDir : string) (dryRun : bool) (s : state) :
  let r := GeminiDev.script E pages outputDir dryRun s in
  if dryRun then fst r = 0%Z
  else match mkdir_fails E outputDir, mkdir_fails E (Js.join outputDir "multimodal") with
       | None, None => fst r = 0%Z
       | Some e, _ =>
           fst r = 1%Z /\ stopped_at [IoMkdir outputDir] EmptyString s (snd r)
       | None, Some e =>
           fst r = 1%Z /\
           stopped_at [IoMkdir outputDir; IoMkdir (Js.join outputDir "multimodal")]
             EmptyString s (snd r)
       end.
Proof.
  cbv zeta. unfold GeminiDev.script.
  destruct dryRun.
  - rewrite awaited_status.
    destruct (gemini_sync_ok E pages outputDir true) with (s := s) as [a Ha];
      [discriminate|]. rewrite Ha. reflexivity.
  - destruct (mkdir_fails E outputDir) as [e1|] eqn:H1.
    + unfold top_level_await, GeminiDev.syncDocs. cbv beta iota.
      rewrite (bind_ok (print ConsoleLog _) _ _ _ tt eq_refl).
      rewrite (bind_ok (ret tt) _ _ _ tt eq_refl).
      erewrite bind_throw.
      2: { apply bind_throw. unfold mkdir. run. rewrite H1. reflexivity. }
      split; [cbn [fst]; reflexivity|]. stopped_here.
    + destruct (mkdir_fails E (Js.join outputDir "multimodal")) as [e2|] eqn:H2.
      * unfold top_level_await, GeminiDev.syncDocs. cbv beta iota.
        rewrite (bind_ok (print ConsoleLog _) _ _ _ tt eq_refl).
        rewrite (bind_ok (ret tt) _ _ _ tt eq_refl).
        erewrite bind_throw.
        2: { erewrite bind_ok; [|apply mkdir_eq, H1].
             unfold mkdir. run. rewrite H2. reflexivity. }
        split; [cbn [fst]; reflexivity|]. stopped_here.
      * rewrite awaited_status.
        destruct (gemini_sync_ok E pages outputDir false) with (s := s) as [a Ha];
          [intros _; split; assumption|]. rewrite Ha. reflexivity.
Qed.

(** C7, as amended.  The two direct-URL scripts always exit with status
    zero; when [main] rejects, the error is printed by
    [main().catch(console.error)] as the last line of the run.  The
    three repository scripts exit with status one exactly when a clone
    or update fails: the run has then done nothing but the [git]
    commands (no resource was read or written, the destination files and
    the manifest file are as they were) and the last line printed is the
    complaint about the repository; when the clones succeed they end like
    the direct-URL scripts, with status zero.  The gemini-dev script
    awaits [syncDocs] at top level without a handler: once its command
    line is parsed, it exits with status one exactly when a live run
    fails to create one of its two output directories, and then it has
    done nothing but these [mkdir] calls (no page was requested); it
    exits with zero in every other case.  So a non-zero status always
    comes before the first resource, and every run that gets to its
    resource loop exits with zero, whatever failed in the loop. *)
Theorem exit_status (E : env) :
  (forall pages argv s,
     ends_normally (ClaudeApi.main E pages argv s) (ClaudeApi.script E pages argv s)) /\
  (forall pages argv s,
     ends_normally (ClaudeCode.main E pages argv s) (ClaudeCode.script E pages argv s)) /\
  (forall docs argv s,
     let r := OpenaiCodex.script E docs argv s in
     match git E OpenaiCodex.REPO_URL with
     | Some _ => ends_normally (OpenaiCodex.main E docs argv s) r
     | None =>
         fst r = 1%Z /\
         stopped_at [IoGit OpenaiCodex.REPO_URL] "Failed to clone/update repository: "
           s (snd r)
     end) /\
  (forall docs argv s,
     let r := GeminiCli.script E docs argv s in
     match git E GeminiCli.REPO_URL with
     | Some _ => ends_normally (GeminiCli.main E docs argv s) r
     | None =>
         fst r = 1%Z /\
         stopped_at [IoGit GeminiCli.REPO_URL] "Failed to clone/update repository: "
           s (snd r)
     end) /\
  (forall sdk cookbook argv s,
     let r := OpenaiApi.script E sdk cookbook argv s in
     match git E OpenaiApi.PYTHON_SDK_URL, git E OpenaiApi.COOKBOOK_URL with
     | Some _, Some _ => ends_normally (OpenaiApi.main E sdk cookbook argv s) r
     | None, _ =>
         fst r = 1%Z /\
         stopped_at [IoGit OpenaiApi.PYTHON_SDK_URL] "Failed to sync SDK: " s (snd r)
     | Some _, None =>
         fst r = 1%Z /\
         stopped_at [IoGit OpenaiApi.PYTHON_SDK_URL; IoGit OpenaiApi.COOKBOOK_URL]
           "Failed to sync cookbook: " s (snd r)
     end) /\
  (forall pages outputDir dryRun s,
     let r := GeminiDev.script E pages outputDir dryRun s in
     if dryRun then fst r = 0%Z
     else match mkdir_fails E outputDir,
                mkdir_fails E (Js.join outputDir "multimodal") with
          | None, None => fst r = 0%Z
          | Some e, _ =>
              fst r = 1%Z /\ stopped_at [IoMkdir outputDir] EmptyString s (snd r)
          | None, Some e =>
              fst r = 1%Z /\
              stopped_at [IoMkdir outputDir; IoMkdir (Js.join outputDir "multimodal")]
                EmptyString s (snd r)
          end).
Proof.
  split; [|split; [|split; [|split; [|split]]]].
  - intros. apply caught_normally, claude_api_never_exits.
  - intros. apply caught_normally, claude_code_never_exits.
  - intros. apply openai_codex_status.
  - intros. apply gemini_cli_status.
  - intros. apply openai_api_status.
  - intros. apply gemini_status.
Qed.

(** The statement at the openai-codex script without access to its
    repository, and at the claude-api script over a manifest file that
    holds a number: the first exits with status one after the [git]
    command alone, the second prints the TypeError and exits with
    zero. *)
Lemma exit_status_witness :
  (let r := OpenaiCodex.script offline_env [readme_doc] [] (boot ∅ MAbsent) in
   fst r = 1%Z /\
   trace (snd r) = [(None, IoGit OpenaiCodex.REPO_URL)] /\
   files (snd r) = ∅ /\ manifest_file (snd r) = MAbsent) /\
  (let r := ClaudeApi.script sample_env [intro_page] [] (boot ∅ (MJson (JNum 7))) in
   fst r = 0%Z /\ last (out (snd r)) = Some (ConsoleError, TypeError)).
Proof.
  destruct (exit_status offline_env) as (_ & _ & Hcodex & _).
  destruct (exit_status sample_env) as (Hapi & _).
  split.
  - destruct (Hcodex [readme_doc] [] (boot ∅ MAbsent)) as (Hexit & Htrace & Hfiles & Hm & _).
    cbv zeta. repeat split; assumption.
  - destruct (Hapi [intro_page] [] (boot ∅ (MJson (JNum 7)))) as [Hexit Hlast].
    cbv zeta. split; [exact Hexit|].
    revert Hlast.
    replace (fst (ClaudeApi.main sample_env [intro_page] [] (boot ∅ (MJson (JNum 7)))))
      with (@Throw unit TypeError) by (vm_compute; reflexivity).
    intros ->. apply last_snoc.
Defined.

(** C7, as stated, fails for the gemini-dev script: a live run that
    cannot create its output directory exits with status one; no
    repository is involved and the only I/O action is the [mkdir]. *)
Lemma gemini_exits_nonzero_without_clone :
  let r := GeminiDev.script read_only_env [sample_page] "/out" false (boot ∅ MAbsent) in
  fst r = 1%Z /\
  trace (snd r) = [(None, IoMkdir "/out")] /\
  (forall url, ~ In (None, IoGit url) (trace (snd r))).
Proof.
  vm_compute. repeat split. intros url [H|[]]. discriminate.
Qed.

(** * Two runs side by side *)

Lemma sim_bind {A A' B B'} (P Q R : state -> state -> Prop)
    (V : A -> A' -> Prop) (W : B -> B' -> Prop)
    (m1 : M A) (m2 : M A') (k1 : A -> M B) (k2 : A' -> M B') :
  sim P m1 m2 V Q ->
  (forall a b, V a b -> sim Q (k1 a) (k2 b) W R) ->
  (forall s1 s2, Q s1 s2 -> R s1 s2) ->
  sim P (bind m1 k1) (bind m2 k2) W R.
Proof.
  intros Hm Hk HQR s1 s2 HP. unfold bind. destruct (Hm s1 s2 HP) as [Hr HQ].
  destruct (m1 s1) as [[a|e|c] s1'], (m2 s2) as [[b|e'|c'] s2']; simpl in *;
    try contradiction; auto.
  apply Hk; assumption.
Qed.

Lemma sim_try_catch {A A'} (P Q R : state -> state -> Prop) (V : A -> A' -> Prop)
    (m1 : M A) (m2 : M A') (h1 : string -> M A) (h2 : string -> M A') :
  sim P m1 m2 V Q ->
  (forall e, sim Q (h1 e) (h2 e) V R) ->
  (forall s1 s2, Q s1 s2 -> R s1 s2) ->
  sim P (try_catch m1 h1) (try_catch m2 h2) V R.
Proof.
  intros Hm Hh HQR s1 s2 HP. unfold try_catch. destruct (Hm s1 s2 HP) as [Hr HQ].
  destruct (m1 s1) as [[a|e|c] s1'], (m2 s2) as [[b|e'|c'] s2']; simpl in *;
    try contradiction; auto.
  subst e'. apply Hh, HQ.
Qed.

Lemma sim_for_of {A} (R : state -> state -> Prop) (b1 b2 : nat -> A -> M unit)
    (xs : list A) :
  (forall i x, sim R (b1 i x) (b2 i x) eq R) ->
  forall i, sim R (for_of b1 i xs) (for_of b2 i xs) eq R.
Proof.
  intros Hb. induction xs as [|x xs IH]; intros i; cbn [for_of].
  - intros s1 s2 HR. split; [reflexivity | exact HR].
  - eapply sim_bind; [apply Hb | intros _ _ _; apply IH | auto].
Qed.

Lemma sim_ret {A B} (R : state -> state -> Prop) (V : A -> B -> Prop) (a : A) (b : B) :
  V a b -> sim R (ret a) (ret b) V R.
Proof. intros HV s1 s2 HR. split; [exact HV | exact HR]. Qed.

Lemma sim_lift {A} (R : state -> state -> Prop) (r : result A) :
  sim R (lift r) (lift r) eq R.
Proof. intros s1 s2 HR. split; [destruct r; reflexivity | exact HR]. Qed.

Lemma sim_throw {A B} (R : state -> state -> Prop) (V : A -> B -> Prop) (e : string) :
  sim R (throw e) (throw e) V R.
Proof. intros s1 s2 HR. split; [reflexivity | exact HR]. Qed.

Lemma sim_process_exit {A B} (R : state -> state -> Prop) (V : A -> B -> Prop) (c : Z) :
  sim R (process_exit c) (process_exit c) V R.
Proof. intros s1 s2 HR. split; [reflexivity | exact HR]. Qed.

Lemma sim_modify (R : state -> state -> Prop) (f1 f2 : state -> state) :
  (forall s1 s2, R s1 s2 -> R (f1 s1) (f2 s2)) ->
  sim R (modify f1) (modify f2) eq R.
Proof. intros Hf s1 s2 HR. split; [reflexivity | apply Hf, HR]. Qed.

Lemma sim_get {A} (R : state -> state -> Prop) (f : state -> A) :
  (forall s1 s2, R s1 s2 -> f s1 = f s2) -> sim R (get f) (get f) eq R.
Proof. intros Hf s1 s2 HR. split; [apply Hf, HR | exact HR]. Qed.

(** The second run does something more, which goes well and is not
    observed. *)
Lemma sim_skip {A B} (R : state -> state -> Prop) (a : A) (m2 : M B) :
  (forall s1 s2, R s1 s2 -> is_ok (fst (m2 s2)) /\ R s1 (snd (m2 s2))) ->
  sim R (ret a) m2 any R.
Proof.
  intros H s1 s2 HR. destruct (H s1 s2 HR) as [[b Hb] HR'].
  cbn [ret fst snd]. rewrite Hb. split; [exact I | exact HR'].
Qed.

Section Agree.
Context (p1 p2 : list (chan * string)).
Abbreviation R := (agree p1 p2).

Lemma agree_print (c : chan) (t : string) : sim R (print c t) (print c t) eq R.
Proof.
  intros s1 s2 (Hc & Hf & Hu & Hx & rest & H1 & H2). split; [reflexivity|].
  unfold agree. run. repeat split; auto.
  exists (rest ++ [(c, t)]). rewrite H1, H2, !app_assoc. auto.
Qed.

Lemma agree_print_all (c : chan) (ts : list string) :
  sim R (print_all c ts) (print_all c ts) eq R.
Proof.
  induction ts as [|t ts IH]; cbn [print_all].
  - apply sim_ret. reflexivity.
  - eapply sim_bind; [apply agree_print | intros _ _ _; apply IH | auto].
Qed.

Lemma agree_record (a : io) : sim R (record a) (record a) eq R.
Proof. intros s1 s2 H. split; [reflexivity | exact H]. Qed.

Lemma agree_now (E : env) : sim R (now E) (now E) any R.
Proof. intros s1 s2 H. split; [exact I | exact H]. Qed.

Lemma agree_fetch_settle (E : env) (url : string) :
  sim R (fetch_settle E url) (fetch_settle E url) eq R.
Proof.
  intros s1 s2 H. unfold fetch_settle. destruct H as (Hc & H). rewrite Hc.
  destruct (http E (cursor s2) url); run; (split; [reflexivity|]);
    unfold agree; run; auto.
Qed.

End Agree.

Ltac agree_solve :=
  match goal with
  | H : agree _ _ _ _ |- _ => destruct H as (? & ? & ? & ? & ? & ? & ?)
  end;
  unfold agree; run; repeat split; auto; try congruence;
  eexists; split; eauto.

Ltac sim_unfold m :=
  match m with
  | fetch _ _ => unfold fetch, fetch_send
  | fetchDoc _ _ _ => unfold fetchDoc
  | sleep _ => unfold sleep
  | text _ => unfold text
  | read_source _ _ => unfold read_source
  | git_sync _ _ _ => unfold git_sync
  | init_locals => unfold init_locals
  | (let _ := _ in _) => cbv zeta
  end.

Ltac sim_with hook :=
  match goal with
  | H : ?x = ?y |- sim _ _ _ _ _ => is_var x; is_var y; subst x; sim_with hook
  | |- sim _ (bind _ _) (bind _ _) _ _ =>
      eapply sim_bind; [ sim_with hook | intros ? ? ?; sim_with hook | auto ]
  | |- sim _ (try_catch _ _) (try_catch _ _) _ _ =>
      eapply sim_try_catch; [ sim_with hook | intros ?; sim_with hook | auto ]
  | |- sim _ (for_of _ _ _) (for_of _ _ _) _ _ =>
      apply sim_for_of; intros ? ?; sim_with hook
  | |- sim _ (ret ?a) (ret ?a) _ _ => apply (sim_ret _ eq a a eq_refl)
  | |- sim _ (lift _) (lift _) _ _ => apply sim_lift
  | |- sim _ (throw _) (throw _) _ _ => apply sim_throw
  | |- sim _ (process_exit _) (process_exit _) _ _ => apply sim_process_exit
  | |- sim _ (print _ _) (print _ _) _ _ => apply agree_print
  | |- sim _ (print_all _ _) (print_all _ _) _ _ => apply agree_print_all
  | |- sim _ (record _) (record _) _ _ => apply agree_record
  | |- sim _ (now _) (now _) _ _ => apply agree_now
  | |- sim _ (fetch_settle _ _) (fetch_settle _ _) _ _ => apply agree_fetch_settle
  | |- sim _ (modify _) (modify _) _ _ => apply sim_modify; intros ? ? ?; agree_solve
  | |- sim _ (get _) (get _) _ _ =>
      apply sim_get; intros ? ? (? & ? & ? & ? & ?); assumption
  | |- sim _ (if ?b then _ else _) (if ?b then _ else _) _ _ =>
      destruct b; sim_with hook
  | |- sim _ (match ?x with _ => _ end) (match ?x with _ => _ end) _ _ =>
      destruct x; sim_with hook
  | |- sim _ ?m ?m _ _ => sim_unfold m; sim_with hook
  | _ => hook
  end.

Ltac sim_auto := sim_with idtac.

Lemma store_goes_well (E : env) (p1 p2 : list (chan * string))
    (mk : bool) (dest content : string) :
  healthy E ->
  forall s1 s2, agree p1 p2 s1 s2 ->
    is_ok (fst (store E mk dest content s2)) /\
    agree p1 p2 s1 (snd (store E mk dest content s2)).
Proof.
  intros Hfs s1 s2 H. unfold store, mkdir, writeFile.
  destruct (Hfs (Js.dirname dest)) as [Hm _]. destruct (Hfs dest) as [_ Hw].
  destruct mk; run; rewrite ?Hm; run; rewrite Hw; run;
    (split; [eexists; reflexivity | exact H]).
Qed.

(** The comparison prints and counts the same in a preview as in a live
    run whose writes succeed. *)
Lemma compare_and_record_sim (E : env) (p1 p2 : list (chan * string))
    (manifest : json) (key content : string) (mk : bool) (dest : string)
    (entry : string -> string -> json) :
  healthy E ->
  sim (agree p1 p2)
      (compare_and_record E true manifest key content mk dest entry)
      (compare_and_record E false manifest key content mk dest entry)
      eq (agree p1 p2).
Proof.
  intros Hfs. unfold compare_and_record. cbv zeta.
  eapply sim_bind; [apply sim_lift | intros table ? <- | auto].
  eapply sim_bind; [apply sim_lift | intros oldEntry ? <- | auto].
  destruct (same_hash oldEntry _); [sim_auto|].
  eapply sim_bind; [apply agree_print | intros _ _ _ | auto].
  eapply sim_bind; [sim_auto | intros _ _ _ | auto].
  eapply sim_bind; [apply sim_skip, store_goes_well, Hfs | intros _ _ _ | auto].
  eapply sim_bind; [apply agree_now | intros t1 t2 _ | auto].
  sim_auto.
Qed.

Lemma rel_res_eq {A} (r1 r2 : result A) : rel_res eq r1 r2 -> r1 = r2.
Proof. destruct r1, r2; simpl; intros H; try contradiction; now subst. Qed.

Lemma saveManifest_goes_well (E : env) (p1 p2 : list (chan * string))
    (meta : list (string * json)) :
  healthy E ->
  forall s1 s2, agree p1 p2 s1 s2 ->
    is_ok (fst (saveManifest E meta s2)) /\ agree p1 p2 s1 (snd (saveManifest E meta s2)).
Proof.
  intros Hfs s1 s2 H. unfold saveManifest. run.
  destruct (Hfs (MANIFEST_FILE E)) as [_ Hw]. rewrite Hw.
  split; [eexists; reflexivity | exact H].
Qed.

Lemma mkdir_goes_well (E : env) (p1 p2 : list (chan * string)) (path : string) (s1 : state) :
  healthy E -> passes (agree_m p1 p2 s1) (mkdir E path).
Proof.
  intros Hfs. apply mkdir_passes; [apply Hfs|]. intros s d t H. exact H.
Qed.

Lemma loadManifest_sim (E : env) (p1 p2 : list (chan * string)) (fresh : json) :
  sim (agree_m p1 p2) (loadManifest E fresh) (loadManifest E fresh) eq (agree p1 p2).
Proof.
  intros s1 s2 [H Hm]. rewrite !loadManifest_eq, Hm.
  assert (Hw : agree p1 p2
            (set_out (fun o => o ++ [load_warning])
               (set_trace (fun t => t ++ [(cursor s1, IoRead (MANIFEST_FILE E))]) s1))
            (set_out (fun o => o ++ [load_warning])
               (set_trace (fun t => t ++ [(cursor s2, IoRead (MANIFEST_FILE E))]) s2))).
  { destruct H as (Hc & Hf & Hu & Hx & rest & Ho1 & Ho2). unfold agree. run.
    repeat split; auto. exists (rest ++ [load_warning]).
    rewrite Ho1, Ho2, <- !app_assoc. auto. }
  destruct (manifest_file s2); cbn [fst snd]; (split; [reflexivity|]);
    try exact H; exact Hw.
Qed.

Ltac sim_script :=
  sim_with ltac:(first
    [ apply compare_and_record_sim; assumption
    | apply sim_skip, store_goes_well; assumption
    | apply sim_skip, saveManifest_goes_well; assumption
    | idtac ]).

Lemma banner_sim (b1 b2 : list string) (s : state) :
  sim (fun s1 s2 => s1 = s /\ s2 = s)
      (print_all ConsoleLog b1) (print_all ConsoleLog b2) eq
      (agree_m (out s ++ map (pair ConsoleLog) b1) (out s ++ map (pair ConsoleLog) b2)).
Proof.
  intros s1 s2 [-> ->]. rewrite !print_all_eq. cbn [fst snd]. split; [reflexivity|].
  split; [|reflexivity]. unfold agree. run. repeat split.
  exists []. now rewrite !app_nil_r.
Qed.

Lemma agree_m_agree (p1 p2 : list (chan * string)) (s1 s2 : state) :
  agree_m p1 p2 s1 s2 -> agree p1 p2 s1 s2.
Proof. intros [H _]. exact H. Qed.

Lemma claude_api_preview_sim (E : env) (pages : list ClaudeApi.DocPage)
    (argv1 argv2 : list string) (s : state) :
  dry_run_flag argv1 = true -> dry_run_flag argv2 = false -> healthy E ->
  sim (fun s1 s2 => s1 = s /\ s2 = s)
      (ClaudeApi.main E pages argv1) (ClaudeApi.main E pages argv2) eq
      (agree (out s ++ map (pair ConsoleLog) (ClaudeApi.banner E true))
             (out s ++ map (pair ConsoleLog) (ClaudeApi.banner E false))).
Proof.
  intros H1 H2 Hfs. unfold ClaudeApi.main. rewrite H1, H2. cbv beta iota zeta.
  eapply sim_bind; [apply banner_sim | intros _ _ _ | apply agree_m_agree].
  eapply sim_bind; [|intros _ _ _|apply agree_m_agree].
  { apply sim_skip. intros s1 s2. revert s2.
    match goal with
    | |- forall s2, agree_m ?P1 ?P2 _ _ -> _ =>
        apply (spec_after (agree_m P1 P2 s1) (fun r s' => is_ok r /\ agree_m P1 P2 s1 s'))
    end; [apply mkdir_goes_well, Hfs|].
    intros _. apply passes_for_of. intros i x. apply mkdir_goes_well, Hfs. }
  eapply sim_bind; [apply loadManifest_sim | intros manifest ? <- | auto].
  unfold ClaudeApi.loop_body, ClaudeApi.summary. sim_script.
Qed.

Lemma claude_code_preview_sim (E : env) (pages : list ClaudeCode.DocPage)
    (argv1 argv2 : list string) (s : state) :
  dry_run_flag argv1 = true -> dry_run_flag argv2 = false -> healthy E ->
  sim (fun s1 s2 => s1 = s /\ s2 = s)
      (ClaudeCode.main E pages argv1) (ClaudeCode.main E pages argv2) eq
      (agree (out s ++ map (pair ConsoleLog) (ClaudeCode.banner E true))
             (out s ++ map (pair ConsoleLog) (ClaudeCode.banner E false))).
Proof.
  intros H1 H2 Hfs. unfold ClaudeCode.main. rewrite H1, H2. cbv beta iota zeta.
  eapply sim_bind; [apply banner_sim | intros _ _ _ | apply agree_m_agree].
  eapply sim_bind; [|intros _ _ _|apply agree_m_agree].
  { apply sim_skip. intros s1 s2. revert s2. apply mkdir_goes_well, Hfs. }
  eapply sim_bind; [apply loadManifest_sim | intros manifest ? <- | auto].
  unfold ClaudeCode.loop_body, ClaudeCode.changelog, ClaudeCode.summary. sim_script.
Qed.

(** A step both runs take alike and that leaves the manifest file
    alone. *)
Lemma sim_keep_manifest {A} (p1 p2 : list (chan * string)) (m : M A) :
  sim (agree p1 p2) m m eq (agree p1 p2) ->
  (forall f, inv (fun s => manifest_file s = f) m) ->
  sim (agree_m p1 p2) m m eq (agree_m p1 p2).
Proof.
  intros Hs Hi s1 s2 [H Hm]. destruct (Hs s1 s2 H) as [Hr Ha].
  split; [exact Hr|]. split; [exact Ha|].
  pose proof (Hi _ s1 eq_refl) as E1. pose proof (Hi _ s2 eq_refl) as E2.
  cbn beta in E1, E2. congruence.
Qed.

Lemma openai_codex_preview_sim (E : env) (docs : list OpenaiCodex.Doc)
    (argv1 argv2 : list string) (s : state) :
  dry_run_flag argv1 = true -> dry_run_flag argv2 = false -> healthy E ->
  sim (fun s1 s2 => s1 = s /\ s2 = s)
      (OpenaiCodex.main E docs argv1) (OpenaiCodex.main E docs argv2) eq
      (agree (out s ++ map (pair ConsoleLog) (OpenaiCodex.banner E true))
             (out s ++ map (pair ConsoleLog) (OpenaiCodex.banner E false))).
Proof.
  intros H1 H2 Hfs. unfold OpenaiCodex.main. rewrite H1, H2. cbv beta iota zeta.
  eapply sim_bind; [apply banner_sim | intros _ _ _ | apply agree_m_agree].
  eapply sim_bind;
    [ apply sim_keep_manifest;
      [ unfold OpenaiCodex.cloneOrPullRepo; sim_auto
      | intros f; unfold OpenaiCodex.cloneOrPullRepo; inv_auto by idtac ]
    | intros commitHash ? <-
    | apply agree_m_agree ].
  eapply sim_bind; [|intros _ _ _|apply agree_m_agree].
  { apply sim_skip. intros s1 s2. revert s2.
    match goal with
    | |- forall s2, agree_m ?P1 ?P2 _ _ -> _ =>
        apply (spec_after (agree_m P1 P2 s1) (fun r s' => is_ok r /\ agree_m P1 P2 s1 s'))
    end; [apply mkdir_goes_well, Hfs|].
    intros _. apply mkdir_goes_well, Hfs. }
  eapply sim_bind; [apply loadManifest_sim | intros manifest ? <- | auto].
  unfold OpenaiCodex.loop_body, OpenaiCodex.summary. sim_script.
Qed.

Lemma gemini_cli_preview_sim (E : env) (docs : list string)
    (argv1 argv2 : list string) (s : state) :
  dry_run_flag argv1 = true -> dry_run_flag argv2 = false -> healthy E ->
  sim (fun s1 s2 => s1 = s /\ s2 = s)
      (GeminiCli.main E docs argv1) (GeminiCli.main E docs argv2) eq
      (agree (out s ++ map (pair ConsoleLog) (GeminiCli.banner E true))
             (out s ++ map (pair ConsoleLog) (GeminiCli.banner E false))).
Proof.
  intros H1 H2 Hfs. unfold GeminiCli.main. rewrite H1, H2. cbv beta iota zeta.
  eapply sim_bind; [apply banner_sim | intros _ _ _ | apply agree_m_agree].
  eapply sim_bind;
    [ apply sim_keep_manifest;
      [ unfold GeminiCli.cloneOrPullRepo; sim_auto
      | intros f; unfold GeminiCli.cloneOrPullRepo; inv_auto by idtac ]
    | intros commitHash ? <-
    | apply agree_m_agree ].
  eapply sim_bind; [|intros _ _ _|apply agree_m_agree].
  { apply sim_skip. intros s1 s2. revert s2. apply mkdir_goes_well, Hfs. }
  eapply sim_bind; [apply loadManifest_sim | intros manifest ? <- | auto].
  unfold GeminiCli.loop_body, GeminiCli.summary. sim_script.
Qed.

Lemma openai_api_preview_sim (E : env) (sdk cookbook : list OpenaiApi.Doc)
    (argv1 argv2 : list string) (s : state) :
  dry_run_flag argv1 = true -> dry_run_flag argv2 = false -> healthy E ->
  sim (fun s1 s2 => s1 = s /\ s2 = s)
      (OpenaiApi.main E sdk cookbook argv1) (OpenaiApi.main E sdk cookbook argv2) eq
      (agree (out s ++ map (pair ConsoleLog) (OpenaiApi.banner E true))
             (out s ++ map (pair ConsoleLog) (OpenaiApi.banner E false))).
Proof.
  intros H1 H2 Hfs. unfold OpenaiApi.main. rewrite H1, H2. cbv beta iota zeta.
  eapply sim_bind; [apply banner_sim | intros _ _ _ | apply agree_m_agree].
  eapply sim_bind;
    [ apply sim_keep_manifest; [sim_auto | intros f; inv_auto by idtac]
    | intros _ _ _ | apply agree_m_agree ].
  eapply sim_bind;
    [ apply sim_keep_manifest;
      [ unfold OpenaiApi.cloneOrPull; sim_auto
      | intros f; unfold OpenaiApi.cloneOrPull; inv_auto by idtac ]
    | intros sdkCommit ? <-
    | apply agree_m_agree ].
  eapply sim_bind;
    [ apply sim_keep_manifest; [sim_auto | intros f; inv_auto by idtac]
    | intros _ _ _ | apply agree_m_agree ].
  eapply sim_bind;
    [ apply sim_keep_manifest;
      [ unfold OpenaiApi.cloneOrPull; sim_auto
      | intros f; unfold OpenaiApi.cloneOrPull; inv_auto by idtac ]
    | intros cookbookCommit ? <-
    | apply agree_m_agree ].
  eapply sim_bind;
    [ apply sim_keep_manifest; [sim_auto | intros f; inv_auto by idtac]
    | intros _ _ _ | apply agree_m_agree ].
  eapply sim_bind; [|intros _ _ _|apply agree_m_agree].
  { apply sim_skip. intros s1 s2. revert s2.
    match goal with
    | |- forall s2, agree_m ?P1 ?P2 _ _ -> _ =>
        apply (spec_after (agree_m P1 P2 s1) (fun r s' => is_ok r /\ agree_m P1 P2 s1 s'));
          [apply mkdir_goes_well, Hfs|]; intros _;
        apply (spec_after (agree_m P1 P2 s1) (fun r s' => is_ok r /\ agree_m P1 P2 s1 s'));
          [apply mkdir_goes_well, Hfs|]; intros _
    end.
    apply mkdir_goes_well, Hfs. }
  eapply sim_bind; [apply loadManifest_sim | intros manifest ? <- | auto].
  unfold OpenaiApi.loop_body, OpenaiApi.summary. sim_script.
Qed.

(** ** The destination tree in a preview *)

Ltac frame_auto := inv_auto by (unfold same_tree in *; cbn; intuition congruence).

Lemma claude_api_preview_frame (E : env) (pages : list ClaudeApi.DocPage)
    (argv : list string) (s0 : state) :
  dry_run_flag argv = true -> same_tree s0 (snd (ClaudeApi.main E pages argv s0)).
Proof.
  intros Hdry.
  assert (H : inv (same_tree s0) (ClaudeApi.main E pages argv)).
  { unfold ClaudeApi.main, ClaudeApi.summary, ClaudeApi.banner. rewrite Hdry.
    unfold ClaudeApi.loop_body. frame_auto. }
  apply H. repeat split.
Qed.

Lemma claude_code_preview_frame (E : env) (pages : list ClaudeCode.DocPage)
    (argv : list string) (s0 : state) :
  dry_run_flag argv = true -> same_tree s0 (snd (ClaudeCode.main E pages argv s0)).
Proof.
  intros Hdry.
  assert (H : inv (same_tree s0) (ClaudeCode.main E pages argv)).
  { unfold ClaudeCode.main, ClaudeCode.summary, ClaudeCode.banner. rewrite Hdry.
    unfold ClaudeCode.loop_body, ClaudeCode.changelog. frame_auto. }
  apply H. repeat split.
Qed.

(** The repository scripts clone or update in a preview as well: the
    clone under [/tmp] is the one directory they touch. *)
Ltac clones_auto :=
  inv_auto by
    (unfold only_clones in *; cbn [files dirs manifest_file];
     repeat match goal with H : _ /\ _ |- _ => destruct H end;
     repeat split; try congruence; try assumption;
     let d := fresh "d" in
     let Hd := fresh "Hd" in
     intros d Hd; apply elem_of_union in Hd as [Hd|Hd];
       [apply elem_of_singleton in Hd; subst d; right; cbn; tauto | auto]).

Lemma only_clones_refl (temps : list string) (s : state) : only_clones temps s s.
Proof. repeat split. intros d Hd. left. exact Hd. Qed.

Lemma openai_codex_preview_frame (E : env) (docs : list OpenaiCodex.Doc)
    (argv : list string) (s0 : state) :
  dry_run_flag argv = true ->
  only_clones [OpenaiCodex.TEMP_DIR] s0 (snd (OpenaiCodex.main E docs argv s0)).
Proof.
  intros Hdry.
  assert (H : inv (only_clones [OpenaiCodex.TEMP_DIR] s0) (OpenaiCodex.main E docs argv)).
  { unfold OpenaiCodex.main, OpenaiCodex.summary, OpenaiCodex.banner. rewrite Hdry.
    unfold OpenaiCodex.loop_body, OpenaiCodex.cloneOrPullRepo. clones_auto. }
  apply H, only_clones_refl.
Qed.

Lemma gemini_cli_preview_frame (E : env) (docs : list string)
    (argv : list string) (s0 : state) :
  dry_run_flag argv = true ->
  only_clones [GeminiCli.TEMP_DIR] s0 (snd (GeminiCli.main E docs argv s0)).
Proof.
  intros Hdry.
  assert (H : inv (only_clones [GeminiCli.TEMP_DIR] s0) (GeminiCli.main E docs argv)).
  { unfold GeminiCli.main, GeminiCli.summary, GeminiCli.banner. rewrite Hdry.
    unfold GeminiCli.loop_body, GeminiCli.cloneOrPullRepo. clones_auto. }
  apply H, only_clones_refl.
Qed.

Lemma openai_api_preview_frame (E : env) (sdk cookbook : list OpenaiApi.Doc)
    (argv : list string) (s0 : state) :
  dry_run_flag argv = true ->
  only_clones [OpenaiApi.SDK_TEMP; OpenaiApi.COOKBOOK_TEMP] s0
    (snd (OpenaiApi.main E sdk cookbook argv s0)).
Proof.
  intros Hdry.
  assert (H : inv (only_clones [OpenaiApi.SDK_TEMP; OpenaiApi.COOKBOOK_TEMP] s0)
                  (OpenaiApi.main E sdk cookbook argv)).
  { unfold OpenaiApi.main, OpenaiApi.summary, OpenaiApi.banner. rewrite Hdry.
    unfold OpenaiApi.loop_body, OpenaiApi.cloneOrPull. clones_auto. }
  apply H, only_clones_refl.
Qed.

Lemma gemini_preview_frame (E : env) (pages : list GeminiDev.DocPage)
    (outputDir : string) (s0 : state) :
  same_tree s0 (snd (GeminiDev.syncDocs E pages outputDir true s0)).
Proof.
  assert (Hsend : forall batch j, inv (same_tree s0) (GeminiDev.send_all j batch)).
  { induction batch as [|page rest IH]; intros j; cbn [GeminiDev.send_all]; [frame_auto|].
    apply inv_bind; [frame_auto|]. intros _.
    apply inv_bind; [unfold GeminiDev.fetchPage_send, fetch_send; frame_auto|].
    intros _. apply IH. }
  assert (Hsettle : forall batch j, inv (same_tree s0) (GeminiDev.settle_all E j batch)).
  { induction batch as [|page rest IH]; intros j; cbn [GeminiDev.settle_all]; [frame_auto|].
    apply inv_bind; [frame_auto|]. intros _.
    apply inv_bind; [unfold GeminiDev.fetchPage_settle, fetch_settle; frame_auto|].
    intros r. apply inv_bind; [apply IH | intros rs; frame_auto]. }
  assert (Hbatches : forall fuel i,
            inv (same_tree s0) (GeminiDev.fetch_batches E pages fuel i)).
  { induction fuel as [|fuel IH]; intros i; cbn [GeminiDev.fetch_batches]; [frame_auto|].
    destruct (i <? length pages); [|frame_auto].
    cbv zeta. apply inv_bind.
    - unfold GeminiDev.promise_all_fetchPage. apply inv_bind; [apply Hsend|].
      intros _. apply Hsettle.
    - intros batchResults. apply inv_bind; [apply IH | intros results; frame_auto]. }
  assert (H : inv (same_tree s0) (GeminiDev.syncDocs E pages outputDir true)).
  { unfold GeminiDev.syncDocs.
    apply inv_bind; [frame_auto|]. intros _.
    apply inv_bind; [frame_auto|]. intros _.
    apply inv_bind; [frame_auto|]. intros _.
    apply inv_bind; [frame_auto|]. intros _.
    apply inv_bind; [apply Hbatches|]. intros results.
    unfold GeminiDev.process_result, GeminiDev.cleanMarkdown. frame_auto. }
  apply H. repeat split.
Qed.

(** * One resource at a time *)

Lemma lookup_snoc {A} (t : list A) (e : A) (n : nat) (x : A) :
  (t ++ [e]) !! n = Some x ->
  (n < length t /\ t !! n = Some x) \/ (n = length t /\ x = e).
Proof.
  intros H. pose proof (lookup_lt_Some _ _ _ H) as Hlen.
  rewrite length_app in Hlen. cbn in Hlen.
  destruct (decide (n < length t)) as [Hlt|Hge].
  - left. split; [exact Hlt|]. now rewrite lookup_app_l in H.
  - right. assert (n = length t) by lia. subst n. split; [reflexivity|].
    rewrite lookup_app_r, Nat.sub_diag in H by lia. cbn in H. congruence.
Qed.

Lemma tidy_snoc (c : option nat) (b : nat) (t : list (option nat * io)) (a : io) :
  fits c b -> tidy b t -> tidy b (t ++ [(c, a)]).
Proof.
  intros Hfit [Hseq Hbelow]. split.
  - intros n m i j x y Hn Hm Hij.
    apply lookup_snoc in Hn as [[Hn Hn']|[-> Hn']];
      apply lookup_snoc in Hm as [[Hm Hm']|[-> Hm']].
    + eapply Hseq; eauto.
    + exact Hn.
    + injection Hn' as <- _. cbn in Hfit. apply Hbelow in Hm'. lia.
    + injection Hn' as <- _. injection Hm' as Hji _. lia.
  - intros n j x Hn. apply lookup_snoc in Hn as [[Hn Hn']|[-> Hn']].
    + eapply Hbelow, Hn'.
    + injection Hn' as <- _. cbn in Hfit. lia.
Qed.

Lemma tidy_mono (b b' : nat) (t : list (option nat * io)) :
  b <= b' -> tidy b t -> tidy b' t.
Proof.
  intros Hle [Hseq Hbelow]. split; [exact Hseq|].
  intros n j a Hn. apply Hbelow in Hn. lia.
Qed.

Lemma tidy_nil (b : nat) : tidy b [].
Proof.
  split.
  - intros n m i j a x Hn. rewrite lookup_nil in Hn. discriminate.
  - intros n j a Hn. rewrite lookup_nil in Hn. discriminate.
Qed.

Ltac track_finish :=
  idtac;
  match goal with
  | H : on_track _ _ _ |- _ =>
      let Hcur := fresh "Hcur" in
      let Hfit := fresh "Hfit" in
      let Htidy := fresh "Htidy" in
      destruct H as (Hcur & Hfit & Htidy);
      unfold on_track; cbn [cursor trace]; rewrite ?Hcur;
      split; [try reflexivity; try assumption|];
      split; [assumption|];
      repeat (apply tidy_snoc; [assumption|]); assumption
  end.

Ltac track_auto := inv_auto by track_finish.

(** A loop whose invariant moves with the position. *)
Lemma for_of_indexed {A} (I : nat -> state -> Prop) (body : nat -> A -> M unit)
    (xs : list A) :
  (forall i s, I i s -> I (S i) s) ->
  (forall i x s, I i s -> I (S i) (snd (body i x s))) ->
  forall i s, I i s -> I (i + length xs) (snd (for_of body i xs s)).
Proof.
  intros Hmono Hb. induction xs as [|x xs IH]; intros i s Hs; cbn [for_of length].
  - rewrite Nat.add_0_r. exact Hs.
  - unfold bind. specialize (Hb i x s Hs).
    replace (i + S (length xs)) with (S i + length xs) by lia.
    destruct (body i x s) as [[a|e|c] s']; cbn [snd] in *.
    + apply IH, Hb.
    + clear IH. induction (length xs) as [|k IHk]; [now rewrite Nat.add_0_r|].
      rewrite Nat.add_succ_r. apply Hmono, IHk.
    + clear IH. induction (length xs) as [|k IHk]; [now rewrite Nat.add_0_r|].
      rewrite Nat.add_succ_r. apply Hmono, IHk.
Qed.

(** A body that first names the resource it is about to process. *)
Lemma inv_after_cursor {A} (P J : state -> Prop) (c : option nat) (k : unit -> M A) :
  (forall s, P s -> J (set_cursor c s)) ->
  inv J (k tt) ->
  forall s, P s -> J (snd (bind (modify (set_cursor c)) k s)).
Proof. intros HP Hk s Hs. unfold bind, modify. apply Hk, HP, Hs. Qed.

Lemma between_on_track (i : nat) (s : state) :
  between i s -> on_track (Some i) (S i) (set_cursor (Some i) s).
Proof.
  intros H. split; [reflexivity|]. split; [reflexivity|].
  apply (tidy_mono i); [lia | exact H].
Qed.

Lemma on_track_between (c : option nat) (b : nat) (s : state) :
  on_track c b s -> between b s.
Proof. intros (_ & _ & H). exact H. Qed.

Lemma claude_api_body_on_track (E : env) (dry : bool) (manifest : json)
    (i : nat) (page : ClaudeApi.DocPage) (s : state) :
  between i s -> between (S i) (snd (ClaudeApi.loop_body E dry manifest i page s)).
Proof.
  intros H. apply (on_track_between (Some i)). revert s H.
  unfold ClaudeApi.loop_body.
  apply inv_after_cursor; [apply between_on_track|]. track_auto.
Qed.

Lemma always_bind {A B} (P Q R : state -> Prop) (m : M A) (k : A -> M B) :
  always P m Q -> (forall a, always Q (k a) R) -> (forall s, Q s -> R s) ->
  always P (bind m k) R.
Proof.
  intros Hm Hk HQR s HP. unfold bind. specialize (Hm s HP).
  destruct (m s) as [[a|e|c] s']; cbn [snd] in *; auto. apply Hk, Hm.
Qed.

Lemma always_inv {A} (I R : state -> Prop) (m : M A) :
  inv I m -> (forall s, I s -> R s) -> always I m R.
Proof. intros H HR s Hs. apply HR, H, Hs. Qed.

Lemma between_mono (b b' : nat) (s : state) : b <= b' -> between b s -> between b' s.
Proof. intros Hle. apply tidy_mono, Hle. Qed.

Lemma boot_on_track (fs : gmap string string) (m : mfile) : on_track None 0 (boot fs m).
Proof. split; [reflexivity|]. split; [exact I | apply tidy_nil]. Qed.

Lemma on_track_none_mono (b b' : nat) (s : state) :
  b <= b' -> on_track None b s -> on_track None b' s.
Proof.
  intros Hle (Hc & _ & Ht). split; [exact Hc|]. split; [exact I|].
  apply (tidy_mono b); assumption.
Qed.

Lemma between_cursor_none (b : nat) (s : state) :
  between b s -> on_track None b (set_cursor None s).
Proof. intros H. split; [reflexivity|]. split; [exact I | exact H]. Qed.

Lemma claude_api_sequential (E : env) (pages : list ClaudeApi.DocPage)
    (argv : list string) (fs : gmap string string) (m : mfile) :
  sequential (trace (snd (ClaudeApi.main E pages argv (boot fs m)))).
Proof.
  set (n := length pages).
  assert (H : always (on_track None 0) (ClaudeApi.main E pages argv) (between n)).
  { assert (Hend : forall s, on_track None 0 s -> between n s).
    { intros s Hs. apply on_track_between in Hs. apply (between_mono 0); [lia | exact Hs]. }
    unfold ClaudeApi.main. cbv zeta.
    eapply always_bind; [apply always_inv with (R := on_track None 0); [track_auto|auto]
                        | intros _ | exact Hend].
    eapply always_bind; [apply always_inv with (R := on_track None 0); [track_auto|auto]
                        | intros _ | exact Hend].
    eapply always_bind; [apply always_inv with (R := on_track None 0); [track_auto|auto]
                        | intros manifest | exact Hend].
    eapply always_bind; [apply always_inv with (R := between 0);
                           [track_auto | apply on_track_between]
                        | intros _ | intros s; apply between_mono; lia].
    eapply always_bind with (Q := between n);
      [ intros s Hs; apply (for_of_indexed between) with (i := 0);
          [ intros i s'; apply between_mono; lia
          | intros i x s'; apply claude_api_body_on_track
          | exact Hs ]
      | intros _ | auto ].
    eapply always_bind with (Q := on_track None n);
      [ intros s Hs; apply between_cursor_none, Hs
      | intros _ | apply on_track_between ].
    apply always_inv; [|apply on_track_between].
    unfold saveManifest, ClaudeApi.summary. track_auto. }
  destruct (H (boot fs m) (boot_on_track fs m)) as [Hseq _]. exact Hseq.
Qed.

Lemma claude_code_body_on_track (E : env) (dry : bool) (manifest : json)
    (i : nat) (page : ClaudeCode.DocPage) (s : state) :
  between i s -> between (S i) (snd (ClaudeCode.loop_body E dry manifest i page s)).
Proof.
  intros H. apply (on_track_between (Some i)). revert s H.
  unfold ClaudeCode.loop_body.
  apply inv_after_cursor; [apply between_on_track|]. track_auto.
Qed.

Lemma claude_code_sequential (E : env) (pages : list ClaudeCode.DocPage)
    (argv : list string) (fs : gmap string string) (m : mfile) :
  sequential (trace (snd (ClaudeCode.main E pages argv (boot fs m)))).
Proof.
  set (n := length pages).
  assert (H : always (on_track None 0) (ClaudeCode.main E pages argv) (between (S n))).
  { assert (Hend : forall s, on_track None 0 s -> between (S n) s).
    { intros s Hs. apply on_track_between in Hs. apply (between_mono 0); [lia | exact Hs]. }
    unfold ClaudeCode.main. cbv zeta.
    eapply always_bind; [apply always_inv with (R := on_track None 0); [track_auto|auto]
                        | intros _ | exact Hend].
    eapply always_bind; [apply always_inv with (R := on_track None 0); [track_auto|auto]
                        | intros _ | exact Hend].
    eapply always_bind; [apply always_inv with (R := on_track None 0); [track_auto|auto]
                        | intros manifest | exact Hend].
    eapply always_bind; [apply always_inv with (R := between 0);
                           [track_auto | apply on_track_between]
                        | intros _ | intros s; apply between_mono; lia].
    eapply always_bind with (Q := between n);
      [ intros s Hs; apply (for_of_indexed between) with (i := 0);
          [ intros i s'; apply between_mono; lia
          | intros i x s'; apply claude_code_body_on_track
          | exact Hs ]
      | intros _ | intros s; apply between_mono; lia ].
    eapply always_bind with (Q := between (S n));
      [ intros s Hs; apply (on_track_between (Some n)); revert s Hs;
        unfold ClaudeCode.changelog; fold n;
        apply inv_after_cursor; [apply between_on_track | track_auto]
      | intros _ | auto ].
    eapply always_bind with (Q := on_track None (S n));
      [ intros s Hs; apply between_cursor_none, Hs
      | intros _ | apply on_track_between ].
    apply always_inv; [|apply on_track_between].
    unfold saveManifest, ClaudeCode.summary. track_auto. }
  destruct (H (boot fs m) (boot_on_track fs m)) as [Hseq _]. exact Hseq.
Qed.

Lemma openai_codex_body_on_track (E : env) (dry : bool) (manifest : json)
    (i : nat) (doc : OpenaiCodex.Doc) (s : state) :
  between i s -> between (S i) (snd (OpenaiCodex.loop_body E dry manifest i doc s)).
Proof.
  intros H. apply (on_track_between (Some i)). revert s H.
  unfold OpenaiCodex.loop_body. cbv zeta.
  apply inv_after_cursor; [apply between_on_track|]. track_auto.
Qed.

Lemma openai_codex_sequential (E : env) (docs : list OpenaiCodex.Doc)
    (argv : list string) (fs : gmap string string) (m : mfile) :
  sequential (trace (snd (OpenaiCodex.main E docs argv (boot fs m)))).
Proof.
  set (n := length docs).
  assert (H : always (on_track None 0) (OpenaiCodex.main E docs argv) (between n)).
  { assert (Hend : forall s, on_track None 0 s -> between n s).
    { intros s Hs. apply on_track_between in Hs. apply (between_mono 0); [lia | exact Hs]. }
    unfold OpenaiCodex.main. cbv zeta.
    eapply always_bind; [apply always_inv with (R := on_track None 0); [track_auto|auto]
                        | intros _ | exact Hend].
    eapply always_bind;
      [ apply always_inv with (R := on_track None 0);
          [unfold OpenaiCodex.cloneOrPullRepo; track_auto|auto]
      | intros commitHash | exact Hend].
    eapply always_bind; [apply always_inv with (R := on_track None 0); [track_auto|auto]
                        | intros _ | exact Hend].
    eapply always_bind; [apply always_inv with (R := on_track None 0); [track_auto|auto]
                        | intros manifest | exact Hend].
    eapply always_bind; [apply always_inv with (R := between 0);
                           [track_auto | apply on_track_between]
                        | intros _ | intros s; apply between_mono; lia].
    eapply always_bind with (Q := between n);
      [ intros s Hs; apply (for_of_indexed between) with (i := 0);
          [ intros i s'; apply between_mono; lia
          | intros i x s'; apply openai_codex_body_on_track
          | exact Hs ]
      | intros _ | auto ].
    eapply always_bind with (Q := on_track None n);
      [ intros s Hs; apply between_cursor_none, Hs
      | intros _ | apply on_track_between ].
    apply always_inv; [|apply on_track_between].
    unfold saveManifest, OpenaiCodex.summary. track_auto. }
  destruct (H (boot fs m) (boot_on_track fs m)) as [Hseq _]. exact Hseq.
Qed.

Lemma openai_api_body_on_track (E : env) (temp label source : string) (base : nat)
    (dry : bool) (manifest : json) (i : nat) (doc : OpenaiApi.Doc) (s : state) :
  between (base + i) s ->
  between (base + S i)
    (snd (OpenaiApi.loop_body E temp label source base dry manifest i doc s)).
Proof.
  intros H. rewrite Nat.add_succ_r. apply (on_track_between (Some (base + i))).
  revert s H. unfold OpenaiApi.loop_body. cbv zeta.
  apply inv_after_cursor; [apply between_on_track|]. track_auto.
Qed.

Lemma openai_api_sequential (E : env) (sdk cookbook : list OpenaiApi.Doc)
    (argv : list string) (fs : gmap string string) (m : mfile) :
  sequential (trace (snd (OpenaiApi.main E sdk cookbook argv (boot fs m)))).
Proof.
  set (n := length sdk + length cookbook).
  assert (H : always (on_track None 0) (OpenaiApi.main E sdk cookbook argv) (between n)).
  { assert (Hend : forall s, on_track None 0 s -> between n s).
    { intros s Hs. apply on_track_between in Hs. apply (between_mono 0); [lia | exact Hs]. }
    assert (Hstep : forall A (step : M A), inv (on_track None 0) step ->
              always (on_track None 0) step (on_track None 0)).
    { intros A step Hi. apply always_inv; auto. }
    unfold OpenaiApi.main, OpenaiApi.cloneOrPull. cbv zeta.
    eapply always_bind; [apply Hstep; track_auto | intros _ | exact Hend].
    eapply always_bind; [apply Hstep; track_auto | intros _ | exact Hend].
    eapply always_bind; [apply Hstep; track_auto | intros sdkCommit | exact Hend].
    eapply always_bind; [apply Hstep; track_auto | intros _ | exact Hend].
    eapply always_bind; [apply Hstep; track_auto | intros cookbookCommit | exact Hend].
    eapply always_bind; [apply Hstep; track_auto | intros _ | exact Hend].
    eapply always_bind; [apply Hstep; track_auto | intros _ | exact Hend].
    eapply always_bind; [apply Hstep; track_auto | intros manifest | exact Hend].
    eapply always_bind; [apply always_inv with (R := between 0);
                           [track_auto | apply on_track_between]
                        | intros _ | intros s; apply between_mono; lia].
    eapply always_bind with (Q := between (length sdk));
      [ intros s Hs;
        apply (for_of_indexed (fun i => between (0 + i))) with (i := 0);
          [ intros i s'; apply between_mono; lia
          | intros i x s'; apply openai_api_body_on_track
          | exact Hs ]
      | intros _ | intros s; apply between_mono; lia ].
    eapply always_bind with (Q := between n);
      [ intros s Hs;
        apply (for_of_indexed (fun i => between (length sdk + i))) with (i := 0);
          [ intros i s'; apply between_mono; lia
          | intros i x s'; apply openai_api_body_on_track
          | rewrite Nat.add_0_r; exact Hs ]
      | intros _ | auto ].
    eapply always_bind with (Q := on_track None n);
      [ intros s Hs; apply between_cursor_none, Hs
      | intros _ | apply on_track_between ].
    apply always_inv; [|apply on_track_between].
    unfold saveManifest, OpenaiApi.summary. track_auto. }
  destruct (H (boot fs m) (boot_on_track fs m)) as [Hseq _]. exact Hseq.
Qed.

(** The gemini-dev script sends the requests of a whole batch back to
    back, before it waits for any answer. *)
Lemma send_all_trace (i : nat) (batch : list GeminiDev.DocPage) (s : state) :
  fst (GeminiDev.send_all i batch s) = Ok tt /\
  trace (snd (GeminiDev.send_all i batch s)) =
  trace s ++ imap (fun k page => (Some (i + k), IoRequest (GeminiDev.url page))) batch.
Proof.
  revert i s. induction batch as [|page rest IH]; intros i s.
  - cbn. now rewrite app_nil_r.
  - cbn [GeminiDev.send_all]. unfold GeminiDev.fetchPage_send, fetch_send. run.
    destruct (IH (S i) (set_trace (fun t => t ++ [(Some i, IoRequest (GeminiDev.url page))])
                          (set_cursor (Some i) s))) as [Hok Htr].
    unfold set_trace, set_cursor in Hok, Htr. cbn in Hok, Htr.
    split; [exact Hok|]. rewrite Htr. cbn [imap]. rewrite <- app_assoc. cbn [app].
    rewrite Nat.add_0_r. do 2 f_equal. apply imap_ext. intros k x _. cbn. f_equal. f_equal. lia.
Qed.

(** ** The two phases of the gemini-dev script *)

Ltac extends_finish :=
  idtac;
  match goal with
  | H : extends _ _ _ |- _ =>
      let t := fresh "t" in
      let Ht := fresh "Ht" in
      let HP := fresh "HP" in
      destruct H as (t & Ht & HP);
      unfold extends; cbn [trace]; eexists;
      (split; [rewrite Ht, <- ?app_assoc; reflexivity|]);
      repeat (apply Forall_app; split); try assumption; repeat constructor
  end.

Ltac extends_auto := inv_auto by extends_finish.

Lemma gemini_fetch_phase (E : env) (pages : list GeminiDev.DocPage)
    (t0 : list (option nat * io)) (fuel i : nat) :
  inv (extends is_fetch t0) (GeminiDev.fetch_batches E pages fuel i).
Proof.
  assert (Hsend : forall batch j, inv (extends is_fetch t0) (GeminiDev.send_all j batch)).
  { induction batch as [|page rest IH]; intros j; cbn [GeminiDev.send_all].
    - extends_auto.
    - apply inv_bind; [extends_auto|]. intros _.
      apply inv_bind; [unfold GeminiDev.fetchPage_send, fetch_send; extends_auto|].
      intros _. apply IH. }
  assert (Hsettle : forall batch j,
            inv (extends is_fetch t0) (GeminiDev.settle_all E j batch)).
  { induction batch as [|page rest IH]; intros j; cbn [GeminiDev.settle_all].
    - extends_auto.
    - apply inv_bind; [extends_auto|]. intros _.
      apply inv_bind; [unfold GeminiDev.fetchPage_settle; extends_auto|]. intros r.
      apply inv_bind; [apply IH|]. intros rs. extends_auto. }
  revert i. induction fuel as [|fuel IH]; intros i; cbn [GeminiDev.fetch_batches].
  - extends_auto.
  - destruct (i <? length pages); [|extends_auto]. cbv zeta.
    apply inv_bind.
    { unfold GeminiDev.promise_all_fetchPage.
      apply inv_bind; [apply Hsend | intros _; apply Hsettle]. }
    intros batchResults. apply inv_bind; [apply IH|]. intros results. extends_auto.
Qed.

Lemma gemini_process_phase (E : env) (outputDir : string) (dryRun : bool)
    (t0 : list (option nat * io)) (i : nat) (r : GeminiDev.DocPage * option string) :
  inv (extends (fun e => negb (is_fetch e)) t0) (GeminiDev.process_result E outputDir dryRun i r).
Proof.
  unfold GeminiDev.process_result, GeminiDev.cleanMarkdown. extends_auto.
Qed.

Lemma extends_refl (P : option nat * io -> bool) (s : state) : extends P (trace s) s.
Proof. exists []. rewrite app_nil_r. split; [reflexivity | constructor]. Qed.

Lemma extends_negb (t0 : list (option nat * io)) (s : state) :
  extends (fun e => negb (is_fetch e)) t0 s ->
  exists t, trace s = t0 ++ t /\ Forall (fun e => is_fetch e = false) t.
Proof.
  intros (t & Ht & HP). exists t. split; [exact Ht|].
  eapply Forall_impl; [exact HP|]. intros e He. now apply negb_true_iff.
Qed.

(** The gemini-dev run fetches first: once a page has been converted or
    written, no request leaves and no answer is read any more. *)
Lemma gemini_phases (E : env) (pages : list GeminiDev.DocPage) (outputDir : string)
    (dryRun : bool) (s : state) :
  fetch_then_process (trace s)
    (trace (snd (GeminiDev.syncDocs E pages outputDir dryRun s))).
Proof.
  set (nf := fun e => negb (is_fetch e)).
  assert (Hdone : forall s' a f,
            trace s' = trace s ++ a -> Forall (fun e => is_fetch e = false) a ->
            extends is_fetch (trace s') f -> forall s'',
            extends nf (trace f) s'' -> fetch_then_process (trace s) (trace s'')).
  { intros s' a f Ha Hsetup (t1 & Ht1 & Hf) s'' Hw.
    apply extends_negb in Hw as (t2 & Ht2 & Hw).
    exists a, t1, t2. rewrite Ht2, Ht1, Ha, <- !app_assoc. auto. }
  unfold GeminiDev.syncDocs.
  match goal with
  | |- context [bind (modify (set_fetched ?f)) ?k] =>
      set (rest := bind (modify (set_fetched f)) k)
  end.
  assert (Hrest : forall s1 a,
            trace s1 = trace s ++ a -> Forall (fun e => is_fetch e = false) a ->
            fetch_then_process (trace s) (trace (snd (rest s1)))).
  { intros s1 a Ha Hsetup. unfold rest. run.
    set (s2 := State _ _ _ _ _ _ _ _ _ _).
    assert (Ht2 : trace s2 = trace s ++ a) by exact Ha.
    pose proof (gemini_fetch_phase E pages (trace s2) (length pages) 0 s2
                  (extends_refl _ s2)) as Hf.
    destruct (GeminiDev.fetch_batches E pages (length pages) 0 s2) as [[results|e|c] f];
      cbn [fst snd] in *.
    - eapply (Hdone s2 a f Ht2 Hsetup Hf).
      assert (Hloop : inv (extends nf (trace f))
                (for_of (GeminiDev.process_result E outputDir dryRun) 0 results ;;
                 modify (set_cursor None) ;;
                 do successCount <- get fetched;
                 print ConsoleLog (Js.nl +:+ "Synced " +:+ pretty successCount +:+ "/" +:+
                                   pretty (length pages) +:+ " pages"))).
      { apply inv_bind; [apply inv_for_of; intros j r; apply gemini_process_phase|].
        intros _. extends_auto. }
      apply Hloop, extends_refl.
    - apply (Hdone s2 a f Ht2 Hsetup Hf), extends_refl.
    - apply (Hdone s2 a f Ht2 Hsetup Hf), extends_refl. }
  clearbody rest.
  destruct dryRun.
  - run. apply (Hrest _ []); [cbn; now rewrite app_nil_r | constructor].
  - unfold mkdir. run.
    destruct (mkdir_fails E outputDir) as [e|].
    { run. exists [(cursor s, IoMkdir outputDir)], [], [].
      rewrite !app_nil_r. repeat split; repeat constructor. }
    run. destruct (mkdir_fails E (Js.join outputDir "multimodal")) as [e|].
    { run. exists [(cursor s, IoMkdir outputDir);
                   (cursor s, IoMkdir (Js.join outputDir "multimodal"))], [], [].
      rewrite !app_nil_r, <- app_assoc. repeat split; repeat constructor. }
    apply (Hrest _ [(cursor s, IoMkdir outputDir);
                    (cursor s, IoMkdir (Js.join outputDir "multimodal"))]);
      [cbn; now rewrite <- app_assoc | repeat constructor].
Qed.

Lemma gemini_cli_body_on_track (E : env) (dry : bool) (manifest : json)
    (i : nat) (docPath : string) (s : state) :
  between i s -> between (S i) (snd (GeminiCli.loop_body E dry manifest i docPath s)).
Proof.
  intros H. apply (on_track_between (Some i)). revert s H.
  unfold GeminiCli.loop_body. cbv zeta.
  apply inv_after_cursor; [apply between_on_track|]. track_auto.
Qed.

Lemma gemini_cli_sequential (E : env) (docs : list string)
    (argv : list string) (fs : gmap string string) (m : mfile) :
  sequential (trace (snd (GeminiCli.main E docs argv (boot fs m)))).
Proof.
  set (n := length docs).
  assert (H : always (on_track None 0) (GeminiCli.main E docs argv) (between n)).
  { assert (Hend : forall s, on_track None 0 s -> between n s).
    { intros s Hs. apply on_track_between in Hs. apply (between_mono 0); [lia | exact Hs]. }
    unfold GeminiCli.main. cbv zeta.
    eapply always_bind; [apply always_inv with (R := on_track None 0); [track_auto|auto]
                        | intros _ | exact Hend].
    eapply always_bind;
      [ apply always_inv with (R := on_track None 0);
          [unfold GeminiCli.cloneOrPullRepo; track_auto|auto]
      | intros commitHash | exact Hend].
    eapply always_bind; [apply always_inv with (R := on_track None 0); [track_auto|auto]
                        | intros _ | exact Hend].
    eapply always_bind; [apply always_inv with (R := on_track None 0); [track_auto|auto]
                        | intros manifest | exact Hend].
    eapply always_bind; [apply always_inv with (R := between 0);
                           [track_auto | apply on_track_between]
                        | intros _ | intros s; apply between_mono; lia].
    eapply always_bind with (Q := between n);
      [ intros s Hs; apply (for_of_indexed between) with (i := 0);
          [ intros i s'; apply between_mono; lia
          | intros i x s'; apply gemini_cli_body_on_track
          | exact Hs ]
      | intros _ | auto ].
    eapply always_bind with (Q := on_track None n);
      [ intros s Hs; apply between_cursor_none, Hs
      | intros _ | apply on_track_between ].
    apply always_inv; [|apply on_track_between].
    unfold saveManifest, GeminiCli.summary. track_auto. }
  destruct (H (boot fs m) (boot_on_track fs m)) as [Hseq _]. exact Hseq.
Qed.

(** ** Every action in its place *)

(** A loop whose body is only ever run on an element of the list, at
    the position of that element. *)
Lemma for_of_lookup {A} (I : state -> Prop) (body : nat -> A -> M unit) (xs : list A)
    (k : nat) :
  (forall i x s, xs !! i = Some x -> I s -> I (snd (body (k + i) x s))) ->
  forall s, I s -> I (snd (for_of body k xs s)).
Proof.
  revert k. induction xs as [|x xs IH]; intros k Hb s Hs; cbn [for_of].
  - exact Hs.
  - unfold bind. pose proof (Hb 0 x s eq_refl Hs) as H0. rewrite Nat.add_0_r in H0.
    destruct (body k x s) as [[a|e|c] s']; cbn [snd] in *; try exact H0.
    apply IH; [|exact H0]. intros i y s1 Hy Hs1.
    replace (S k + i) with (k + S i) by lia. apply Hb; assumption.
Qed.

Ltac place_finish :=
  idtac;
  match goal with
  | H : placed _ _ _ _ |- _ =>
      let Hcur := fresh "Hcur" in
      let Hall := fresh "Hall" in
      destruct H as (Hcur & Hall);
      unfold placed; cbn [cursor trace]; rewrite ?Hcur;
      split; [try reflexivity; try assumption|];
      repeat (apply Forall_app; split); try assumption;
      repeat constructor; unfold in_place; cbn [fst snd orchestration];
      try (exact I || reflexivity);
      try (eexists; split; [eassumption|];
           cbn [In page_actions file_actions];
           repeat first [left; reflexivity | right])
  end.

Ltac place_auto := inv_auto by place_finish.

Lemma placed_all (E : env) (resources : list (list io)) (c : option nat) (s : state) :
  placed E resources c s -> Forall (in_place E resources) (trace s).
Proof. intros [_ H]. exact H. Qed.

Lemma placed_cursor (E : env) (resources : list (list io)) (c : option nat) (s : state) :
  Forall (in_place E resources) (trace s) -> placed E resources c (set_cursor c s).
Proof. intros H. split; [reflexivity | exact H]. Qed.

Lemma claude_api_body_placed (E : env) (resources : list (list io)) (dry : bool)
    (manifest : json) (i : nat) (page : ClaudeApi.DocPage) (s : state) :
  resources !! i =
    Some (page_actions (ClaudeApi.BASE_URL +:+ "/" +:+ ClaudeApi.slug page +:+ ".md")
            (Js.join (RESOURCES_DIR E) (ClaudeApi.outputPath page)) 150) ->
  Forall (in_place E resources) (trace s) ->
  Forall (in_place E resources) (trace (snd (ClaudeApi.loop_body E dry manifest i page s))).
Proof.
  intros Hres H. apply (placed_all E resources (Some i)). revert s H.
  unfold ClaudeApi.loop_body.
  apply inv_after_cursor; [apply placed_cursor|]. place_auto.
Qed.

Lemma claude_code_body_placed (E : env) (resources : list (list io)) (dry : bool)
    (manifest : json) (i : nat) (page : ClaudeCode.DocPage) (s : state) :
  resources !! i =
    Some [IoRequest (ClaudeCode.BASE_URL +:+ "/" +:+ ClaudeCode.slug page +:+ ".md");
          IoResponse (ClaudeCode.BASE_URL +:+ "/" +:+ ClaudeCode.slug page +:+ ".md");
          IoWrite (Js.join (RESOURCES_DIR E) (ClaudeCode.slug page +:+ ".md"));
          IoSleep 200] ->
  Forall (in_place E resources) (trace s) ->
  Forall (in_place E resources) (trace (snd (ClaudeCode.loop_body E dry manifest i page s))).
Proof.
  intros Hres H. apply (placed_all E resources (Some i)). revert s H.
  unfold ClaudeCode.loop_body.
  apply inv_after_cursor; [apply placed_cursor|]. place_auto.
Qed.

Lemma changelog_placed (E : env) (resources : list (list io))
    (pages : list ClaudeCode.DocPage) (dry : bool) (manifest : json) (s : state) :
  resources !! length pages =
    Some [IoRequest ClaudeCode.changelogUrl; IoResponse ClaudeCode.changelogUrl;
          IoWrite (Js.join (RESOURCES_DIR E) "changelog.md")] ->
  Forall (in_place E resources) (trace s) ->
  Forall (in_place E resources) (trace (snd (ClaudeCode.changelog E pages dry manifest s))).
Proof.
  intros Hres H. apply (placed_all E resources (Some (length pages))). revert s H.
  unfold ClaudeCode.changelog.
  apply inv_after_cursor; [apply placed_cursor|]. place_auto.
Qed.

Lemma openai_codex_body_placed (E : env) (resources : list (list io)) (dry : bool)
    (manifest : json) (i : nat) (doc : OpenaiCodex.Doc) (s : state) :
  resources !! i =
    Some (file_actions (Js.join OpenaiCodex.TEMP_DIR (OpenaiCodex.src doc))
            (Js.join (RESOURCES_DIR E) (OpenaiCodex.dest doc))) ->
  Forall (in_place E resources) (trace s) ->
  Forall (in_place E resources) (trace (snd (OpenaiCodex.loop_body E dry manifest i doc s))).
Proof.
  intros Hres H. apply (placed_all E resources (Some i)). revert s H.
  unfold OpenaiCodex.loop_body. cbv zeta.
  apply inv_after_cursor; [apply placed_cursor|]. place_auto.
Qed.

Lemma gemini_cli_body_placed (E : env) (resources : list (list io)) (dry : bool)
    (manifest : json) (i : nat) (docPath : string) (s : state) :
  resources !! i =
    Some (file_actions (Js.join (Js.join GeminiCli.TEMP_DIR "docs") docPath)
            (Js.join (RESOURCES_DIR E) docPath)) ->
  Forall (in_place E resources) (trace s) ->
  Forall (in_place E resources) (trace (snd (GeminiCli.loop_body E dry manifest i docPath s))).
Proof.
  intros Hres H. apply (placed_all E resources (Some i)). revert s H.
  unfold GeminiCli.loop_body. cbv zeta.
  apply inv_after_cursor; [apply placed_cursor|]. place_auto.
Qed.

Lemma openai_api_body_placed (E : env) (resources : list (list io))
    (temp label source : string) (base : nat) (dry : bool)
    (manifest : json) (i : nat) (doc : OpenaiApi.Doc) (s : state) :
  resources !! (base + i) =
    Some (file_actions (Js.join temp (OpenaiApi.src doc))
            (Js.join (RESOURCES_DIR E) (OpenaiApi.dest doc))) ->
  Forall (in_place E resources) (trace s) ->
  Forall (in_place E resources)
    (trace (snd (OpenaiApi.loop_body E temp label source base dry manifest i doc s))).
Proof.
  intros Hres H. apply (placed_all E resources (Some (base + i))). revert s H.
  unfold OpenaiApi.loop_body. cbv zeta.
  apply inv_after_cursor; [apply placed_cursor|]. place_auto.
Qed.

Lemma boot_placed (E : env) (resources : list (list io)) (fs : gmap string string)
    (m : mfile) :
  placed E resources None (boot fs m).
Proof. split; [reflexivity | constructor]. Qed.

Lemma lookup_map {A B} (f : A -> B) (xs : list A) (i : nat) (x : A) :
  xs !! i = Some x -> map f xs !! i = Some (f x).
Proof.
  intros H. change (map f xs) with (f <$> xs). now rewrite list_lookup_fmap, H.
Qed.

Lemma claude_api_placed (E : env) (pages : list ClaudeApi.DocPage)
    (argv : list string) (fs : gmap string string) (m : mfile) :
  Forall (in_place E (claude_api_resources E pages))
    (trace (snd (ClaudeApi.main E pages argv (boot fs m)))).
Proof.
  set (rs := claude_api_resources E pages).
  assert (H : always (placed E rs None) (ClaudeApi.main E pages argv)
                (fun s => Forall (in_place E rs) (trace s))).
  { unfold ClaudeApi.main. cbv zeta.
    eapply always_bind; [apply always_inv with (R := placed E rs None); [place_auto|auto]
                        | intros _ | apply placed_all].
    eapply always_bind; [apply always_inv with (R := placed E rs None); [place_auto|auto]
                        | intros _ | apply placed_all].
    eapply always_bind; [apply always_inv with (R := placed E rs None); [place_auto|auto]
                        | intros manifest | apply placed_all].
    eapply always_bind; [apply always_inv with (R := placed E rs None); [place_auto|auto]
                        | intros _ | apply placed_all].
    eapply always_bind with (Q := fun s => Forall (in_place E rs) (trace s));
      [ intros s Hs; apply for_of_lookup;
          [ intros i x s' Hx; apply claude_api_body_placed;
            unfold rs, claude_api_resources; cbn [Nat.add];
            erewrite lookup_map by exact Hx; reflexivity
          | apply (placed_all _ _ _ _ Hs) ]
      | intros _ | auto ].
    eapply always_bind with (Q := placed E rs None);
      [ intros s Hs; apply placed_cursor, Hs
      | intros _ | apply placed_all ].
    apply always_inv; [|apply placed_all].
    unfold saveManifest, ClaudeApi.summary. place_auto. }
  apply H, boot_placed.
Qed.

Lemma claude_code_placed (E : env) (pages : list ClaudeCode.DocPage)
    (argv : list string) (fs : gmap string string) (m : mfile) :
  Forall (in_place E (claude_code_resources E pages))
    (trace (snd (ClaudeCode.main E pages argv (boot fs m)))).
Proof.
  set (rs := claude_code_resources E pages).
  assert (H : always (placed E rs None) (ClaudeCode.main E pages argv)
                (fun s => Forall (in_place E rs) (trace s))).
  { unfold ClaudeCode.main. cbv zeta.
    eapply always_bind; [apply always_inv with (R := placed E rs None); [place_auto|auto]
                        | intros _ | apply placed_all].
    eapply always_bind; [apply always_inv with (R := placed E rs None); [place_auto|auto]
                        | intros _ | apply placed_all].
    eapply always_bind; [apply always_inv with (R := placed E rs None); [place_auto|auto]
                        | intros manifest | apply placed_all].
    eapply always_bind; [apply always_inv with (R := placed E rs None); [place_auto|auto]
                        | intros _ | apply placed_all].
    eapply always_bind with (Q := fun s => Forall (in_place E rs) (trace s));
      [ intros s Hs; apply for_of_lookup;
          [ intros i x s' Hx; apply claude_code_body_placed;
            unfold rs, claude_code_resources; cbn [Nat.add];
            rewrite lookup_app_l
              by (rewrite length_map; apply (lookup_lt_Some _ _ _ Hx));
            erewrite lookup_map by exact Hx; reflexivity
          | apply (placed_all _ _ _ _ Hs) ]
      | intros _ | auto ].
    eapply always_bind with (Q := fun s => Forall (in_place E rs) (trace s));
      [ intros s Hs; apply changelog_placed; [|exact Hs];
        unfold rs, claude_code_resources;
        rewrite lookup_app_r by (rewrite length_map; lia);
        rewrite length_map, Nat.sub_diag; reflexivity
      | intros _ | auto ].
    eapply always_bind with (Q := placed E rs None);
      [ intros s Hs; apply placed_cursor, Hs
      | intros _ | apply placed_all ].
    apply always_inv; [|apply placed_all].
    unfold saveManifest, ClaudeCode.summary. place_auto. }
  apply H, boot_placed.
Qed.

Lemma openai_codex_placed (E : env) (docs : list OpenaiCodex.Doc)
    (argv : list string) (fs : gmap string string) (m : mfile) :
  Forall (in_place E (openai_codex_resources E docs))
    (trace (snd (OpenaiCodex.main E docs argv (boot fs m)))).
Proof.
  set (rs := openai_codex_resources E docs).
  assert (H : always (placed E rs None) (OpenaiCodex.main E docs argv)
                (fun s => Forall (in_place E rs) (trace s))).
  { unfold OpenaiCodex.main. cbv zeta.
    eapply always_bind; [apply always_inv with (R := placed E rs None); [place_auto|auto]
                        | intros _ | apply placed_all].
    eapply always_bind;
      [ apply always_inv with (R := placed E rs None);
          [unfold OpenaiCodex.cloneOrPullRepo; place_auto|auto]
      | intros commitHash | apply placed_all].
    eapply always_bind; [apply always_inv with (R := placed E rs None); [place_auto|auto]
                        | intros _ | apply placed_all].
    eapply always_bind; [apply always_inv with (R := placed E rs None); [place_auto|auto]
                        | intros manifest | apply placed_all].
    eapply always_bind; [apply always_inv with (R := placed E rs None); [place_auto|auto]
                        | intros _ | apply placed_all].
    eapply always_bind with (Q := fun s => Forall (in_place E rs) (trace s));
      [ intros s Hs; apply for_of_lookup;
          [ intros i x s' Hx; apply openai_codex_body_placed;
            unfold rs, openai_codex_resources; cbn [Nat.add];
            erewrite lookup_map by exact Hx; reflexivity
          | apply (placed_all _ _ _ _ Hs) ]
      | intros _ | auto ].
    eapply always_bind with (Q := placed E rs None);
      [ intros s Hs; apply placed_cursor, Hs
      | intros _ | apply placed_all ].
    apply always_inv; [|apply placed_all].
    unfold saveManifest, OpenaiCodex.summary. place_auto. }
  apply H, boot_placed.
Qed.

Lemma gemini_cli_placed (E : env) (docs : list string)
    (argv : list string) (fs : gmap string string) (m : mfile) :
  Forall (in_place E (gemini_cli_resources E docs))
    (trace (snd (GeminiCli.main E docs argv (boot fs m)))).
Proof.
  set (rs := gemini_cli_resources E docs).
  assert (H : always (placed E rs None) (GeminiCli.main E docs argv)
                (fun s => Forall (in_place E rs) (trace s))).
  { unfold GeminiCli.main. cbv zeta.
    eapply always_bind; [apply always_inv with (R := placed E rs None); [place_auto|auto]
                        | intros _ | apply placed_all].
    eapply always_bind;
      [ apply always_inv with (R := placed E rs None);
          [unfold GeminiCli.cloneOrPullRepo; place_auto|auto]
      | intros commitHash | apply placed_all].
    eapply always_bind; [apply always_inv with (R := placed E rs None); [place_auto|auto]
                        | intros _ | apply placed_all].
    eapply always_bind; [apply always_inv with (R := placed E rs None); [place_auto|auto]
                        | intros manifest | apply placed_all].
    eapply always_bind; [apply always_inv with (R := placed E rs None); [place_auto|auto]
                        | intros _ | apply placed_all].
    eapply always_bind with (Q := fun s => Forall (in_place E rs) (trace s));
      [ intros s Hs; apply for_of_lookup;
          [ intros i x s' Hx; apply gemini_cli_body_placed;
            unfold rs, gemini_cli_resources; cbn [Nat.add];
            erewrite lookup_map by exact Hx; reflexivity
          | apply (placed_all _ _ _ _ Hs) ]
      | intros _ | auto ].
    eapply always_bind with (Q := placed E rs None);
      [ intros s Hs; apply placed_cursor, Hs
      | intros _ | apply placed_all ].
    apply always_inv; [|apply placed_all].
    unfold saveManifest, GeminiCli.summary. place_auto. }
  apply H, boot_placed.
Qed.

Lemma openai_api_placed (E : env) (sdk cookbook : list OpenaiApi.Doc)
    (argv : list string) (fs : gmap string string) (m : mfile) :
  Forall (in_place E (openai_api_resources E sdk cookbook))
    (trace (snd (OpenaiApi.main E sdk cookbook argv (boot fs m)))).
Proof.
  set (rs := openai_api_resources E sdk cookbook).
  assert (H : always (placed E rs None) (OpenaiApi.main E sdk cookbook argv)
                (fun s => Forall (in_place E rs) (trace s))).
  { assert (Hstep : forall A (step : M A), inv (placed E rs None) step ->
              always (placed E rs None) step (placed E rs None)).
    { intros A step Hi. apply always_inv; auto. }
    unfold OpenaiApi.main, OpenaiApi.cloneOrPull. cbv zeta.
    eapply always_bind; [apply Hstep; place_auto | intros _ | apply placed_all].
    eapply always_bind; [apply Hstep; place_auto | intros _ | apply placed_all].
    eapply always_bind; [apply Hstep; place_auto | intros sdkCommit | apply placed_all].
    eapply always_bind; [apply Hstep; place_auto | intros _ | apply placed_all].
    eapply always_bind; [apply Hstep; place_auto | intros cookbookCommit | apply placed_all].
    eapply always_bind; [apply Hstep; place_auto | intros _ | apply placed_all].
    eapply always_bind; [apply Hstep; place_auto | intros _ | apply placed_all].
    eapply always_bind; [apply Hstep; place_auto | intros manifest | apply placed_all].
    eapply always_bind; [apply Hstep; place_auto | intros _ | apply placed_all].
    eapply always_bind with (Q := fun s => Forall (in_place E rs) (trace s));
      [ intros s Hs; apply for_of_lookup;
          [ intros i x s' Hx; apply openai_api_body_placed;
            unfold rs, openai_api_resources;
            rewrite lookup_app_l
              by (rewrite length_map; apply (lookup_lt_Some _ _ _ Hx));
            erewrite lookup_map by exact Hx; reflexivity
          | apply (placed_all _ _ _ _ Hs) ]
      | intros _ | auto ].
    eapply always_bind with (Q := fun s => Forall (in_place E rs) (trace s));
      [ intros s Hs; apply for_of_lookup;
          [ intros i x s' Hx; apply openai_api_body_placed;
            unfold rs, openai_api_resources; cbn [Nat.add];
            rewrite lookup_app_r by (rewrite length_map; lia);
            rewrite length_map;
            replace (length sdk + i - length sdk) with i by lia;
            erewrite lookup_map by exact Hx; reflexivity
          | exact Hs ]
      | intros _ | auto ].
    eapply always_bind with (Q := placed E rs None);
      [ intros s Hs; apply placed_cursor, Hs
      | intros _ | apply placed_all ].
    apply always_inv; [|apply placed_all].
    unfold saveManifest, OpenaiApi.summary. place_auto. }
  apply H, boot_placed.
Qed.

(** ** The batches of the gemini-dev script *)

Lemma fetchPage_settle_eq (E : env) (i : nat) (page : GeminiDev.DocPage) (s : state) :
  cursor s = Some i ->
  exists o,
    GeminiDev.fetchPage_settle E page s =
    (Ok (page, fetched_html E i page),
     State (files s) (dirs s) (manifest_file s) (out s ++ o)
           (trace s ++
            match http E (Some i) (GeminiDev.url page) with
            | Responded _ => [(Some i, IoResponse (GeminiDev.url page))]
            | NetFail _ => []
            end)
           (cursor s) (newFiles s) (fetched s) (unchanged s) (failed s)).
Proof.
  intros Hc. unfold GeminiDev.fetchPage_settle, fetched_html, text. run. rewrite Hc.
  destruct s as [f d m o t c n x y z]. cbn [cursor] in Hc. subst c.
  cbn [files dirs manifest_file out trace cursor newFiles fetched unchanged failed].
  destruct (http E (Some i) _) as [e|r]; run.
  - eexists. rewrite (app_nil_r t). reflexivity.
  - destruct (ok r); cbn [negb]; run.
    + destruct (body r); run.
      * exists []. rewrite app_nil_r. reflexivity.
      * eexists. reflexivity.
    + eexists. reflexivity.
Qed.

Lemma settle_all_trace (E : env) (batch : list GeminiDev.DocPage) (i : nat) (s : state) :
  fst (GeminiDev.settle_all E i batch s) = Ok (results_from E i batch) /\
  trace (snd (GeminiDev.settle_all E i batch s)) = trace s ++ answers E i batch.
Proof.
  revert i s. induction batch as [|page rest IH]; intros i s.
  - cbn. now rewrite app_nil_r.
  - cbn [GeminiDev.settle_all results_from answers].
    rewrite (bind_ok (modify (set_cursor (Some i))) _ s _ tt eq_refl).
    destruct (fetchPage_settle_eq E i page (set_cursor (Some i) s) eq_refl) as [o Hp].
    rewrite (bind_ok _ _ _ _ _ Hp).
    match type of Hp with _ = (_, ?st) =>
      destruct (IH (S i) st) as [Hres Htr];
      destruct (GeminiDev.settle_all E (S i) rest st) as [rs s2] eqn:Hs2
    end.
    cbn [fst snd] in Hres, Htr. subst rs. rewrite (bind_ok _ _ _ _ _ Hs2).
    cbn [ret fst snd]. split; [reflexivity|].
    rewrite Htr. cbn [trace set_cursor]. now rewrite <- app_assoc.
Qed.

Lemma promise_all_trace (E : env) (batch : list GeminiDev.DocPage) (i : nat) (s : state) :
  fst (GeminiDev.promise_all_fetchPage E i batch s) = Ok (results_from E i batch) /\
  trace (snd (GeminiDev.promise_all_fetchPage E i batch s)) = trace s ++ batch_io E i batch.
Proof.
  unfold GeminiDev.promise_all_fetchPage, bind, batch_io.
  destruct (send_all_trace i batch s) as [Hok Htr].
  destruct (GeminiDev.send_all i batch s) as [u s1]. cbn [fst snd] in Hok, Htr. subst u.
  destruct (settle_all_trace E batch i s1) as [Hres Hans].
  split; [exact Hres|]. rewrite Hans, Htr. now rewrite <- app_assoc.
Qed.

Lemma results_from_take_drop (E : env) (n : nat) (l : list GeminiDev.DocPage) (i : nat) :
  results_from E i (take n l) ++ results_from E (i + n) (drop n l) = results_from E i l.
Proof.
  revert l i. induction n as [|n IH]; intros l i.
  - cbn. now rewrite Nat.add_0_r.
  - destruct l as [|x l]; [reflexivity|]. cbn [take drop results_from app].
    f_equal. replace (i + S n) with (S i + n) by lia. apply IH.
Qed.

(** The fetch loop: one result for every page from [i] on, obtained in
    batches of five. *)
Lemma fetch_batches_eq (E : env) (pages : list GeminiDev.DocPage) (fuel i : nat)
    (s : state) :
  length pages <= i + fuel ->
  fst (GeminiDev.fetch_batches E pages fuel i s) = Ok (results_from E i (drop i pages)) /\
  trace (snd (GeminiDev.fetch_batches E pages fuel i s)) =
    trace s ++ batches_of_five E fuel i (drop i pages).
Proof.
  revert i s. induction fuel as [|fuel IH]; intros i s Hlen;
    cbn [GeminiDev.fetch_batches batches_of_five].
  - rewrite drop_ge by lia. cbn. now rewrite app_nil_r.
  - destruct (Nat.ltb_spec i (length pages)) as [Hi|Hi].
    2: { rewrite drop_ge by lia. cbn. now rewrite app_nil_r. }
    destruct (drop i pages) as [|x rest] eqn:Hdrop.
    { apply (f_equal length) in Hdrop. rewrite length_drop in Hdrop. cbn in Hdrop. lia. }
    rewrite <- Hdrop. clear x rest Hdrop.
    cbv zeta. change GeminiDev.concurrency with 5.
    destruct (promise_all_trace E (take 5 (drop i pages)) i s) as [Hres Htr].
    destruct (GeminiDev.promise_all_fetchPage E i (take 5 (drop i pages)) s) as [b s1] eqn:Hb.
    cbn [fst snd] in Hres, Htr. subst b. rewrite (bind_ok _ _ _ _ _ Hb).
    destruct (IH (i + 5) s1 ltac:(lia)) as [Hres' Htr'].
    destruct (GeminiDev.fetch_batches E pages fuel (i + 5) s1) as [rs s2] eqn:Hrs.
    cbn [fst snd] in Hres', Htr'. subst rs. rewrite (bind_ok _ _ _ _ _ Hrs).
    cbn [ret fst snd].
    rewrite drop_drop in *. split.
    + f_equal. rewrite <- (results_from_take_drop E 5 (drop i pages) i).
      now rewrite drop_drop.
    + rewrite Htr', Htr. now rewrite <- app_assoc.
Qed.

(** A gemini-dev run makes its directories, then fetches all its pages
    in batches of five, and only then converts and writes. *)
Lemma gemini_in_batches (E : env) (pages : list GeminiDev.DocPage) (outputDir : string)
    (dryRun : bool) (s : state) :
  fetches_in_batches E pages (trace s) (GeminiDev.syncDocs E pages outputDir dryRun s).
Proof.
  set (nf := fun e => negb (is_fetch e)).
  unfold GeminiDev.syncDocs.
  match goal with
  | |- context [bind (modify (set_fetched ?f)) ?k] =>
      set (rest := bind (modify (set_fetched f)) k)
  end.
  assert (Hrest : forall s1 a,
            trace s1 = trace s ++ a -> Forall (fun e => is_fetch e = false) a ->
            fetches_in_batches E pages (trace s) (rest s1)).
  { intros s1 a Ha Hsetup. unfold rest.
    rewrite (bind_ok (modify _) _ s1 _ tt eq_refl).
    set (s2 := set_fetched (fun _ => 0) s1).
    assert (Ht2 : trace s2 = trace s ++ a) by exact Ha.
    destruct (fetch_batches_eq E pages (length pages) 0 s2 ltac:(lia)) as [Hres Htr].
    destruct (GeminiDev.fetch_batches E pages (length pages) 0 s2) as [b f] eqn:Hb.
    cbn [fst snd] in Hres, Htr. subst b. rewrite (bind_ok _ _ _ _ _ Hb).
    rewrite drop_0 in *.
    match goal with
    | |- fetches_in_batches _ _ _ (?m f) => set (tail := m)
    end.
    assert (Hok : yields is_ok tail).
    { unfold tail. apply ok_bind; [apply ok_for_of; intros j r; apply process_result_ok|].
      intros _. ok_auto. }
    assert (Hext : inv (extends nf (trace f)) tail).
    { unfold tail. apply inv_bind; [apply inv_for_of; intros j r; apply gemini_process_phase|].
      intros _. extends_auto. }
    destruct (Hok f) as [u Hu].
    pose proof (Hext f (extends_refl _ f)) as Hw.
    apply extends_negb in Hw as (t2 & Hw2 & Hw).
    exists a, t2. split; [exact Hsetup|]. split; [exact Hw|].
    rewrite Hu, Hw2, Htr, Ht2, <- !app_assoc. reflexivity. }
  clearbody rest.
  destruct dryRun.
  - run. apply (Hrest _ []); [cbn; now rewrite app_nil_r | constructor].
  - unfold mkdir. run.
    destruct (mkdir_fails E outputDir) as [e|].
    { run. exists [(cursor s, IoMkdir outputDir)], [].
      rewrite !app_nil_r. repeat split; repeat constructor. }
    run. destruct (mkdir_fails E (Js.join outputDir "multimodal")) as [e|].
    { run. exists [(cursor s, IoMkdir outputDir);
                   (cursor s, IoMkdir (Js.join outputDir "multimodal"))], [].
      rewrite !app_nil_r, <- app_assoc. repeat split; repeat constructor. }
    apply (Hrest _ [(cursor s, IoMkdir outputDir);
                    (cursor s, IoMkdir (Js.join outputDir "multimodal"))]);
      [cbn; now rewrite <- app_assoc | repeat constructor].
Qed.

(** C4, as amended.  In the five manifest scripts (claude-api,
    claude-code, openai-codex, gemini-cli, openai-api) the resources are
    processed one at a time, in the order of the configured list: every
    I/O action recorded under position [i] is one of the actions of the
    [i]-th configured resource (the request for its URL and the answer,
    or the read of its source file; the [mkdir] and the write of its
    destination; the pause), every action under no position is
    orchestration, and every action of a resource comes before every
    action of a resource further down the list; the changelog of
    claude-code comes after its last page, the cookbook files of
    openai-api after the last SDK file.  The gemini-dev script is built
    otherwise: once its directories are made, it takes its pages five at
    a time; for each batch the requests for all its pages leave, in list
    order, before any answer is awaited; and only when all batches are
    through does it convert and write, so no request leaves and no
    answer is read after the first page has been processed. *)
Theorem processing_order (E : env) (argv : list string)
    (fs : gmap string string) (m : mfile) :
  (forall pages,
     one_at_a_time E (claude_api_resources E pages)
       (trace (snd (ClaudeApi.main E pages argv (boot fs m))))) /\
  (forall pages,
     one_at_a_time E (claude_code_resources E pages)
       (trace (snd (ClaudeCode.main E pages argv (boot fs m))))) /\
  (forall docs,
     one_at_a_time E (openai_codex_resources E docs)
       (trace (snd (OpenaiCodex.main E docs argv (boot fs m))))) /\
  (forall docs,
     one_at_a_time E (gemini_cli_resources E docs)
       (trace (snd (GeminiCli.main E docs argv (boot fs m))))) /\
  (forall sdk cookbook,
     one_at_a_time E (openai_api_resources E sdk cookbook)
       (trace (snd (OpenaiApi.main E sdk cookbook argv (boot fs m))))) /\
  (forall pages outputDir dryRun s,
     fetches_in_batches E pages (trace s)
       (GeminiDev.syncDocs E pages outputDir dryRun s)) /\
  (forall pages outputDir dryRun s,
     fetch_then_process (trace s)
       (trace (snd (GeminiDev.syncDocs E pages outputDir dryRun s)))).
Proof.
  split; [|split; [|split; [|split; [|split; [|split]]]]].
  - intros. split; [apply claude_api_sequential | apply claude_api_placed].
  - intros. split; [apply claude_code_sequential | apply claude_code_placed].
  - intros. split; [apply openai_codex_sequential | apply openai_codex_placed].
  - intros. split; [apply gemini_cli_sequential | apply gemini_cli_placed].
  - intros. split; [apply openai_api_sequential | apply openai_api_placed].
  - intros. apply gemini_in_batches.
  - intros. apply gemini_phases.
Qed.

(** The statement at a first live run of the claude-api script over its
    introduction page, and at a live gemini-dev run over two pages. *)
Lemma processing_order_witness :
  one_at_a_time sample_env (claude_api_resources sample_env [intro_page])
    (trace (snd (ClaudeApi.main sample_env [intro_page] [] (boot ∅ MAbsent)))) /\
  fetches_in_batches html_env [sample_page; text_generation_page] []
    (GeminiDev.syncDocs html_env [sample_page; text_generation_page] "/out" false
       (boot ∅ MAbsent)).
Proof.
  split.
  - destruct (processing_order sample_env [] ∅ MAbsent) as (Hapi & _).
    apply Hapi.
  - destruct (processing_order html_env [] ∅ MAbsent) as (_ & _ & _ & _ & _ & Hgemini & _).
    apply (Hgemini [sample_page; text_generation_page] "/out" false (boot ∅ MAbsent)).
Defined.

(** C4, as stated, fails for the gemini-dev script: with two pages, the
    request for the second page leaves before the answer for the first
    has come, and long before the first page is written. *)
Lemma gemini_fetches_ahead :
  let t := trace (snd (GeminiDev.syncDocs html_env [sample_page; text_generation_page]
                         "/out" false (boot ∅ MAbsent))) in
  t = [(None, IoMkdir "/out"); (None, IoMkdir "/out/multimodal");
       (Some 0, IoRequest (GeminiDev.url sample_page));
       (Some 1, IoRequest (GeminiDev.url text_generation_page));
       (Some 0, IoResponse (GeminiDev.url sample_page));
       (Some 1, IoResponse (GeminiDev.url text_generation_page));
       (Some 0, IoMkdir "/out"); (Some 0, IoWrite "/out/models.md");
       (Some 1, IoMkdir "/out"); (Some 1, IoWrite "/out/text-generation.md")] /\
  ~ sequential t.
Proof.
  cbv zeta. split; [vm_compute; reflexivity|].
  intros H.
  specialize (H 7 3 0 1 (IoWrite "/out/models.md")
                (IoRequest (GeminiDev.url text_generation_page))).
  assert (7 < 3) as Habs; [|lia].
  apply H; [vm_compute; reflexivity | vm_compute; reflexivity | lia].
Qed.

(** ** The gemini-dev preview against a live run *)

Lemma sim_bind_ok {A A' B B'} (P Q R : state -> state -> Prop)
    (V : A -> A' -> Prop) (W : B -> B' -> Prop)
    (m1 : M A) (m2 : M A') (k1 : A -> M B) (k2 : A' -> M B') :
  (forall s1 s2, P s1 s2 ->
     exists a b, fst (m1 s1) = Ok a /\ fst (m2 s2) = Ok b /\ V a b /\
                 Q (snd (m1 s1)) (snd (m2 s2))) ->
  (forall a b, V a b -> sim Q (k1 a) (k2 b) W R) ->
  sim P (bind m1 k1) (bind m2 k2) W R.
Proof.
  intros Hm Hk s1 s2 HP. unfold bind.
  destruct (Hm s1 s2 HP) as (a & b & Ha & Hb & HV & HQ).
  destruct (m1 s1) as [r1 s1'], (m2 s2) as [r2 s2']. cbn [fst snd] in *. subst r1 r2.
  apply Hk; assumption.
Qed.

Lemma sim_for_of_lookup {A} (R : state -> state -> Prop) (b1 b2 : nat -> A -> M unit)
    (xs : list A) (k : nat) :
  (forall i x, xs !! i = Some x -> sim R (b1 (k + i) x) (b2 (k + i) x) eq R) ->
  sim R (for_of b1 k xs) (for_of b2 k xs) eq R.
Proof.
  revert k. induction xs as [|x xs IH]; intros k Hb; cbn [for_of].
  - intros s1 s2 HR. split; [reflexivity | exact HR].
  - pose proof (Hb 0 x eq_refl) as H0. rewrite Nat.add_0_r in H0.
    eapply sim_bind; [exact H0 | intros _ _ _ | auto].
    apply IH. intros i y Hy. replace (S k + i) with (k + S i) by lia. apply Hb, Hy.
Qed.

Lemma unseen_mkdir (E : env) (path : string) : healthy E -> unseen (mkdir E path).
Proof.
  intros Hfs s. rewrite mkdir_eq by apply Hfs. repeat split. eexists; reflexivity.
Qed.

Lemma unseen_writeFile (E : env) (path content : string) :
  healthy E -> unseen (writeFile E path content).
Proof.
  intros Hfs s. unfold writeFile. run. destruct (Hfs path) as [_ Hw]. rewrite Hw.
  repeat split. eexists; reflexivity.
Qed.

(** The fetch loop prints and counts the same in both runs, and hands
    both the same results. *)
Lemma gemini_batches_sim (E : env) (p1 p2 : list (chan * string))
    (pages : list GeminiDev.DocPage) (fuel i : nat) :
  sim (agree p1 p2) (GeminiDev.fetch_batches E pages fuel i)
      (GeminiDev.fetch_batches E pages fuel i) eq (agree p1 p2).
Proof.
  assert (Hsend : forall batch j,
            sim (agree p1 p2) (GeminiDev.send_all j batch) (GeminiDev.send_all j batch)
                eq (agree p1 p2)).
  { induction batch as [|page rest IH]; intros j; cbn [GeminiDev.send_all]; [sim_auto|].
    eapply sim_bind; [sim_auto | intros _ _ _ | auto].
    eapply sim_bind; [unfold GeminiDev.fetchPage_send, fetch_send; sim_auto
                     | intros _ _ _ | auto].
    apply IH. }
  assert (Hsettle : forall batch j,
            sim (agree p1 p2) (GeminiDev.settle_all E j batch)
                (GeminiDev.settle_all E j batch) eq (agree p1 p2)).
  { induction batch as [|page rest IH]; intros j; cbn [GeminiDev.settle_all]; [sim_auto|].
    eapply sim_bind; [sim_auto | intros _ _ _ | auto].
    eapply sim_bind; [unfold GeminiDev.fetchPage_settle; sim_auto | intros r ? <- | auto].
    eapply sim_bind; [apply IH | intros rs ? <- | auto]. sim_auto. }
  revert i. induction fuel as [|fuel IH]; intros i; cbn [GeminiDev.fetch_batches];
    [sim_auto|].
  destruct (i <? length pages); [|sim_auto]. cbv zeta.
  eapply sim_bind;
    [ unfold GeminiDev.promise_all_fetchPage;
      eapply sim_bind; [apply Hsend | intros _ _ _; apply Hsettle | auto]
    | intros batchResults ? <-
    | auto ].
  eapply sim_bind; [apply IH | intros results ? <- | auto]. sim_auto.
Qed.

Section AgreeG.
Context (E : env) (pages : list GeminiDev.DocPage) (clock : nat)
        (p1 p2 : list (chan * string)).
Abbreviation G := (agree_g E pages clock p1 p2).

(** The live run does something more first, which goes well and is not
    observed. *)
Lemma sim_live_first {A B C} (V : A -> B -> Prop) (m : M C) (m1 : M A) (k : C -> M B) :
  unseen m -> (forall c, sim G m1 (k c) V G) -> sim G m1 (bind m k) V G.
Proof.
  intros Hm Hk s1 s2 (Hc & Hf & Hlen & Ho). unfold bind.
  destruct (Hm s2) as ([c Hok] & Hc2 & Hf2 & Ho2).
  destruct (m s2) as [r s2']. cbn [fst snd] in *. subst r.
  apply Hk. unfold agree_g. rewrite Hc2, Hf2, Ho2. auto.
Qed.

Lemma g_lines (l1 l2 : chan * string) :
  preview_line E pages clock l1 l2 ->
  sim G (print (fst l1) (snd l1)) (print (fst l2) (snd l2)) eq G.
Proof.
  intros Hl s1 s2 (Hc & Hf & Hlen & r1 & r2 & H1 & H2 & Hr). split; [reflexivity|].
  unfold agree_g. run. repeat split; auto.
  exists (r1 ++ [l1]), (r2 ++ [l2]). rewrite H1, H2, <- !app_assoc.
  destruct l1, l2. repeat split.
  apply Forall2_app; [exact Hr|]. constructor; [exact Hl | constructor].
Qed.

Lemma g_print (c : chan) (t : string) : sim G (print c t) (print c t) eq G.
Proof. apply (g_lines (c, t) (c, t)). left. reflexivity. Qed.

Lemma g_clean (markdown title url : string) :
  sim G (GeminiDev.cleanMarkdown E markdown title url)
        (GeminiDev.cleanMarkdown E markdown title url)
        (fun c1 _ =>
           c1 = GeminiDev.frontmatter title url (Js.before "T"%char (toISOString E clock))
                +:+ Js.trim (GeminiDev.collapse_newlines markdown))
        G.
Proof.
  intros s1 s2 HG. rewrite !cleanMarkdown_eq. cbn [fst snd rel_res].
  split; [|exact HG]. destruct HG as (_ & _ & Hlen & _). now rewrite Hlen.
Qed.

Lemma g_ret_bind {A B} (a : A) (k1 k2 : A -> M B) (V : B -> B -> Prop) :
  sim G (k1 a) (k2 a) V G -> sim G (bind (ret a) k1) (bind (ret a) k2) V G.
Proof. intros H s1 s2 HG. exact (H s1 s2 HG). Qed.

End AgreeG.

Ltac agree_g_solve :=
  match goal with
  | H : agree_g _ _ _ _ _ _ _ |- _ => destruct H as (? & ? & ? & ? & ? & ? & ? & ?)
  end;
  unfold agree_g; run; repeat split; auto; try congruence;
  do 2 eexists; repeat split; eauto.

(** One fetched page in the preview and in a live run whose writes
    succeed: the same failure line, or the success line with and without
    the length of the document. *)
Lemma gemini_result_sim (E : env) (pages : list GeminiDev.DocPage) (clock : nat)
    (p1 p2 : list (chan * string)) (outputDir : string) (i : nat)
    (page : GeminiDev.DocPage) :
  healthy E -> pages !! i = Some page ->
  sim (agree_g E pages clock p1 p2)
      (GeminiDev.process_result E outputDir true i (page, fetched_html E i page))
      (GeminiDev.process_result E outputDir false i (page, fetched_html E i page))
      eq (agree_g E pages clock p1 p2).
Proof.
  intros Hfs Hpage. unfold GeminiDev.process_result.
  assert (Hcur : sim (agree_g E pages clock p1 p2)
                   (modify (set_cursor (Some i))) (modify (set_cursor (Some i)))
                   eq (agree_g E pages clock p1 p2)).
  { apply sim_modify. intros s1 s2 H. agree_g_solve. }
  assert (Hcount : sim (agree_g E pages clock p1 p2)
                     (modify (set_fetched S)) (modify (set_fetched S))
                     eq (agree_g E pages clock p1 p2)).
  { apply sim_modify. intros s1 s2 H. agree_g_solve. }
  destruct (fetched_html E i page) as [html|] eqn:Hhtml.
  2: { eapply sim_bind; [exact Hcur | intros _ _ _ | auto]. apply sim_ret. reflexivity. }
  eapply sim_bind; [exact Hcur | intros _ _ _ | auto].
  destruct (String.eqb html EmptyString); [apply sim_ret; reflexivity|].
  eapply sim_try_catch; [|intros e; apply g_print|auto].
  destruct (extractMainContent E html) as [contentHtml|e] eqn:Hx; cbn [call];
    [|apply sim_throw].
  apply g_ret_bind.
  destruct (turndown E contentHtml) as [markdown|e] eqn:Ht; cbn [call];
    [|apply sim_throw].
  apply g_ret_bind.
  eapply sim_bind; [apply g_clean | intros c1 c2 -> | auto]. cbv beta iota zeta.
  eapply sim_bind; [|intros _ _ _; exact Hcount|auto].
  apply sim_live_first; [apply unseen_mkdir, Hfs|]. intros _.
  apply sim_live_first; [apply unseen_writeFile, Hfs|]. intros _.
  match goal with
  | |- sim _ (print ConsoleLog ?t1) (print ConsoleLog ?t2) _ _ =>
      apply (g_lines E pages clock p1 p2 (ConsoleLog, t1) (ConsoleLog, t2))
  end.
  right. exists i, page. eexists. split; [exact Hpage|].
  split; [|split; reflexivity].
  unfold document_of. rewrite Hhtml, Hx, Ht. reflexivity.
Qed.

Lemma results_from_lookup (E : env) (pages : list GeminiDev.DocPage) (k i : nat)
    (r : GeminiDev.DocPage * option string) :
  results_from E k pages !! i = Some r ->
  exists page, pages !! i = Some page /\ r = (page, fetched_html E (k + i) page).
Proof.
  revert k i. induction pages as [|p ps IH]; intros k i Hr;
    [cbn [results_from] in Hr; rewrite lookup_nil in Hr; discriminate|].
  destruct i as [|i]; cbn in Hr.
  - injection Hr as <-. exists p. rewrite Nat.add_0_r. split; reflexivity.
  - destruct (IH (S k) i Hr) as (page & Hp & ->). exists page. split; [exact Hp|].
    do 2 f_equal. lia.
Qed.

Lemma preview_line_refl (E : env) (pages : list GeminiDev.DocPage) (clock : nat)
    (ls : list (chan * string)) :
  Forall2 (preview_line E pages clock) ls ls.
Proof. induction ls; constructor; [left; reflexivity | assumption]. Qed.

(** With a working file system the gemini-dev preview converts the same
    pages as the live run, reports on them line by line as the live run
    does, and counts the same; its clock stops when the fetch loop is
    through. *)
Lemma gemini_preview_sim (E : env) (pages : list GeminiDev.DocPage) (outputDir : string)
    (s : state) :
  healthy E ->
  sim (fun s1 s2 => s1 = s /\ s2 = s)
      (GeminiDev.syncDocs E pages outputDir true)
      (GeminiDev.syncDocs E pages outputDir false) eq
      (agree_g E pages (length (trace s ++ batches_of_five E (length pages) 0 pages))
               (out s ++ gemini_banner pages outputDir true)
               (out s ++ gemini_banner pages outputDir false)).
Proof.
  intros Hfs.
  set (T := length (trace s ++ batches_of_five E (length pages) 0 pages)).
  set (p1 := out s ++ gemini_banner pages outputDir true).
  set (p2 := out s ++ gemini_banner pages outputDir false).
  set (before := fun s1 s2 : state => agree p1 p2 s1 s2 /\ trace s1 = trace s).
  unfold GeminiDev.syncDocs. cbv beta iota zeta.
  eapply sim_bind_ok with (V := eq)
    (Q := fun s1 s2 => s1 = set_out (fun o => o ++ gemini_banner pages outputDir false) s /\
                       s2 = s1).
  { intros s1 s2 [-> ->]. exists tt, tt. repeat split. }
  intros _ _ _.
  eapply sim_bind_ok with (V := eq) (Q := before).
  { intros s1 s2 [-> ->]. exists tt, tt.
    split; [reflexivity|]. split; [reflexivity|]. split; [reflexivity|].
    split; [|reflexivity]. unfold agree. run. repeat split.
    exists []. unfold p1, p2, gemini_banner. rewrite !app_nil_r, <- !app_assoc.
    split; reflexivity. }
  intros _ _ _.
  eapply sim_bind_ok with (V := eq) (Q := before).
  { intros s1 s2 [Ha Ht]. exists tt, tt.
    rewrite (bind_ok _ _ _ _ _ (mkdir_eq E outputDir s2 (proj1 (Hfs _)))).
    rewrite mkdir_eq by apply Hfs.
    split; [reflexivity|]. split; [reflexivity|]. split; [reflexivity|].
    split; [exact Ha | exact Ht]. }
  intros _ _ _.
  eapply sim_bind_ok with (V := eq) (Q := before).
  { intros s1 s2 [Ha Ht]. exists tt, tt.
    split; [reflexivity|]. split; [reflexivity|]. split; [reflexivity|].
    split; [|exact Ht].
    destruct Ha as (Hc & Hf & Hu & Hx & rest & Ho1 & Ho2).
    unfold agree. run. repeat split; auto. exists rest. auto. }
  intros _ _ _.
  eapply sim_bind_ok
    with (V := fun a b => a = results_from E 0 pages /\ b = a)
         (Q := agree_g E pages T p1 p2).
  { intros s1 s2 [Ha Ht].
    destruct (gemini_batches_sim E p1 p2 pages (length pages) 0 s1 s2 Ha) as [_ Ha'].
    destruct (fetch_batches_eq E pages (length pages) 0 s1 ltac:(lia)) as [Hr1 Ht1].
    destruct (fetch_batches_eq E pages (length pages) 0 s2 ltac:(lia)) as [Hr2 _].
    rewrite drop_0 in *.
    eexists _, _. split; [exact Hr1|]. split; [exact Hr2|]. split; [split; reflexivity|].
    destruct Ha' as (Hc & Hf & Hu & Hx & rest & Ho1 & Ho2).
    split; [exact Hc|]. split; [exact Hf|].
    split; [unfold T; now rewrite Ht1, Ht|].
    exists rest, rest. split; [exact Ho1|]. split; [exact Ho2|]. apply preview_line_refl. }
  intros results ? [-> ->].
  eapply sim_bind;
    [ apply sim_for_of_lookup; intros i r Hr;
      destruct (results_from_lookup E pages 0 i r Hr) as (page & Hp & ->);
      apply gemini_result_sim; assumption
    | intros _ _ _ | auto ].
  eapply sim_bind; [apply sim_modify; intros s1 s2 H; agree_g_solve | intros _ _ _ | auto].
  eapply sim_bind;
    [ apply sim_get; intros s1 s2 (_ & Hf & _); exact Hf | intros n ? <- | auto ].
  apply g_print.
Qed.

Lemma gemini_summary_last (E : env) (pages : list GeminiDev.DocPage)
    (outputDir : string) (dryRun : bool) (s : state) :
  fst (GeminiDev.syncDocs E pages outputDir dryRun s) = Ok tt ->
  last (out (snd (GeminiDev.syncDocs E pages outputDir dryRun s))) =
  Some (gemini_summary pages (fetched (snd (GeminiDev.syncDocs E pages outputDir dryRun s)))).
Proof.
  assert (H : triple (fun _ => True) (GeminiDev.syncDocs E pages outputDir dryRun)
                (fun s' => last (out s') = Some (gemini_summary pages (fetched s')))).
  { unfold GeminiDev.syncDocs.
    do 7 (eapply triple_bind with (Q := fun _ => True);
          [intros ? ? ? ?; exact I | intros ?]).
    intros s' _ u _. unfold gemini_summary. run. apply last_snoc. }
  intros Hok. eapply H; eauto.
Qed.

Lemma gemini_preview_against_live (E : env) (pages : list GeminiDev.DocPage)
    (outputDir : string) (s : state) :
  healthy E ->
  let r1 := GeminiDev.syncDocs E pages outputDir true s in
  let r2 := GeminiDev.syncDocs E pages outputDir false s in
  fst r1 = Ok tt /\ fst r2 = Ok tt /\
  fetched (snd r1) = fetched (snd r2) /\
  (exists rest1 rest2,
     out (snd r1) = (out s ++ gemini_banner pages outputDir true) ++ rest1 /\
     out (snd r2) = (out s ++ gemini_banner pages outputDir false) ++ rest2 /\
     Forall2 (preview_line E pages (length (trace (snd r1)))) rest1 rest2) /\
  last (out (snd r1)) = last (out (snd r2)).
Proof.
  intros Hfs. cbv zeta.
  destruct (gemini_sync_ok E pages outputDir true) with (s := s) as [[] H1];
    [discriminate|].
  destruct (gemini_sync_ok E pages outputDir false) with (s := s) as [[] H2];
    [intros _; split; apply Hfs|].
  destruct (gemini_preview_sim E pages outputDir s Hfs s s (conj eq_refl eq_refl))
    as (_ & _ & Hcount & Hclock & Hout).
  split; [exact H1|]. split; [exact H2|]. split; [exact Hcount|].
  split; [rewrite Hclock; exact Hout|].
  rewrite !gemini_summary_last by assumption. now rewrite Hcount.
Qed.

(** * Preview mode *)

Lemma preview_matches_intro (b1 b2 : list string) (s : state) (m1 m2 : M unit) :
  sim (fun s1 s2 => s1 = s /\ s2 = s) m1 m2 eq
      (agree (out s ++ map (pair ConsoleLog) b1) (out s ++ map (pair ConsoleLog) b2)) ->
  preview_matches b1 b2 s (m1 s) (m2 s).
Proof.
  intros Hsim. destruct (Hsim s s (conj eq_refl eq_refl)) as [Hr Ha].
  destruct Ha as (_ & Hf & Hu & Hx & Hout).
  split; [apply rel_res_eq, Hr|]. auto.
Qed.

(** C3, as amended.  A run with [--dry-run] creates and changes no
    destination file and not the manifest file, in any of the six
    scripts, whatever the file system would do and however many
    resources are new or changed.  It creates no directory either, but
    for the three repository scripts, which clone or update their
    repository in a preview as in a live run: the clone under [/tmp] is
    the only directory they touch.  Against a live run from the same
    state whose file-system operations succeed, the preview of each of
    the five manifest scripts ends the same way, with the same counters,
    and, after the banner with its [Mode:] line, prints the same status
    for every resource and the same summary, line for line.  The
    gemini-dev preview, against such a live run, returns as it does,
    counts the same pages and ends with the same summary line, but the
    lines before it differ: after a banner with a notice of its own,
    every line is the line of the live run, or, for a configured page
    that converts, the success line of the live run with the length of
    the page's document added. *)
Theorem preview_is_a_no_op (E : env) (preview : list string) (s : state) :
  dry_run_flag preview = true ->
  ((forall pages, same_tree s (snd (ClaudeApi.main E pages preview s))) /\
   (forall pages, same_tree s (snd (ClaudeCode.main E pages preview s))) /\
   (forall docs,
      only_clones [OpenaiCodex.TEMP_DIR] s (snd (OpenaiCodex.main E docs preview s))) /\
   (forall docs,
      only_clones [GeminiCli.TEMP_DIR] s (snd (GeminiCli.main E docs preview s))) /\
   (forall sdk cookbook,
      only_clones [OpenaiApi.SDK_TEMP; OpenaiApi.COOKBOOK_TEMP] s
        (snd (OpenaiApi.main E sdk cookbook preview s))) /\
   (forall pages outputDir,
      same_tree s (snd (GeminiDev.syncDocs E pages outputDir true s)))) /\
  (forall live,
     dry_run_flag live = false -> healthy E ->
     (forall pages,
        preview_matches (ClaudeApi.banner E true) (ClaudeApi.banner E false) s
          (ClaudeApi.main E pages preview s) (ClaudeApi.main E pages live s)) /\
     (forall pages,
        preview_matches (ClaudeCode.banner E true) (ClaudeCode.banner E false) s
          (ClaudeCode.main E pages preview s) (ClaudeCode.main E pages live s)) /\
     (forall docs,
        preview_matches (OpenaiCodex.banner E true) (OpenaiCodex.banner E false) s
          (OpenaiCodex.main E docs preview s) (OpenaiCodex.main E docs live s)) /\
     (forall docs,
        preview_matches (GeminiCli.banner E true) (GeminiCli.banner E false) s
          (GeminiCli.main E docs preview s) (GeminiCli.main E docs live s)) /\
     (forall sdk cookbook,
        preview_matches (OpenaiApi.banner E true) (OpenaiApi.banner E false) s
          (OpenaiApi.main E sdk cookbook preview s)
          (OpenaiApi.main E sdk cookbook live s)) /\
     (forall pages outputDir,
        let r1 := GeminiDev.syncDocs E pages outputDir true s in
        let r2 := GeminiDev.syncDocs E pages outputDir false s in
        fst r1 = Ok tt /\ fst r2 = Ok tt /\
        fetched (snd r1) = fetched (snd r2) /\
        (exists rest1 rest2,
           out (snd r1) = (out s ++ gemini_banner pages outputDir true) ++ rest1 /\
           out (snd r2) = (out s ++ gemini_banner pages outputDir false) ++ rest2 /\
           Forall2 (preview_line E pages (length (trace (snd r1)))) rest1 rest2) /\
        last (out (snd r1)) = last (out (snd r2)))).
Proof.
  intros Hp. split.
  - split; [intros; apply claude_api_preview_frame, Hp|].
    split; [intros; apply claude_code_preview_frame, Hp|].
    split; [intros; apply openai_codex_preview_frame, Hp|].
    split; [intros; apply gemini_cli_preview_frame, Hp|].
    split; [intros; apply openai_api_preview_frame, Hp|].
    intros. apply gemini_preview_frame.
  - intros live Hl Hfs.
    split; [intros; apply preview_matches_intro, claude_api_preview_sim; assumption|].
    split; [intros; apply preview_matches_intro, claude_code_preview_sim; assumption|].
    split; [intros; apply preview_matches_intro, openai_codex_preview_sim; assumption|].
    split; [intros; apply preview_matches_intro, gemini_cli_preview_sim; assumption|].
    split; [intros; apply preview_matches_intro, openai_api_preview_sim; assumption|].
    intros. apply gemini_preview_against_live, Hfs.
Qed.

Lemma html_env_healthy : healthy html_env.
Proof. intros path. split; reflexivity. Defined.

(** The statement at a first run of the claude-api script over its
    introduction page, and at a gemini-dev run over a page that
    converts. *)
Lemma preview_is_a_no_op_witness :
  same_tree (boot ∅ MAbsent)
    (snd (ClaudeApi.main sample_env [intro_page] ["--dry-run"] (boot ∅ MAbsent))) /\
  preview_matches (ClaudeApi.banner sample_env true) (ClaudeApi.banner sample_env false)
    (boot ∅ MAbsent)
    (ClaudeApi.main sample_env [intro_page] ["--dry-run"] (boot ∅ MAbsent))
    (ClaudeApi.main sample_env [intro_page] [] (boot ∅ MAbsent)) /\
  same_tree (boot ∅ MAbsent)
    (snd (GeminiDev.syncDocs html_env [sample_page] "/out" true (boot ∅ MAbsent))) /\
  last (out (snd (GeminiDev.syncDocs html_env [sample_page] "/out" true (boot ∅ MAbsent))))
  = last (out (snd (GeminiDev.syncDocs html_env [sample_page] "/out" false
                      (boot ∅ MAbsent)))).
Proof.
  destruct (preview_is_a_no_op sample_env ["--dry-run"] (boot ∅ MAbsent) eq_refl)
    as ((Hframe & _) & Hlive).
  destruct (Hlive [] eq_refl sample_env_healthy) as (Hapi & _).
  destruct (preview_is_a_no_op html_env ["--dry-run"] (boot ∅ MAbsent) eq_refl)
    as ((_ & _ & _ & _ & _ & Hgframe) & Hglive).
  destruct (Hglive [] eq_refl html_env_healthy) as (_ & _ & _ & _ & _ & Hgemini).
  split; [apply Hframe|]. split; [apply Hapi|]. split; [apply Hgframe|].
  destruct (Hgemini [sample_page] "/out") as (_ & _ & _ & _ & Hlast). exact Hlast.
Defined.

(** C3, as stated, fails for the gemini-dev script: over one page that
    converts, the preview prints a notice and a success line with the
    length of the document, neither of which the live run prints; the
    live run prints the success line without the length. *)
Lemma gemini_preview_prints_sizes :
  let r1 := GeminiDev.syncDocs html_env [sample_page] "/out" true (boot ∅ MAbsent) in
  let r2 := GeminiDev.syncDocs html_env [sample_page] "/out" false (boot ∅ MAbsent) in
  fst r1 = Ok tt /\ fst r2 = Ok tt /\
  out (snd r1) =
    [(ConsoleLog, "Syncing 1 documentation pages to /out" +:+ Js.nl);
     (ConsoleLog, "(dry run - no files will be written)" +:+ Js.nl);
     (ConsoleLog, "  ✓ models.md (175 bytes)");
     (ConsoleLog, Js.nl +:+ "Synced 1/1 pages")] /\
  out (snd r2) =
    [(ConsoleLog, "Syncing 1 documentation pages to /out" +:+ Js.nl);
     (ConsoleLog, "  ✓ models.md");
     (ConsoleLog, Js.nl +:+ "Synced 1/1 pages")] /\
  ~ In (ConsoleLog, "  ✓ models.md") (out (snd r1)) /\
  out (snd r1) <> out (snd r2).
Proof.
  cbv zeta. repeat split; try (vm_compute; reflexivity).
  - vm_compute. intros [H|[H|[H|[H|[]]]]]; discriminate.
  - vm_compute. discriminate.
Qed.

(** * The gemini-dev fetch loop *)

Lemma results_from_pages (E : env) (pages : list GeminiDev.DocPage) (i : nat) :
  map fst (results_from E i pages) = pages.
Proof.
  revert i. induction pages as [|p ps IH]; intros i; [reflexivity|].
  cbn. now rewrite IH.
Qed.

(** X1.  The batched fetch of the gemini-dev script resolves to one
    result for every configured page, in the order of the configuration:
    slicing the list into batches of five drops no page and repeats
    none, whatever its length.  A result carries the body of the answer
    when the answer is 2xx, and [null] when the status is another one,
    when the body cannot be read and when the request fails; none of
    these stops the loop. *)
Theorem gemini_fetches_every_page (E : env) (pages : list GeminiDev.DocPage) (s : state) :
  fst (GeminiDev.fetch_batches E pages (length pages) 0 s) = Ok (results_from E 0 pages) /\
  map fst (results_from E 0 pages) = pages /\
  forall i page,
    pages !! i = Some page ->
    results_from E 0 pages !! i =
      Some (page,
            match http E (Some i) (GeminiDev.url page) with
            | Responded (Response code (Some html)) =>
                if (200 <=? code)%Z && (code <=? 299)%Z then Some html else None
            | _ => None
            end).
Proof.
  split; [|split].
  - destruct (fetch_batches_eq E pages (length pages) 0 s) as [H _]; [lia|].
    now rewrite drop_0 in H.
  - apply results_from_pages.
  - assert (H : forall ps k i page, ps !! i = Some page ->
              results_from E k ps !! i = Some (page, fetched_html E (k + i) page)).
    { induction ps as [|p ps IH]; intros k i page Hi; [now rewrite lookup_nil in Hi|].
      destruct i as [|i]; cbn in *.
      - injection Hi as ->. now rewrite Nat.add_0_r.
      - replace (k + S i) with (S k + i) by lia. apply IH, Hi. }
    intros i page Hi. rewrite (H pages 0 i page Hi). cbn [Nat.add].
    unfold fetched_html. destruct (http E (Some i) _) as [e|[code [html|]]];
      try reflexivity; unfold ok; cbn [status body]; now destruct (_ && _).
Qed.

(** * The gemini-dev processing loop *)

(** The fetch loop reads the network and prints; it leaves the rest of
    the state as it is. *)
Lemma fetch_batches_frame (E : env) (pages : list GeminiDev.DocPage) (I : state -> Prop)
    (fuel i : nat) :
  (forall s o t c, I s ->
     I (State (files s) (dirs s) (manifest_file s) o t c
              (newFiles s) (fetched s) (unchanged s) (failed s))) ->
  inv I (GeminiDev.fetch_batches E pages fuel i).
Proof.
  intros HI.
  assert (Hsend : forall batch j, inv I (GeminiDev.send_all j batch)).
  { induction batch as [|page rest IH]; intros j; cbn [GeminiDev.send_all].
    - apply inv_ret.
    - apply inv_bind; [inv_auto by (apply HI; assumption)|]. intros _.
      apply inv_bind; [unfold GeminiDev.fetchPage_send, fetch_send;
                       inv_auto by (apply HI; assumption)|].
      intros _. apply IH. }
  assert (Hsettle : forall batch j, inv I (GeminiDev.settle_all E j batch)).
  { induction batch as [|page rest IH]; intros j; cbn [GeminiDev.settle_all].
    - apply inv_ret.
    - apply inv_bind; [inv_auto by (apply HI; assumption)|]. intros _.
      apply inv_bind; [unfold GeminiDev.fetchPage_settle;
                       inv_auto by (apply HI; assumption)|].
      intros r. apply inv_bind; [apply IH|]. intros rs. apply inv_ret. }
  revert i. induction fuel as [|fuel IH]; intros i; cbn [GeminiDev.fetch_batches].
  - apply inv_ret.
  - destruct (i <? length pages); [|apply inv_ret]. cbv zeta.
    apply inv_bind.
    { unfold GeminiDev.promise_all_fetchPage.
      apply inv_bind; [apply Hsend | intros _; apply Hsettle]. }
    intros batchResults. apply inv_bind; [apply IH|]. intros results. apply inv_ret.
Qed.

Lemma process_result_count (E : env) (outputDir : string) (dryRun : bool)
    (i : nat) (page : GeminiDev.DocPage) (s : state) :
  let r := GeminiDev.process_result E outputDir dryRun i (page, fetched_html E i page) s in
  fst r = Ok tt /\
  fetched (snd r) = fetched s + (if converts E outputDir dryRun i page then 1 else 0).
Proof.
  cbv zeta. unfold GeminiDev.process_result, converts, GeminiDev.cleanMarkdown, call,
    mkdir, writeFile.
  destruct (fetched_html E i page) as [html|]; run; [|split; [reflexivity | lia]].
  destruct (String.eqb html EmptyString); cbn [negb andb]; run; [split; [reflexivity | lia]|].
  destruct (extractMainContent E html) as [contentHtml|e]; run;
    [|split; [reflexivity | lia]].
  destruct (turndown E contentHtml) as [markdown|e]; run; [|split; [reflexivity | lia]].
  destruct dryRun; cbn [orb]; run; [split; [reflexivity | lia]|].
  destruct (mkdir_fails E _) as [e|]; run; [split; [reflexivity | lia]|].
  destruct (write_fails E _) as [e|]; run; split; try reflexivity; lia.
Qed.

Lemma process_loop_count (E : env) (outputDir : string) (dryRun : bool)
    (pages : list GeminiDev.DocPage) (i : nat) (s : state) :
  let r := for_of (GeminiDev.process_result E outputDir dryRun) i (results_from E i pages) s in
  fst r = Ok tt /\
  fetched (snd r) = fetched s + count_from (converts E outputDir dryRun) i pages.
Proof.
  revert i s. induction pages as [|page rest IH]; intros i s.
  - cbn. split; [reflexivity | lia].
  - cbn [results_from for_of count_from]. cbv zeta.
    destruct (process_result_count E outputDir dryRun i page s) as [Hok Hn].
    destruct (GeminiDev.process_result E outputDir dryRun i _ s) as [u s1] eqn:Hm.
    cbn [fst snd] in Hok, Hn. subst u. rewrite (bind_ok _ _ _ _ _ Hm).
    destruct (IH (S i) s1) as [Hok' Hn']. split; [exact Hok'|]. rewrite Hn', Hn. lia.
Qed.

Lemma count_from_le {A} (f : nat -> A -> bool) (xs : list A) (i : nat) :
  count_from f i xs <= length xs.
Proof.
  revert i. induction xs as [|x xs IH]; intros i; cbn; [lia|].
  specialize (IH (S i)). destruct (f i x); lia.
Qed.

(** X2.  Once its output directories are there (or in a preview), the
    gemini-dev run returns normally whatever happens to single pages,
    and the count in its last line, [Synced k/N pages], is the number
    of configured pages that were fetched with a body that is not
    empty, converted without an exception and, in a live run, written
    without one; [k] never exceeds [N]. *)
Theorem gemini_success_count (E : env) (pages : list GeminiDev.DocPage)
    (outputDir : string) (dryRun : bool) (s : state) :
  (dryRun = false ->
   mkdir_fails E outputDir = None /\
   mkdir_fails E (Js.join outputDir "multimodal") = None) ->
  let r := GeminiDev.syncDocs E pages outputDir dryRun s in
  let k := count_from (converts E outputDir dryRun) 0 pages in
  fst r = Ok tt /\
  fetched (snd r) = k /\
  k <= length pages /\
  last (out (snd r)) =
    Some (ConsoleLog, Js.nl +:+ "Synced " +:+ pretty k +:+ "/" +:+
                      pretty (length pages) +:+ " pages").
Proof.
  intros Hmk. cbv zeta.
  assert (Hrun : fst (GeminiDev.syncDocs E pages outputDir dryRun s) = Ok tt /\
                 fetched (snd (GeminiDev.syncDocs E pages outputDir dryRun s)) =
                 count_from (converts E outputDir dryRun) 0 pages).
  { unfold GeminiDev.syncDocs.
    match goal with
    | |- context [bind (modify (set_fetched ?f)) ?k] =>
        set (rest := bind (modify (set_fetched f)) k)
    end.
    assert (Hrest : forall s1, fst (rest s1) = Ok tt /\
              fetched (snd (rest s1)) = count_from (converts E outputDir dryRun) 0 pages).
    { intros s1. unfold rest.
      rewrite (bind_ok _ _ s1 (set_fetched (fun _ => 0) s1) tt eq_refl).
      set (s2 := set_fetched (fun _ => 0) s1).
      pose proof (proj1 (fetch_batches_eq E pages (length pages) 0 s2 ltac:(lia))) as Hres.
      pose proof (fetch_batches_frame E pages (fun s' => fetched s' = 0) (length pages) 0
                    ltac:(intros; assumption) s2 eq_refl) as Hkeep.
      destruct (GeminiDev.fetch_batches E pages (length pages) 0 s2) as [res s3] eqn:Hb.
      cbn [fst snd] in Hres, Hkeep. subst res. rewrite drop_0 in Hb.
      rewrite (bind_ok _ _ _ _ _ Hb).
      destruct (process_loop_count E outputDir dryRun pages 0 s3) as [Hok Hn].
      destruct (for_of _ 0 (results_from E 0 pages) s3) as [u s4] eqn:Hl.
      cbn [fst snd] in Hok, Hn. subst u. rewrite (bind_ok _ _ _ _ _ Hl).
      run. split; [reflexivity|]. lia. }
    clearbody rest.
    destruct dryRun.
    - run. apply Hrest.
    - destruct (Hmk eq_refl) as [H1 H2]. unfold mkdir. run. rewrite H1. run.
      rewrite H2. run. apply Hrest. }
  destruct Hrun as [Hok Hn]. split; [exact Hok|]. split; [exact Hn|].
  split; [apply count_from_le|].
  rewrite gemini_summary_last by exact Hok. rewrite Hn. reflexivity.
Qed.

(** The statement at a live run over two pages, one of which is not
    served. *)
Lemma gemini_success_count_witness :
  let r := GeminiDev.syncDocs html_env [sample_page; blocked_page] "/out" false
             (boot ∅ MAbsent) in
  fst r = Ok tt /\ fetched (snd r) = 1.
Proof.
  cbv zeta.
  destruct (gemini_success_count html_env [sample_page; blocked_page] "/out" false
              (boot ∅ MAbsent))
    as (Hok & Hn & _); [intros _; split; reflexivity|].
  split; [exact Hok | exact Hn].
Defined.

(** * The line feeds of a cleaned document *)

Lemma append_empty_r (s : string) : s +:+ EmptyString = s.
Proof.
  induction s as [|a s IH]; [reflexivity|].
  change (String a (s +:+ EmptyString) = String a s). now rewrite IH.
Qed.

Lemma collapse_go_saturates (s : string) (j j' : nat) :
  Nat.min j 2 = Nat.min j' 2 ->
  GeminiDev.collapse_go j s = GeminiDev.collapse_go j' s.
Proof.
  revert j j'. induction s as [|a s IH]; intros j j' H; cbn [GeminiDev.collapse_go].
  - now rewrite !flush_min, H.
  - destruct (Ascii.eqb a "010"%char).
    + apply IH. lia.
    + now rewrite !flush_min, H.
Qed.

Lemma collapse_go_twice (s : string) (run k : nat) :
  GeminiDev.collapse_go k (GeminiDev.collapse_go run s) =
  GeminiDev.collapse_go (k + Nat.min run 2) s.
Proof.
  revert run k. induction s as [|a s IH]; intros run k.
  - cbn [GeminiDev.collapse_go]. rewrite !flush_min.
    rewrite <- (append_empty_r (GeminiDev.newlines (Nat.min run 2))).
    rewrite collapse_go_newlines. cbn [GeminiDev.collapse_go]. rewrite flush_min.
    f_equal. lia.
  - cbn [GeminiDev.collapse_go]. destruct (Ascii.eqb a "010"%char) eqn:Ha.
    + rewrite IH. apply collapse_go_saturates. lia.
    + rewrite flush_min, collapse_go_newlines. cbn [GeminiDev.collapse_go]. rewrite Ha.
      rewrite (IH 0 0). cbn [Nat.min Nat.add]. f_equal. f_equal. lia.
Qed.

Lemma prefix_cons (a b : ascii) (p s : string) :
  String.prefix (String a p) (String b s) = Ascii.eqb a b && String.prefix p s.
Proof.
  cbn [String.prefix]. destruct (ascii_dec a b) as [->|H].
  - now rewrite Ascii.eqb_refl.
  - apply Ascii.eqb_neq in H. now rewrite H.
Qed.

Lemma prefix_append (p s : string) : String.prefix p (p +:+ s) = true.
Proof.
  induction p as [|a p IH]; [destruct s; reflexivity|].
  change (String.prefix (String a p) (String a (p +:+ s)) = true).
  now rewrite prefix_cons, Ascii.eqb_refl.
Qed.

Lemma includes_of_prefix (p s : string) :
  String.prefix p s = true -> Js.includes p s = true.
Proof. intros H. destruct s; cbn [Js.includes]; now rewrite H. Qed.

Lemma no_triple_after (j : nat) (a : ascii) (t : string) :
  j <= 2 -> Ascii.eqb a "010"%char = false ->
  Js.includes (GeminiDev.newlines 3) t = false ->
  Js.includes (GeminiDev.newlines 3) (GeminiDev.newlines j +:+ String a t) = false.
Proof.
  intros Hj Ha Ht. rewrite Ascii.eqb_sym in Ha.
  cbv beta iota delta [GeminiDev.newlines] in Ht.
  destruct j as [|[|[|j]]]; [| | |lia];
    cbv beta iota delta [GeminiDev.newlines append];
    cbn [Js.includes]; rewrite !prefix_cons, Ht, Ha, ?Ascii.eqb_refl; reflexivity.
Qed.

Lemma collapse_go_no_triple (s : string) (run : nat) :
  Js.includes (GeminiDev.newlines 3) (GeminiDev.collapse_go run s) = false.
Proof.
  revert run. induction s as [|a s IH]; intros run; cbn [GeminiDev.collapse_go].
  - rewrite flush_min. assert (H : Nat.min run 2 <= 2) by lia.
    destruct (Nat.min run 2) as [|[|[|j]]]; [reflexivity..|lia].
  - destruct (Ascii.eqb a "010"%char) eqn:Ha; [apply IH|].
    rewrite flush_min. apply no_triple_after; [lia | exact Ha | apply IH].
Qed.

Lemma includes_suffix (p t s : string) :
  Js.includes p (t +:+ s) = false -> Js.includes p s = false.
Proof.
  induction t as [|x t IH]; [auto|]. cbn [Js.includes append].
  intros H. apply orb_false_iff in H as [_ H]. apply IH, H.
Qed.

Lemma newlines_shift (k : nat) (s : string) :
  GeminiDev.newlines k +:+ String "010"%char s = GeminiDev.newlines (S k) +:+ s.
Proof.
  induction k as [|k IH]; [reflexivity|].
  change (String "010"%char (GeminiDev.newlines k +:+ String "010"%char s) =
          String "010"%char (GeminiDev.newlines (S k) +:+ s)).
  now rewrite IH.
Qed.

Lemma collapse_go_calm (s : string) (k : nat) :
  k <= 2 ->
  Js.includes (GeminiDev.newlines 3) (GeminiDev.newlines k +:+ s) = false ->
  GeminiDev.collapse_go k s = GeminiDev.newlines k +:+ s.
Proof.
  revert k. induction s as [|a s IH]; intros k Hk H; cbn [GeminiDev.collapse_go].
  - rewrite flush_min, Nat.min_l by lia. now rewrite append_empty_r.
  - destruct (Ascii.eqb a "010"%char) eqn:Ha.
    + apply Ascii.eqb_eq in Ha. subst a. rewrite newlines_shift in H |- *.
      apply IH; [|exact H].
      destruct k as [|[|[|k]]]; [lia | lia | | lia].
      rewrite includes_of_prefix in H by apply prefix_append. discriminate.
    + rewrite flush_min, Nat.min_l by lia. f_equal. f_equal.
      apply (IH 0); [lia|]. cbn [GeminiDev.newlines append].
      apply (includes_suffix _ (GeminiDev.newlines k +:+ String a EmptyString)).
      rewrite append_assoc. exact H.
Qed.

Lemma prefix_empty (s : string) : String.prefix EmptyString s = true.
Proof. destruct s; reflexivity. Qed.

Lemma prefix_trimEnd (s p : string) :
  String.prefix p (Js.trimEnd s) = true -> String.prefix p s = true.
Proof.
  revert p. induction s as [|a s IH]; intros p; [auto|].
  destruct p as [|c p]; [reflexivity|]. cbn [Js.trimEnd].
  destruct (Js.trimEnd s) as [|b t] eqn:Ht.
  - destruct (Js.is_space a); [discriminate|]. rewrite !prefix_cons.
    intros H. apply andb_true_iff in H as [H1 H2]. rewrite H1.
    destruct p; [apply prefix_empty | discriminate].
  - rewrite !prefix_cons. intros H. apply andb_true_iff in H as [H1 H2].
    rewrite H1. apply IH, H2.
Qed.

Lemma includes_trimEnd (p s : string) :
  Js.includes p (Js.trimEnd s) = true -> Js.includes p s = true.
Proof.
  induction s as [|a s IH]; [auto|].
  intros H. cbn [Js.includes]. apply orb_true_iff.
  destruct (String.prefix p (Js.trimEnd (String a s))) eqn:Hp.
  - left. apply prefix_trimEnd, Hp.
  - right. apply IH. cbn [Js.trimEnd] in H, Hp.
    destruct (Js.trimEnd s) as [|b t] eqn:Ht.
    + destruct (Js.is_space a); cbn [Js.includes] in H; rewrite Hp in H;
        cbn [orb] in H; [discriminate | exact H].
    + cbn [Js.includes] in H. rewrite Hp in H. exact H.
Qed.

Lemma includes_trimStart (p s : string) :
  Js.includes p (Js.trimStart s) = true -> Js.includes p s = true.
Proof.
  induction s as [|a s IH]; [auto|]. cbn [Js.trimStart].
  destruct (Js.is_space a); [|auto].
  intros H. cbn [Js.includes]. rewrite (IH H). apply orb_true_r.
Qed.

(** X3.  The collapse of line feeds in [cleanMarkdown] brings every text
    to a normal form: the result never holds three line feeds in a row
    (no two blank lines follow each other), collapsing it again changes
    nothing, and a text that holds no three line feeds in a row is
    returned as it is.  Trimming keeps this, so the body of every
    document the gemini-dev script emits has no two blank lines in a
    row. *)
Theorem collapse_newlines_normal_form (markdown : string) :
  Js.includes (GeminiDev.newlines 3) (GeminiDev.collapse_newlines markdown) = false /\
  GeminiDev.collapse_newlines (GeminiDev.collapse_newlines markdown)
    = GeminiDev.collapse_newlines markdown /\
  (Js.includes (GeminiDev.newlines 3) markdown = false ->
   GeminiDev.collapse_newlines markdown = markdown) /\
  Js.includes (GeminiDev.newlines 3) (Js.trim (GeminiDev.collapse_newlines markdown)) = false.
Proof.
  unfold GeminiDev.collapse_newlines. split; [|split; [|split]].
  - apply collapse_go_no_triple.
  - rewrite collapse_go_twice. reflexivity.
  - intros H. apply (collapse_go_calm markdown 0); [lia | exact H].
  - destruct (Js.includes _ (Js.trim _)) eqn:H; [|reflexivity].
    unfold Js.trim in H. apply includes_trimEnd, includes_trimStart in H.
    now rewrite collapse_go_no_triple in H.
Qed.

(** The statement at a text with one blank line between two words. *)
Lemma collapse_newlines_normal_form_witness :
  GeminiDev.collapse_newlines ("a" +:+ GeminiDev.newlines 2 +:+ "b")
    = "a" +:+ GeminiDev.newlines 2 +:+ "b".
Proof.
  apply (collapse_newlines_normal_form ("a" +:+ GeminiDev.newlines 2 +:+ "b")).
  reflexivity.
Defined.

(** * The manifest from one run to the next *)

Lemma same_hash_entry (oldEntry : option json) (hash : string) :
  same_hash oldEntry hash = true ->
  exists old, oldEntry = Some old /\ truthy (Some old) = true /\
              member (Some old) "hash" = Ok (Some (JStr hash)).
Proof.
  unfold same_hash. intros H. apply andb_true_iff in H as [Ht Hh].
  destruct oldEntry as [old|]; [|discriminate]. exists old. split; [reflexivity|].
  split; [exact Ht|].
  destruct (member (Some old) "hash") as [[[]|]| |]; try discriminate.
  apply String.eqb_eq in Hh. now subst.
Qed.

(** * Loops over a configured list *)

(** A loop whose body returns normally and moves an invariant from one
    position to the next, the body knowing which element it is at. *)
Lemma for_of_spec {A} (I : nat -> state -> Prop) (body : nat -> A -> M unit) (xs : list A) :
  (forall i x s, xs !! i = Some x -> I i s ->
     fst (body i x s) = Ok tt /\ I (S i) (snd (body i x s))) ->
  forall s, I 0 s ->
    fst (for_of body 0 xs s) = Ok tt /\ I (length xs) (snd (for_of body 0 xs s)).
Proof.
  intros Hb.
  assert (H : forall suf pre s, xs = pre ++ suf -> I (length pre) s ->
            fst (for_of body (length pre) suf s) = Ok tt /\
            I (length xs) (snd (for_of body (length pre) suf s))).
  { induction suf as [|x suf IH]; intros pre s Hxs Hs; cbn [for_of].
    - rewrite Hxs, app_nil_r. split; [reflexivity | exact Hs].
    - destruct (Hb (length pre) x s) as [Hok Hn].
      + rewrite Hxs. apply list_lookup_middle. reflexivity.
      + exact Hs.
      + destruct (body (length pre) x s) as [u s1] eqn:Hm. cbn [fst snd] in Hok, Hn.
        subst u. rewrite (bind_ok _ _ _ _ _ Hm).
        specialize (IH (pre ++ [x]) s1). rewrite length_app in IH. cbn [length] in IH.
        replace (length pre + 1) with (S (length pre)) in IH by lia.
        apply IH; [|exact Hn]. rewrite Hxs, <- app_assoc. reflexivity. }
  intros s Hs. apply (H xs [] s); [reflexivity | exact Hs].
Qed.

(** * What the comparison leaves in the new manifest *)

Lemma member_truthy (e x : json) (k : string) :
  member (Some e) k = Ok (Some x) -> truthy (Some e) = true.
Proof. destruct e; cbn; try discriminate; reflexivity. Qed.

Lemma carried_entry_matches (entry : string -> string -> json) (hash time : string) :
  carries entry -> same_hash (Some (entry hash time)) hash = true.
Proof.
  intros H. destruct (H hash time) as [Hh _]. unfold same_hash.
  rewrite (member_truthy _ _ _ Hh), Hh. cbn. apply String.eqb_refl.
Qed.

Lemma compare_and_record_effect (E : env) (isDryRun : bool) (manifest : json)
    (key content : string) (ensureDir : bool) (destPath : string)
    (entry : string -> string -> json) (s : state) (table oldEntry : option json) :
  member (Some manifest) "files" = Ok table ->
  member table key = Ok oldEntry ->
  carries entry ->
  (isDryRun = false ->
   (ensureDir = true -> mkdir_fails E (Js.dirname destPath) = None) /\
   write_fails E destPath = None) ->
  let hash := hashContent E content in
  let r := compare_and_record E isDryRun manifest key content ensureDir destPath entry s in
  fst r = Ok tt /\
  failed (snd r) = failed s /\
  manifest_file (snd r) = manifest_file s /\
  cursor (snd r) = cursor s /\
  (forall k, k <> key -> obj_get k (newFiles (snd r)) = obj_get k (newFiles s)) /\
  (exists e, obj_get key (newFiles (snd r)) = Some e /\ same_hash (Some e) hash = true) /\
  if same_hash oldEntry hash then
    unchanged (snd r) = S (unchanged s) /\ fetched (snd r) = fetched s /\
    files (snd r) = files s /\ trace (snd r) = trace s /\
    obj_get key (newFiles (snd r)) = oldEntry
  else
    fetched (snd r) = S (fetched s) /\ unchanged (snd r) = unchanged s /\
    files (snd r) = (if isDryRun then files s else <[destPath := content]> (files s)).
Proof.
  intros Htable Hold Hentry Hfs hash r. subst r.
  unfold compare_and_record. fold hash. rewrite Htable. run. rewrite Hold. run.
  destruct (same_hash oldEntry hash) eqn:Hsame.
  - destruct (same_hash_entry _ _ Hsame) as (old & -> & _ & _). run.
    repeat split; auto using obj_get_set_ne, obj_get_set_eq.
    exists old. split; [apply obj_get_set_eq | exact Hsame].
  - assert (Hfresh : forall fs t,
      exists e, obj_get key (obj_set key (entry hash (toISOString E t)) fs) = Some e /\
                same_hash (Some e) hash = true).
    { intros fs t. eexists. split; [apply obj_get_set_eq|].
      apply carried_entry_matches, Hentry. }
    destruct isDryRun.
    + run. repeat split; auto using obj_get_set_ne.
    + destruct (Hfs eq_refl) as [Hmk Hwr]. unfold store, mkdir, writeFile.
      destruct ensureDir.
      * run. rewrite (Hmk eq_refl). run. rewrite Hwr. run.
        repeat split; auto using obj_get_set_ne.
      * run. rewrite Hwr. run.
        repeat split; auto using obj_get_set_ne.
Qed.

Lemma shaped_lookup (v : json) (key : string) :
  manifest_shaped v ->
  exists table oldEntry,
    member (Some v) "files" = Ok table /\ member table key = Ok oldEntry.
Proof.
  intros (t & Ht & Hne). exists (Some t). rewrite Ht.
  destruct t; try (eexists; split; reflexivity). contradiction.
Qed.

Lemma fresh_manifest_shaped : manifest_shaped ClaudeApi.fresh_manifest.
Proof. exists (JObj []). split; [reflexivity | discriminate]. Qed.

(** * The manifest a claude-api run leaves behind *)

Lemma keys_distinct (pages : list ClaudeApi.DocPage) (i j : nat) (p q : ClaudeApi.DocPage) :
  NoDup (map ClaudeApi.outputPath pages) ->
  pages !! i = Some p -> pages !! j = Some q ->
  ClaudeApi.outputPath p = ClaudeApi.outputPath q -> i = j.
Proof.
  intros Hnd Hi Hj Hk.
  apply (NoDup_lookup _ i j (ClaudeApi.outputPath p) Hnd).
  - change (map ClaudeApi.outputPath pages) with (ClaudeApi.outputPath <$> pages).
    now rewrite list_lookup_fmap, Hi.
  - change (map ClaudeApi.outputPath pages) with (ClaudeApi.outputPath <$> pages).
    now rewrite list_lookup_fmap, Hj, Hk.
Qed.

Lemma claude_api_body_records (E : env) (pages : list ClaudeApi.DocPage)
    (dry : bool) (manifest : json) :
  manifest_shaped manifest ->
  (dry = false -> healthy E) ->
  NoDup (map ClaudeApi.outputPath pages) ->
  forall i page s,
    pages !! i = Some page ->
    records_upto E pages i (newFiles s) ->
    fst (ClaudeApi.loop_body E dry manifest i page s) = Ok tt /\
    records_upto E pages (S i) (newFiles (snd (ClaudeApi.loop_body E dry manifest i page s))).
Proof.
  intros Hshape Hfs Hnd i page s Hi [Hrec Hkeys].
  destruct (shaped_lookup manifest (ClaudeApi.outputPath page) Hshape)
    as (table & oldEntry & Htable & Hold).
  unfold ClaudeApi.loop_body. run. rewrite fetchDoc_eq. cbv zeta. cbn [cursor].
  fold (served E i page). destruct (served E i page) as [content|] eqn:Ha; run.
  - rewrite (accepted_not_empty _ _ Ha). run.
    match goal with
    | |- context [compare_and_record ?e ?d ?m ?k ?c ?mk ?dest ?en ?st] =>
        destruct (compare_and_record_effect e d m k c mk dest en st table oldEntry
                    Htable Hold (proj1 script_entries_carry page))
          as (Hok & _ & _ & _ & Hother & (e0 & He0 & Hsame) & _);
        [ intros ->; split; [intros _|]; apply (Hfs eq_refl) |];
        destruct (compare_and_record e d m k c mk dest en st) as [u s1]
    end.
    cbn [fst snd] in *. subst u. run. split; [reflexivity|]. split.
    + intros j q Hj Hq. destruct (Nat.eq_dec j i) as [->|Hne].
      * rewrite Hi in Hq. injection Hq as <-. rewrite Ha. exists e0. auto.
      * specialize (Hrec j q ltac:(lia) Hq).
        assert (Hk : ClaudeApi.outputPath q <> ClaudeApi.outputPath page).
        { intros Hk. apply Hne. exact (keys_distinct pages j i q page Hnd Hq Hi Hk). }
        rewrite (Hother _ Hk). exact Hrec.
    + intros key Hkey. destruct (String.eqb_spec key (ClaudeApi.outputPath page)) as [->|Hk].
      * exists i, page. auto.
      * rewrite (Hother _ Hk) in Hkey. destruct (Hkeys key Hkey) as (j & q & Hj & Hq & Hkq).
        exists j, q. split; [lia | auto].
  - split; [reflexivity|]. split.
    + intros j q Hj Hq. destruct (Nat.eq_dec j i) as [->|Hne].
      * rewrite Hi in Hq. injection Hq as <-. rewrite Ha.
        destruct (obj_get (ClaudeApi.outputPath page) (newFiles s)) eqn:Hget; [|reflexivity].
        destruct (Hkeys (ClaudeApi.outputPath page)) as (j' & q & Hj' & Hq & Hkq);
          [rewrite Hget; discriminate|].
        pose proof (keys_distinct pages j' i q page Hnd Hq Hi Hkq). lia.
      * apply Hrec; [lia | exact Hq].
    + intros key Hkey. destruct (Hkeys key Hkey) as (j & q & Hj & Hq & Hkq).
      exists j, q. split; [lia | auto].
Qed.

(** What [loadManifest] returns from a state. *)
Lemma loadManifest_usable (E : env) (fresh : json) (s : state) :
  manifest_shaped fresh -> usable (manifest_file s) ->
  exists v s', loadManifest E fresh s = (Ok v, s') /\ manifest_shaped v /\
    files s' = files s /\ manifest_file s' = manifest_file s.
Proof.
  intros Hfresh Hs. rewrite loadManifest_eq.
  destruct (manifest_file s) as [|e|text|v] eqn:Hm; eexists _, _;
    (split; [reflexivity|]); cbn; auto.
Qed.

(** The directories a live claude-api run makes first. *)
Lemma claude_api_setup (E : env) (s : state) :
  healthy E ->
  exists s',
    (mkdir E (RESOURCES_DIR E) ;;
     for_of (fun _ subdir => mkdir E (Js.join (RESOURCES_DIR E) subdir)) 0 ClaudeApi.subdirs) s
    = (Ok tt, s') /\
    files s' = files s /\ manifest_file s' = manifest_file s /\ out s' = out s.
Proof.
  intros Hfs.
  assert (H : passes (fun s' => files s' = files s /\ manifest_file s' = manifest_file s /\
                                out s' = out s)
                (mkdir E (RESOURCES_DIR E) ;;
                 for_of (fun _ subdir => mkdir E (Js.join (RESOURCES_DIR E) subdir)) 0
                        ClaudeApi.subdirs)).
  { apply spec_after; [apply mkdir_passes; [apply Hfs | intros ? ? ? H; exact H]|].
    intros _. apply passes_for_of. intros i x.
    apply mkdir_passes; [apply Hfs | intros ? ? ? H; exact H]. }
  destruct (H s) as [[u Hu] Hs]; [auto|].
  destruct ((_ ;; _) s) as [r s']. cbn [fst snd] in *. subst r. destruct u.
  exists s'. auto.
Qed.

(** A claude-api run whose set-up goes well, step by step: it loads the
    manifest, starts the loop with empty counters and an empty table,
    and, in a live run, saves the table the loop has built.  [I] is what
    the loop keeps from one page to the next. *)
Lemma claude_api_main_steps (E : env) (pages : list ClaudeApi.DocPage)
    (argv : list string) (s : state) (I : nat -> state -> Prop) :
  (dry_run_flag argv = false -> healthy E) ->
  usable (manifest_file s) ->
  (forall manifest s0,
     manifest_shaped manifest ->
     manifest = match manifest_file s with MJson v => v | _ => ClaudeApi.fresh_manifest end ->
     files s0 = files s -> manifest_file s0 = manifest_file s -> newFiles s0 = [] ->
     fetched s0 = 0 -> unchanged s0 = 0 -> failed s0 = 0 ->
     I 0 s0 /\
     forall i page s',
       pages !! i = Some page -> I i s' ->
       fst (ClaudeApi.loop_body E (dry_run_flag argv) manifest i page s') = Ok tt /\
       I (S i) (snd (ClaudeApi.loop_body E (dry_run_flag argv) manifest i page s'))) ->
  let r := ClaudeApi.main E pages argv s in
  fst r = Ok tt /\
  exists s',
    I (length pages) s' /\
    files (snd r) = files s' /\ fetched (snd r) = fetched s' /\
    unchanged (snd r) = unchanged s' /\ failed (snd r) = failed s' /\
    if dry_run_flag argv then manifest_file (snd r) = manifest_file s'
    else exists lastSync,
      manifest_file (snd r) =
        MJson (JObj [("lastSync", JStr lastSync); ("baseUrl", JStr ClaudeApi.BASE_URL);
                     ("files", JObj (newFiles s'))]).
Proof.
  intros Hfs Hs Hloop. cbv zeta. unfold ClaudeApi.main. cbv zeta.
  rewrite (bind_ok _ _ _ _ _ (print_all_eq _ _ _)).
  set (s1 := set_out _ s).
  assert (Hsetup : exists s2,
            (if dry_run_flag argv then ret tt
             else mkdir E (RESOURCES_DIR E) ;;
                  for_of (fun _ subdir => mkdir E (Js.join (RESOURCES_DIR E) subdir)) 0
                         ClaudeApi.subdirs) s1 = (Ok tt, s2) /\
            files s2 = files s /\ manifest_file s2 = manifest_file s).
  { destruct (dry_run_flag argv).
    - exists s1. repeat split.
    - destruct (claude_api_setup E s1 (Hfs eq_refl)) as (s2 & H2 & Hf & Hm & _).
      exists s2. auto. }
  destruct Hsetup as (s2 & H2 & Hf2 & Hm2). rewrite (bind_ok _ _ _ _ _ H2).
  destruct (loadManifest_usable E ClaudeApi.fresh_manifest s2 fresh_manifest_shaped)
    as (v & s3 & H3 & Hshape & Hf3 & Hm3); [now rewrite Hm2|].
  rewrite (bind_ok _ _ _ _ _ H3).
  rewrite (bind_ok init_locals _ s3 _ tt eq_refl).
  match goal with |- context [bind (for_of _ 0 pages) _ ?st] => set (s4 := st) end.
  destruct (Hloop v s4 Hshape) as [H0 Hbody];
    [ | cbn; congruence | cbn; congruence | reflexivity.. | ].
  { rewrite loadManifest_eq in H3. rewrite Hm2 in H3.
    destruct (manifest_file s); injection H3 as <- _; reflexivity. }
  destruct (for_of_spec I (ClaudeApi.loop_body E (dry_run_flag argv) v) pages Hbody s4 H0)
    as [Hok Hend].
  destruct (for_of _ 0 pages s4) as [u s5] eqn:H5. cbn [fst snd] in Hok, Hend. subst u.
  rewrite (bind_ok _ _ _ _ _ H5).
  destruct (dry_run_flag argv).
  - unfold ClaudeApi.summary. run.
    rewrite print_all_eq. cbn [fst snd]. split; [reflexivity|].
    exists s5. repeat split; auto.
  - unfold ClaudeApi.summary, saveManifest. run.
    destruct (Hfs eq_refl (MANIFEST_FILE E)) as [_ Hw]. rewrite Hw. run.
    rewrite print_all_eq. cbn [fst snd]. split; [reflexivity|].
    exists s5. repeat split; auto. eexists. reflexivity.
Qed.

(** Every live claude-api run whose file system works, over pages with
    distinct keys, saves a manifest that records the pages as served. *)
Lemma claude_api_run_records (E : env) (pages : list ClaudeApi.DocPage)
    (argv : list string) (s : state) :
  healthy E ->
  usable (manifest_file s) ->
  NoDup (map ClaudeApi.outputPath pages) ->
  dry_run_flag argv = false ->
  let r := ClaudeApi.main E pages argv s in
  fst r = Ok tt /\
  exists lastSync table,
    manifest_file (snd r) =
      MJson (JObj [("lastSync", JStr lastSync); ("baseUrl", JStr ClaudeApi.BASE_URL);
                   ("files", JObj table)]) /\
    records E pages table.
Proof.
  intros Hfs Hs Hnd Hlive. cbv zeta.
  destruct (claude_api_main_steps E pages argv s
              (fun i s' => records_upto E pages i (newFiles s')))
    as (Hok & s' & Hrec & _ & _ & _ & _ & Hsave); [auto | exact Hs | |].
  - intros manifest s0 Hshape _ _ _ Hnew _ _ _. split.
    + rewrite Hnew. split; [intros j page Hj; lia|].
      intros key Hkey. contradiction.
    + intros i page s1 Hi Hrec. apply claude_api_body_records; auto.
  - split; [exact Hok|]. rewrite Hlive in Hsave. destruct Hsave as [lastSync Hsave].
    exists lastSync, (newFiles s'). split; [exact Hsave | exact Hrec].
Qed.

(** * A run against the manifest of the run before *)

Lemma count_from_take_S {A} (f : nat -> A -> bool) (xs : list A) (i k : nat) (x : A) :
  xs !! i = Some x ->
  count_from f k (take (S i) xs) =
  count_from f k (take i xs) + (if f (k + i) x then 1 else 0).
Proof.
  revert i k. induction xs as [|y xs IH]; intros i k Hi; [now rewrite lookup_nil in Hi|].
  destruct i as [|i].
  - cbn in Hi. injection Hi as ->. cbn [take count_from].
    replace (k + 0) with k by lia. rewrite take_0. cbn [count_from]. lia.
  - cbn in Hi. cbn [take count_from]. rewrite (IH i (S k) Hi).
    replace (S k + i) with (k + S i) by lia. lia.
Qed.

Lemma claude_api_body_quiet (E : env) (pages : list ClaudeApi.DocPage) (dry : bool)
    (v : json) (table : list (string * json)) (f0 : gmap string string) (m0 : mfile) :
  member (Some v) "files" = Ok (Some (JObj table)) ->
  records E pages table ->
  (dry = false -> healthy E) ->
  forall i page s,
    pages !! i = Some page ->
    (fetched s = 0 /\ files s = f0 /\ manifest_file s = m0 /\
     unchanged s = count_from (is_served E) 0 (take i pages) /\
     failed s + unchanged s = i /\
     forall key e, obj_get key (newFiles s) = Some e -> obj_get key table = Some e) ->
    let r := ClaudeApi.loop_body E dry v i page s in
    fst r = Ok tt /\
    fetched (snd r) = 0 /\ files (snd r) = f0 /\ manifest_file (snd r) = m0 /\
    unchanged (snd r) = count_from (is_served E) 0 (take (S i) pages) /\
    failed (snd r) + unchanged (snd r) = S i /\
    forall key e, obj_get key (newFiles (snd r)) = Some e -> obj_get key table = Some e.
Proof.
  intros Htable [Hrec _] Hfs i page s Hi (Hf & Hfiles & Hmf & Hu & Hsum & Hold). cbv zeta.
  rewrite (count_from_take_S _ _ _ _ _ Hi). cbn [Nat.add]. unfold is_served at 2.
  specialize (Hrec i page (lookup_lt_Some _ _ _ Hi) Hi).
  unfold ClaudeApi.loop_body. run. rewrite fetchDoc_eq. cbv zeta. cbn [cursor].
  fold (served E i page). destruct (served E i page) as [content|] eqn:Ha; run.
  - destruct Hrec as (e & He & Hsame).
    rewrite (accepted_not_empty _ _ Ha). run.
    match goal with
    | |- context [compare_and_record ?e' ?d ?m ?k ?c ?mk ?dest ?en ?st] =>
        destruct (compare_and_record_effect e' d m k c mk dest en st
                    (Some (JObj table)) (Some e)
                    Htable ltac:(cbn [member]; now rewrite He)
                    (proj1 script_entries_carry page))
          as (Hok & Hfailed & Hmf1 & _ & Hother & _ & Hbranch);
        [ intros ->; split; [intros _|]; apply (Hfs eq_refl) |];
        destruct (compare_and_record e' d m k c mk dest en st) as [u s1]
    end.
    cbn [fst snd] in *. subst u. rewrite Hsame in Hbranch.
    destruct Hbranch as (Hu1 & Hf1 & Hfiles1 & _ & Hkey). run.
    split; [reflexivity|]. cbn in Hu1, Hf1, Hfiles1, Hfailed, Hmf1.
    repeat split; try congruence; try lia.
    intros key e1 Hget. destruct (String.eqb_spec key (ClaudeApi.outputPath page)) as [->|Hk].
    + congruence.
    + rewrite (Hother _ Hk) in Hget. apply Hold, Hget.
  - split; [reflexivity|]. repeat split; auto; lia.
Qed.

Lemma saved_manifest_shaped (lastSync baseUrl : string) (table : list (string * json)) :
  member (Some (JObj [("lastSync", JStr lastSync); ("baseUrl", JStr baseUrl);
                      ("files", JObj table)])) "files" = Ok (Some (JObj table)).
Proof. reflexivity. Qed.

Lemma claude_api_rerun (E : env) (pages : list ClaudeApi.DocPage)
    (argv : list string) (s : state) (lastSync : string) (table : list (string * json)) :
  (dry_run_flag argv = false -> healthy E) ->
  NoDup (map ClaudeApi.outputPath pages) ->
  manifest_file s =
    MJson (JObj [("lastSync", JStr lastSync); ("baseUrl", JStr ClaudeApi.BASE_URL);
                 ("files", JObj table)]) ->
  records E pages table ->
  let r := ClaudeApi.main E pages argv s in
  fst r = Ok tt /\
  fetched (snd r) = 0 /\
  unchanged (snd r) = count_from (is_served E) 0 pages /\
  failed (snd r) + unchanged (snd r) = length pages /\
  files (snd r) = files s /\
  if dry_run_flag argv then manifest_file (snd r) = manifest_file s
  else exists lastSync' table',
    manifest_file (snd r) =
      MJson (JObj [("lastSync", JStr lastSync'); ("baseUrl", JStr ClaudeApi.BASE_URL);
                   ("files", JObj table')]) /\
    forall key, obj_get key table' = obj_get key table.
Proof.
  intros Hfs Hnd Hm Hrec. cbv zeta.
  assert (Hshape : manifest_shaped
            (JObj [("lastSync", JStr lastSync); ("baseUrl", JStr ClaudeApi.BASE_URL);
                   ("files", JObj table)])).
  { eexists. split; [apply saved_manifest_shaped | discriminate]. }
  destruct (claude_api_main_steps E pages argv s
              (fun i s' =>
                 records_upto E pages i (newFiles s') /\
                 fetched s' = 0 /\ files s' = files s /\ manifest_file s' = manifest_file s /\
                 unchanged s' = count_from (is_served E) 0 (take i pages) /\
                 failed s' + unchanged s' = i /\
                 forall key e, obj_get key (newFiles s') = Some e ->
                               obj_get key table = Some e))
    as (Hok & s' & (Hnew & Hf & Hfiles & Hmf & Hu & Hsum & Hold)
        & Hfiles' & Hf' & Hu' & Hx' & Hsave).
  - exact Hfs.
  - now rewrite Hm.
  - intros manifest s0 _ Hman Hf0 Hm0 Hn0 Hfe0 Hu0 Hx0. rewrite Hm in Hman. subst manifest.
    split.
    + rewrite Hn0. repeat split; auto; try lia.
      * intros key Hkey. contradiction.
      * intros key e He. discriminate.
    + intros i page s1 Hi (Hr1 & Hq).
      destruct (claude_api_body_records E pages (dry_run_flag argv) _ Hshape Hfs Hnd
                  i page s1 Hi Hr1) as [Hok1 Hr2].
      destruct (claude_api_body_quiet E pages (dry_run_flag argv) _ table (files s)
                  (manifest_file s) (saved_manifest_shaped lastSync ClaudeApi.BASE_URL table)
                  Hrec Hfs i page s1 Hi Hq)
        as (_ & Hq2).
      split; [exact Hok1|]. split; [exact Hr2 | exact Hq2].
  - rewrite take_ge in Hu by lia.
    split; [exact Hok|]. repeat split; try congruence; try lia.
    destruct (dry_run_flag argv); [congruence|].
    destruct Hsave as [lastSync' Hsave]. exists lastSync', (newFiles s').
    split; [exact Hsave|]. intros key.
    destruct (obj_get key (newFiles s')) as [e|] eqn:Hget; [symmetry; apply Hold, Hget|].
    destruct (obj_get key table) as [e|] eqn:Hold'; [|reflexivity]. exfalso.
    destruct Hrec as [Hentries Hkeys].
    destruct (Hkeys key) as (j & page & Hj & Hpage & Hkey); [rewrite Hold'; discriminate|].
    specialize (Hentries j page Hj Hpage).
    destruct Hnew as [Hnew _]. specialize (Hnew j page Hj Hpage).
    destruct (served E j page).
    + destruct Hnew as (e' & He' & _). congruence.
    + congruence.
Qed.

(** X4.  A live claude-api run over pages with distinct output paths,
    with a working file system and a manifest file that is absent, not
    loadable or manifest-shaped, returns normally and saves a manifest
    whose table holds exactly the pages [fetchDoc] accepted in this
    run: an entry that the comparison takes for the hash of the content
    served under the key of each of them, no entry under the key of a
    page whose fetch failed (an entry the previous manifest had for it is
    dropped), and no other key. *)
Theorem saved_manifest_lists_the_pages_served (E : env) (pages : list ClaudeApi.DocPage)
    (argv : list string) (s : state) :
  healthy E ->
  usable (manifest_file s) ->
  NoDup (map ClaudeApi.outputPath pages) ->
  dry_run_flag argv = false ->
  let r := ClaudeApi.main E pages argv s in
  fst r = Ok tt /\
  exists lastSync table,
    manifest_file (snd r) =
      MJson (JObj [("lastSync", JStr lastSync); ("baseUrl", JStr ClaudeApi.BASE_URL);
                   ("files", JObj table)]) /\
    (forall j page, pages !! j = Some page ->
       match accepted (http E (Some j)
                (ClaudeApi.BASE_URL +:+ "/" +:+ ClaudeApi.slug page +:+ ".md")) with
       | Some content =>
           exists e, obj_get (ClaudeApi.outputPath page) table = Some e /\
                     truthy (Some e) = true /\
                     member (Some e) "hash" = Ok (Some (JStr (hashContent E content)))
       | None => obj_get (ClaudeApi.outputPath page) table = None
       end) /\
    (forall key, obj_get key table <> None ->
       exists page, In page pages /\ ClaudeApi.outputPath page = key).
Proof.
  intros Hfs Hs Hnd Hlive. cbv zeta.
  destruct (claude_api_run_records E pages argv s Hfs Hs Hnd Hlive)
    as (Hok & lastSync & table & Hm & Hentries & Hkeys).
  split; [exact Hok|]. exists lastSync, table. split; [exact Hm|]. split.
  - intros j page Hj. specialize (Hentries j page (lookup_lt_Some _ _ _ Hj) Hj).
    unfold served in Hentries. destruct (accepted _); [|exact Hentries].
    destruct Hentries as (e & He & Hsame). exists e. split; [exact He|].
    destruct (same_hash_entry _ _ Hsame) as (old & [= <-] & Ht & Hh). auto.
  - intros key Hkey. destruct (Hkeys key Hkey) as (j & page & _ & Hj & Hk).
    exists page. split; [|exact Hk]. apply list_elem_of_In. eapply list_elem_of_lookup_2, Hj.
Qed.

(** The statement at a first run over the introduction page. *)
Lemma saved_manifest_lists_the_pages_served_witness :
  fst (ClaudeApi.main sample_env [intro_page] [] (boot ∅ MAbsent)) = Ok tt.
Proof.
  refine (proj1 (saved_manifest_lists_the_pages_served sample_env [intro_page] []
              (boot ∅ MAbsent) sample_env_healthy I _ eq_refl)).
  repeat constructor. intros H. apply elem_of_nil in H. exact H.
Defined.

Lemma intro_page_alone : NoDup (map ClaudeApi.outputPath [intro_page]).
Proof. repeat constructor. intros H. apply elem_of_nil in H. exact H. Qed.

Lemma manifest_file_set_files (f : gmap string string -> gmap string string) (s : state) :
  manifest_file (set_files f s) = manifest_file s.
Proof. reflexivity. Qed.

(** X5.  A claude-api run against the manifest that a live run over the
    same pages has just saved, the network serving what it served then,
    rewrites nothing: it returns normally, reports no page as new or
    updated, counts every page [fetchDoc] accepts as unchanged and every
    other page as failed, and leaves the destination tree as it finds
    it, whatever has happened to the destination files in between (a
    file deleted or edited by hand is not restored).  If it is a live run
    it saves the same table again, entry for entry. *)
Theorem rerun_rewrites_nothing (E : env) (pages : list ClaudeApi.DocPage)
    (first again : list string) (s0 s1 : state) :
  healthy E ->
  usable (manifest_file s0) ->
  NoDup (map ClaudeApi.outputPath pages) ->
  dry_run_flag first = false ->
  manifest_file s1 = manifest_file (snd (ClaudeApi.main E pages first s0)) ->
  let r := ClaudeApi.main E pages again s1 in
  fst r = Ok tt /\
  fetched (snd r) = 0 /\
  unchanged (snd r) = count_from (is_served E) 0 pages /\
  failed (snd r) + unchanged (snd r) = length pages /\
  files (snd r) = files s1 /\
  (dry_run_flag again = true -> manifest_file (snd r) = manifest_file s1) /\
  (dry_run_flag again = false ->
   exists lastSync table lastSync' table',
     manifest_file s1 =
       MJson (JObj [("lastSync", JStr lastSync); ("baseUrl", JStr ClaudeApi.BASE_URL);
                    ("files", JObj table)]) /\
     manifest_file (snd r) =
       MJson (JObj [("lastSync", JStr lastSync'); ("baseUrl", JStr ClaudeApi.BASE_URL);
                    ("files", JObj table')]) /\
     forall key, obj_get key table' = obj_get key table).
Proof.
  intros Hfs Hs Hnd Hlive Hm. cbv zeta.
  destruct (claude_api_run_records E pages first s0 Hfs Hs Hnd Hlive)
    as (_ & lastSync & table & Hsaved & Hrec).
  rewrite Hsaved in Hm.
  destruct (claude_api_rerun E pages again s1 lastSync table (fun _ => Hfs) Hnd Hm Hrec)
    as (Hok & Hf & Hu & Hsum & Hfiles & Hsave).
  repeat split; auto.
  - intros Hdry. now rewrite Hdry in Hsave.
  - intros Hagain. rewrite Hagain in Hsave. destruct Hsave as (lastSync' & table' & Hm' & Heq).
    exists lastSync, table, lastSync', table'. auto.
Qed.

(** The statement at two live runs over the introduction page, the
    file having been deleted in between. *)
Lemma rerun_rewrites_nothing_witness :
  let s1 := set_files (fun _ => ∅)
              (snd (ClaudeApi.main sample_env [intro_page] [] (boot ∅ MAbsent))) in
  let r := ClaudeApi.main sample_env [intro_page] [] s1 in
  fst r = Ok tt /\ fetched (snd r) = 0 /\ unchanged (snd r) = 1 /\ files (snd r) = ∅.
Proof.
  cbv zeta.
  pose proof (rerun_rewrites_nothing sample_env [intro_page] [] []
                (boot ∅ MAbsent)
                (set_files (fun _ => ∅)
                   (snd (ClaudeApi.main sample_env [intro_page] [] (boot ∅ MAbsent))))
                sample_env_healthy I intro_page_alone eq_refl
                (manifest_file_set_files _ _)) as H.
  cbv zeta in H. destruct H as (H1 & H2 & H3 & _ & H5 & _).
  split; [exact H1|]. split; [exact H2|]. split; [exact H3 | exact H5].
Defined.
